(** * LLM gateway: routing core

    A shallow embedding of the routing core of the gateway and the
    properties established about it:

    - [app/domain/router.py]: the per-provider circuit breaker and the
      router's option records;
    - [app/domain/models.py] and, under [app/application/services/],
      [memory_registry_service.py] and [model_registry_service.py]: the
      model catalogue and its two registries;
    - [app/application/llm/openai_adapter.py]: the retry loop of the adapter;
    - [app/infrastructure/memory_client.py]: the in-process key/value store;
    - [app/api/middleware/auth.py]: the cached-key lookup and the rate limit;
    - [app/application/services/model_router.py]: [chat_completion].

    Conventions.  Python [int] is [Z].  A reading of [time.time()] is a
    rational number [Q]: the code only compares and subtracts clock readings,
    and the comparisons are taken on their exact values.  [str] is [string].
    A [dict] whose iteration order matters is an association list in insertion
    order; a [dict] used only through lookups is a [gmap].  What the
    environment decides (clock readings, what an upstream answers, whether a
    key/value write raises) is an explicit argument of the function that
    observes it. *)

From Stdlib Require Import ZArith QArith Lia List Bool String Ascii.
From Stdlib Require Import Sorting.Sorted Sorting.Permutation.
From stdpp Require Import base option list strings gmap.

Import ListNotations.
Local Open Scope string_scope.
Local Open Scope Z_scope.

(** Strict comparison of two clock readings, as a boolean. *)
Definition Qltb (a b : Q) : bool := negb (Qle_bool b a).

(* ===================================================================== *)
(** ** app/domain/router.py *)
(* ===================================================================== *)

Module DomainRouter.

Inductive CircuitState := CLOSED | OPEN | HALF_OPEN.

Definition CircuitState_eqb (a b : CircuitState) : bool :=
  match a, b with
  | CLOSED, CLOSED | OPEN, OPEN | HALF_OPEN, HALF_OPEN => true
  | _, _ => false
  end.

(** The dataclass [CircuitBreaker]. *)
Record CircuitBreaker := mkBreaker {
  provider : string;
  failure_threshold : Z;
  reset_timeout_s : Z;
  state : CircuitState;
  failure_count : Z;
  opened_at_ts : option Q
}.

(** [CircuitBreaker(provider=p)]: the field defaults of the dataclass. *)
Definition new (p : string) : CircuitBreaker :=
  mkBreaker p 5 60 CLOSED 0 None.

Definition on_success (cb : CircuitBreaker) : CircuitBreaker :=
  if negb (CircuitState_eqb (state cb) CLOSED) then
    mkBreaker (provider cb) (failure_threshold cb) (reset_timeout_s cb)
              CLOSED 0 None
  else cb.

(** [now] is the reading of [time.time()] taken when the breaker opens. *)
Definition on_failure (now : Q) (cb : CircuitBreaker) : CircuitBreaker :=
  let count := failure_count cb + 1 in
  if failure_threshold cb <=? count then
    mkBreaker (provider cb) (failure_threshold cb) (reset_timeout_s cb)
              OPEN count (Some now)
  else
    mkBreaker (provider cb) (failure_threshold cb) (reset_timeout_s cb)
              (state cb) count (opened_at_ts cb).

(** [allow_request] answers and may move the breaker to half-open; [now] is
    its reading of [time.time()], and the time since the opening is the exact
    difference of the two readings.  [None] is the [AssertionError] of
    [assert self.opened_at_ts is not None]. *)
Definition allow_request (now : Q) (cb : CircuitBreaker)
  : option (bool * CircuitBreaker) :=
  match state cb with
  | CLOSED => Some (true, cb)
  | OPEN =>
      match opened_at_ts cb with
      | None => None
      | Some opened =>
          if Qle_bool (inject_Z (reset_timeout_s cb)) (now - opened) then
            Some (true,
                  mkBreaker (provider cb) (failure_threshold cb)
                            (reset_timeout_s cb) HALF_OPEN
                            (failure_count cb) (opened_at_ts cb))
          else Some (false, cb)
      end
  | HALF_OPEN => Some (true, cb)
  end.

(** A run of failures recorded one after the other, at the given clock
    readings. *)
Definition record_failures (ts : list Q) (cb : CircuitBreaker)
  : CircuitBreaker :=
  fold_left (fun c t => on_failure t c) ts cb.

(** The breakers the router can hold: it creates them with [new] and only
    ever calls the three methods on them. *)
Inductive reachable : CircuitBreaker -> Prop :=
| reach_new (p : string) : reachable (new p)
| reach_success (cb : CircuitBreaker) :
    reachable cb -> reachable (on_success cb)
| reach_failure (now : Q) (cb : CircuitBreaker) :
    reachable cb -> reachable (on_failure now cb)
| reach_allow (now : Q) (cb cb' : CircuitBreaker) (answer : bool) :
    reachable cb -> allow_request now cb = Some (answer, cb') ->
    reachable cb'.

Record RouterCacheOptions := mkCacheOptions {
  cache_enabled : bool;
  ttl_seconds : Z
}.

Record RouterFallbackConfig := mkFallback {
  fallback_enabled : bool;
  fallback_models : list string
}.

Record RouterDecision := mkDecision {
  decision_provider : string;
  provider_model : string;
  logical_model : string;
  from_cache : bool;
  fallback_chain : list string
}.

End DomainRouter.

(* ===================================================================== *)
(** ** Python containers used by the registries *)
(* ===================================================================== *)

Module Py.

(** [bool(s)] of a [str]: the empty string is falsy. *)
Definition truthy (s : string) : bool := negb (String.eqb s "").

(** [c in s] for a one-character [c]. *)
Definition contains_char (c : ascii) (s : string) : bool :=
  existsb (Ascii.eqb c) (list_ascii_of_string s).

(** A [dict] with string keys, in insertion order. *)
Definition dict (V : Type) := list (string * V).

Fixpoint dict_get {V} (d : dict V) (k : string) : option V :=
  match d with
  | [] => None
  | (k', v) :: d' => if String.eqb k' k then Some v else dict_get d' k
  end.

(** [d[k] = v]: an existing key keeps its position. *)
Fixpoint dict_set {V} (d : dict V) (k : string) (v : V) : dict V :=
  match d with
  | [] => [(k, v)]
  | (k', v') :: d' =>
      if String.eqb k' k then (k, v) :: d' else (k', v') :: dict_set d' k v
  end.

Definition dict_values {V} (d : dict V) : list V := map snd d.

Section Sorted.
Context {A : Type} (key : A -> Z).

(** [x] goes in front of the first element whose key is not smaller. *)
Fixpoint insert_sorted (x : A) (l : list A) : list A :=
  match l with
  | [] => [x]
  | y :: l' =>
      if key x <=? key y then x :: y :: l' else y :: insert_sorted x l'
  end.

(** The stable ascending sort. *)
Fixpoint sort_stable (l : list A) : list A :=
  match l with
  | [] => []
  | x :: l' => insert_sorted x (sort_stable l')
  end.

(** [sorted(l, key=key, reverse=reverse)].  The sort is stable, and with
    [reverse=True] elements of equal key still keep their original order:
    the list is reversed, sorted, and reversed again. *)
Definition sorted (l : list A) (reverse : bool) : list A :=
  if reverse then rev (sort_stable (rev l)) else sort_stable l.

(** Ascending and descending order of the keys. *)
Definition ascending : list A -> Prop :=
  StronglySorted (fun a b => key a <= key b).

Definition descending : list A -> Prop :=
  StronglySorted (fun a b => key b <= key a).

(** The elements of key [p], in the order they occur. *)
Definition of_key (p : Z) (l : list A) : list A :=
  List.filter (fun a => key a =? p) l.

End Sorted.

End Py.

(* ===================================================================== *)
(** ** app/domain/models.py and the two registries *)
(* ===================================================================== *)

Module Models.

Inductive ModelCapability :=
  STREAMING | TOOLS | VISION | JSON_MODE | LONG_CONTEXT.

Definition capability_value (c : ModelCapability) : string :=
  match c with
  | STREAMING => "streaming"
  | TOOLS => "tools"
  | VISION => "vision"
  | JSON_MODE => "json_mode"
  | LONG_CONTEXT => "long_context"
  end.

Definition ModelCapability_eqb (a b : ModelCapability) : bool :=
  String.eqb (capability_value a) (capability_value b).

(** The dataclass [ModelConfig] ([created_at] and [updated_at], which no
    registry operation reads, are left out; the per-1k costs are the exact
    values of the floats). *)
Record ModelConfig := mkModel {
  id : string;
  provider : string;
  model_name : string;
  display_name : string;
  context_window : Z;
  max_output_tokens : Z;
  capabilities : list ModelCapability;
  cost_per_1k_input : Q;
  cost_per_1k_output : Q;
  is_active : bool;
  priority : Z
}.

(** [f"{m.provider}:{m.model_name}"] *)
Definition full_name (m : ModelConfig) : string :=
  provider m ++ ":" ++ model_name m.

(** The order in which [a] may come before [b] when a list is sorted by
    priority descending with ties broken by provider ascending (strings
    compare character by character). *)
Definition by_priority_then_provider (a b : ModelConfig) : Prop :=
  priority b < priority a
  \/ (priority a = priority b
      /\ String.leb (provider a) (provider b) = true).

(** The protocol [ModelRegistry] of app/domain/services/model_registry.py. *)
Class ModelRegistry (R : Type) := {
  get_model : R -> string -> option ModelConfig;
  list_models :
    R -> option string -> option ModelCapability -> bool -> list ModelConfig;
  get_fallback_chain : R -> string -> list ModelConfig
}.

End Models.

(** *** memory_registry_service.py *)
Module InMemoryModelRegistry.
Import Models.

(** The registry's snapshot [self._models]. *)
Record t := mk { _models : Py.dict ModelConfig }.

Definition get_model (self : t) (model_identifier : string)
  : option ModelConfig :=
  Py.dict_get (_models self) model_identifier.

Definition list_models (self : t) (provider_ : option string)
    (capability : option ModelCapability) (active_only : bool)
  : list ModelConfig :=
  let results := Py.dict_values (_models self) in
  let results :=
    if active_only then List.filter (fun m => is_active m) results
    else results in
  let results :=
    match provider_ with
    | Some p =>
        if Py.truthy p
        then List.filter (fun m => String.eqb (provider m) p) results
        else results
    | None => results
    end in
  let results :=
    match capability with
    | Some c =>
        List.filter
          (fun m => existsb (ModelCapability_eqb c) (capabilities m)) results
    | None => results
    end in
  Py.sorted priority results true.

(** The configs a filter selects: the three tests of [list_models] at once. *)
Definition matches (provider_ : option string)
    (capability : option ModelCapability) (active_only : bool)
    (m : ModelConfig) : bool :=
  (if active_only then is_active m else true)
  && match provider_ with
     | Some p => if Py.truthy p then String.eqb (provider m) p else true
     | None => true
     end
  && match capability with
     | Some c => existsb (ModelCapability_eqb c) (capabilities m)
     | None => true
     end.

Definition get_fallback_chain (self : t) (failed_model : string)
  : list ModelConfig :=
  match get_model self failed_model with
  | None => []
  | Some base_model =>
      let all_active := list_models self None None true in
      List.filter
        (fun m => String.eqb (provider m) (provider base_model)
                  && negb (String.eqb (model_name m) (model_name base_model)))
        all_active
  end.

(** [refresh]: [rows] is the catalogue table; the query keeps the active
    rows, and each is indexed by model name and by display name. *)
Definition refresh (rows : list ModelConfig) (self : t) : t :=
  let orm_models := List.filter (fun m => is_active m) rows in
  mk (fold_left
        (fun new_models config =>
           Py.dict_set
             (Py.dict_set new_models (model_name config) config)
             (display_name config) config)
        orm_models []).

#[global] Instance registry : ModelRegistry t :=
  {| Models.get_model := get_model;
     Models.list_models := list_models;
     Models.get_fallback_chain := get_fallback_chain |}.

End InMemoryModelRegistry.

(** *** model_registry_service.py *)
Module RedisModelRegistry.
Import Models.

(** The three structures the registry keeps in the key/value store: the
    hash [lkg:models:active] (field: canonical name; the value is the
    config, which [_unpack_model_config] reads back from the packed bytes,
    [None] standing for a value that is empty), the hash
    [lkg:models:aliases], and the sets [lkg:models:capability:{cap}], by
    capability value.  Fields and members come in the order the store
    returns them. *)
Record t := mk {
  active : Py.dict (option ModelConfig);
  aliases : Py.dict string;
  capability_sets : Py.dict (list string)
}.

(** [hget]: the value of a field, if the field is there. *)
Definition hget {V} (h : Py.dict V) (field : string) : option V :=
  Py.dict_get h field.

(** [smembers] of a capability set; a missing key is the empty set. *)
Definition smembers (self : t) (cap : string) : list string :=
  match Py.dict_get (capability_sets self) cap with
  | Some keys => keys
  | None => []
  end.

Definition get_model (self : t) (model_identifier : string)
  : option ModelConfig :=
  let model_key :=
    if negb (Py.contains_char ":" model_identifier) then
      match hget (aliases self) model_identifier with
      | Some actual_key =>
          if Py.truthy actual_key then actual_key else model_identifier
      | None => model_identifier
      end
    else model_identifier in
  match hget (active self) model_key with
  | Some (Some m) => Some m
  | _ => None
  end.

(** The loop of [list_models] over the raw values. *)
Definition collect (provider_ : option string)
    (raw_list : list (option ModelConfig)) : list ModelConfig :=
  flat_map
    (fun raw =>
       match raw with
       | Some model =>
           match provider_ with
           | Some p =>
               if Py.truthy p && negb (String.eqb (provider model) p)
               then [] else [model]
           | None => [model]
           end
       | None => []
       end)
    raw_list.

Definition list_models (self : t) (provider_ : option string)
    (capability : option ModelCapability) (active_only : bool)
  : list ModelConfig :=
  match capability with
  | Some c =>
      let keys := smembers self (capability_value c) in
      match keys with
      | [] => []
      | _ =>
          let raw_list :=
            map (fun k => match hget (active self) k with
                          | Some raw => raw
                          | None => None
                          end) keys in
          Py.sorted priority (collect provider_ raw_list) false
      end
  | None =>
      let raw_list := Py.dict_values (active self) in
      Py.sorted priority (collect provider_ raw_list) false
  end.

Definition get_fallback_chain (self : t) (failed_model : string)
  : list ModelConfig :=
  let all_models := list_models self None None true in
  List.filter (fun m => negb (String.eqb (full_name m) failed_model))
              all_models.

(** [refresh]: nothing is written when the catalogue has no active row;
    otherwise the two hashes are deleted and rewritten, and the capability
    sets that occur in the new data are deleted and refilled. *)
Definition refresh (rows : list ModelConfig) (self : t) : t :=
  let db_models := List.filter (fun m => is_active m) rows in
  match db_models with
  | [] => self
  | _ =>
      let active_hash :=
        fold_left (fun h m => Py.dict_set h (full_name m) (Some m))
                  db_models [] in
      let alias_hash :=
        fold_left (fun h m => Py.dict_set h (model_name m) (full_name m))
                  db_models [] in
      let sadd (sets : Py.dict (list string)) (cap key : string) :=
        let members := match Py.dict_get sets cap with
                       | Some ks => ks
                       | None => []
                       end in
        Py.dict_set sets cap
          (if existsb (String.eqb key) members then members
           else (members ++ [key])%list) in
      let new_sets :=
        fold_left
          (fun sets m =>
             fold_left (fun s c => sadd s (capability_value c) (full_name m))
                       (capabilities m) sets)
          db_models [] in
      let kept :=
        List.filter (fun kv => match Py.dict_get new_sets (fst kv) with
                          | Some _ => false
                          | None => true
                          end)
               (capability_sets self) in
      mk active_hash alias_hash (kept ++ new_sets)%list
  end.

#[global] Instance registry : ModelRegistry t :=
  {| Models.get_model := get_model;
     Models.list_models := list_models;
     Models.get_fallback_chain := get_fallback_chain |}.

End RedisModelRegistry.

(* ===================================================================== *)
(** ** app/domain/adapters.py and app/application/llm/openai_adapter.py *)
(* ===================================================================== *)

Module Adapter.

Inductive MessageRole := SYSTEM | USER | ASSISTANT | TOOL.

Record LLMMessage := mkMessage {
  role : MessageRole;
  message_content : string
}.

Record LLMUsage := mkUsage {
  prompt_tokens : Z;
  completion_tokens : Z
}.

(** [LLMCompletionRequest]; the tool fields and the metadata, which the
    router and the retry loop pass on untouched, are left out. *)
Record LLMCompletionRequest := mkRequest {
  model : string;
  messages : list LLMMessage;
  temperature : Q;
  max_tokens : option Z;
  request_id : string
}.

Record LLMCompletionResult := mkResult {
  result_provider : string;
  result_model : string;
  content : string;
  usage : LLMUsage;
  finish_reason : option string
}.

(** The exception [ProviderError] with its two hints. *)
Record ProviderError := mkError {
  error_provider : string;
  error_model : string;
  retryable : bool;
  fallback : bool;
  status_code : option Z
}.

(** What one [self._client.post] does: it answers with a status and a body
    ([None] when reading the choice out of the body raises), or it raises
    [httpx.RequestError]. *)
Inductive Upstream :=
| Response (status : Z)
           (body : option (string * LLMUsage * option string))
| RequestError.

(** What the adapter does that can be seen from outside. *)
Inductive Event :=
| Post (attempt : Z)
| Sleep (seconds : Z).

Inductive Outcome :=
| Returned (r : LLMCompletionResult)
| Raised (e : ProviderError)
| RaisedOther.

Definition name : string := "openai".

(** The loop [for attempt in range(3)] of [OpenAIAdapter.acompletion], over
    the attempts still to make.  [upstream attempt] is what the post of that
    attempt does.  Both handlers re-raise on the last attempt and otherwise
    sleep [2**attempt] and go on. *)
Fixpoint attempts (request : LLMCompletionRequest) (upstream : Z -> Upstream)
    (range : list Z) : list Event * Outcome :=
  match range with
  | [] =>
      ([], Raised (mkError name (model request) true true None))
  | attempt :: rest =>
      let next := attempts request upstream rest in
      let except_ProviderError (e : ProviderError) :=
        if attempt =? 2 then ([Post attempt], Raised e)
        else (Post attempt :: Sleep (2 ^ attempt) :: fst next, snd next) in
      let except_RequestError :=
        if attempt =? 2 then
          ([Post attempt],
           Raised (mkError name (model request) true false None))
        else (Post attempt :: Sleep (2 ^ attempt) :: fst next, snd next) in
      match upstream attempt with
      | Response status body =>
          if (500 <=? status) || (status =? 429) then
            except_ProviderError
              (mkError name (model request) true false (Some status))
          else if 400 <=? status then
            except_ProviderError
              (mkError name (model request) false true (Some status))
          else
            match body with
            | Some (text, use, finish) =>
                ([Post attempt],
                 Returned (mkResult name (model request) text use finish))
            | None => ([Post attempt], RaisedOther)
            end
      | RequestError => except_RequestError
      end
  end.

(** The answers for which the adapter raises [retryable=True]. *)
Definition transient (u : Upstream) : bool :=
  match u with
  | Response status _ => (500 <=? status) || (status =? 429)
  | RequestError => true
  end.

Definition acompletion (request : LLMCompletionRequest)
    (upstream : Z -> Upstream) : list Event * Outcome :=
  attempts request upstream [0; 1; 2].

(** The posts and the sleeps of a trace. *)
Definition posts (tr : list Event) : list Z :=
  flat_map (fun e => match e with Post a => [a] | Sleep _ => [] end) tr.

Definition sleeps (tr : list Event) : list Z :=
  flat_map (fun e => match e with Post _ => [] | Sleep s => [s] end) tr.

End Adapter.

(* ===================================================================== *)
(** ** The key/value client, and app/infrastructure/memory_client.py *)
(* ===================================================================== *)

(** The part of the client that the rate limit uses.  Every operation takes
    the store and gives it back. *)
Module KV.
Class RedisClient (S : Type) := {
  incr : string -> S -> Z * S;
  expire : string -> Z -> S -> bool * S;
  ttl : string -> S -> Z * S
}.
End KV.

Module InMemoryRedis.

(** What a key can hold: [incr] stores an [int], [set] stores the [str] or
    [bytes] it is given. *)
Inductive value :=
| VInt (n : Z)
| VBytes (b : list Byte.byte)
| VStr (s : string).

Section Client.
(** [int(val.decode("utf-8"))]; [None] when it raises [ValueError] or
    [UnicodeDecodeError]. *)
Variable int_of_bytes : list Byte.byte -> option Z.

(** [self._data] *)
Definition empty : gmap string value := ∅.

Definition get (key : string) (data : gmap string value)
  : option value * gmap string value :=
  (data !! key, data).

Definition set (key : string) (v : value) (ex px : option Z) (nx : bool)
    (data : gmap string value) : bool * gmap string value :=
  if nx && bool_decide (is_Some (data !! key)) then (false, data)
  else (true, <[key := v]> data).

(** The integer that [incr] reads under a key. *)
Definition counter (key : string) (data : gmap string value) : Z :=
  match data !! key with
  | None => 0
  | Some (VInt n) => n
  | Some (VBytes b) =>
      match int_of_bytes b with
      | Some n => n
      | None => 0
      end
  | Some (VStr _) => 0
  end.

Definition incr (key : string) (data : gmap string value)
  : Z * gmap string value :=
  let val := counter key data in
  let new_val := val + 1 in
  (new_val, <[key := VInt new_val]> data).

Definition expire (key : string) (seconds : Z) (data : gmap string value)
  : bool * gmap string value :=
  (true, data).

Definition ttl (key : string) (data : gmap string value)
  : Z * gmap string value :=
  (60, data).

Definition delete (keys : list string) (data : gmap string value)
  : Z * gmap string value :=
  fold_left
    (fun acc k =>
       if bool_decide (is_Some (snd acc !! k))
       then (fst acc + 1, base.delete k (snd acc))
       else acc)
    keys (0, data).

Definition exists_ (key : string) (data : gmap string value)
  : bool * gmap string value :=
  (bool_decide (is_Some (data !! key)), data).

(** The calls a user of the client can make. *)
Inductive Call :=
| CGet (key : string)
| CSet (key : string) (v : value) (ex px : option Z) (nx : bool)
| CIncr (key : string)
| CExpire (key : string) (seconds : Z)
| CTtl (key : string)
| CDelete (keys : list string)
| CExists (key : string).

Definition call (c : Call) (data : gmap string value)
  : gmap string value :=
  match c with
  | CGet k => snd (get k data)
  | CSet k v ex px nx => snd (set k v ex px nx data)
  | CIncr k => snd (incr k data)
  | CExpire k s => snd (expire k s data)
  | CTtl k => snd (ttl k data)
  | CDelete ks => snd (delete ks data)
  | CExists k => snd (exists_ k data)
  end.

Definition calls (cs : list Call) (data : gmap string value)
  : gmap string value :=
  fold_left (fun d c => call c d) cs data.

(** A call that neither sets nor deletes [key]. *)
Definition keeps (key : string) (c : Call) : bool :=
  match c with
  | CSet k _ _ _ _ => negb (String.eqb k key)
  | CDelete ks => negb (existsb (String.eqb key) ks)
  | _ => true
  end.

(** How many of the calls increment [key]. *)
Definition increments (key : string) (cs : list Call) : Z :=
  Z.of_nat
    (length (List.filter
               (fun c => match c with
                         | CIncr k => String.eqb k key
                         | _ => false
                         end) cs)).

#[global] Instance client : KV.RedisClient (gmap string value) :=
  {| KV.incr := incr; KV.expire := expire; KV.ttl := ttl |}.
End Client.

End InMemoryRedis.

(* ===================================================================== *)
(** ** app/domain/api_keys.py, app/application/auth/context.py and
       app/api/middleware/auth.py *)
(* ===================================================================== *)

Module Auth.

Record ApiKeyPermissions := mkPermissions {
  can_read : bool;
  can_write : bool;
  can_manage_keys : bool;
  is_admin : bool;
  rate_limit_per_minute : Z
}.

(** [CachedApiKey], the record serialized into the store. *)
Record CachedApiKey := mkCached {
  id : string;
  org_id : string;
  user_id : string;
  preview : string;
  key_hash : string;
  is_active : bool;
  expires_at_ts : option Q;
  permissions : ApiKeyPermissions
}.

Record AuthenticatedPrincipal := mkPrincipal {
  api_key_id : string;
  principal_org_id : string;
  principal_user_id : string;
  key_preview : string;
  principal_permissions : ApiKeyPermissions
}.

(** [int(x)] of a float: truncation towards zero. *)
Definition py_int (x : Q) : Z := Z.quot (Qnum x) (Zpos (Qden x)).

(** [ApiKeyService.authenticate] on the stored record ([None] when the
    lookup hash is unknown); [bcrypt_valid] is what [bcrypt.checkpw]
    answers, and the record is given as the cache would hold it. *)
Definition authenticate (now : Q) (stored : option CachedApiKey)
    (bcrypt_valid : bool) : option CachedApiKey :=
  match stored with
  | None => None
  | Some s =>
      if negb (is_active s) then None
      else
        match expires_at_ts s with
        | Some e => if Qltb e now then None
                    else if negb bcrypt_valid then None else Some s
        | None => if negb bcrypt_valid then None else Some s
        end
  end.

(** [_get_cached_key]: [raw] is what [get] returned under
    [lkg:auth:apikey:{lookup_hash}], unpacked; [now] is [time.time()]. *)
Definition _get_cached_key (now : Q) (raw : option CachedApiKey)
  : option CachedApiKey * bool :=
  match raw with
  | None => (None, false)
  | Some cached =>
      match expires_at_ts cached with
      | Some e => if Qltb e now then (None, false) else (Some cached, true)
      | None => (Some cached, true)
      end
  end.

Definition _principal_from_cached (cached : CachedApiKey)
  : AuthenticatedPrincipal :=
  mkPrincipal (id cached) (org_id cached) (user_id cached) (preview cached)
              (permissions cached).

(** The time-to-live [_cache_key] writes the record with; [None] when the
    record is not written. *)
Definition _cache_key_ttl (now : Q) (cached : CachedApiKey) : option Z :=
  match expires_at_ts cached with
  | Some e =>
      let seconds_until_expiry := py_int (e - now) in
      if seconds_until_expiry <=? 0 then None
      else Some (Z.min 300 seconds_until_expiry)
  | None => Some 300
  end.

(** Where the principal of a request comes from. *)
Inductive Source := FromCache | FromDatabase.

(** The part of [dispatch] that resolves the principal: the cached record
    when there is one, the database otherwise ([None] is the 401). *)
Definition resolve_principal (now : Q) (raw stored : option CachedApiKey)
    (bcrypt_valid : bool) : option (Source * AuthenticatedPrincipal) :=
  match fst (_get_cached_key now raw) with
  | Some cached => Some (FromCache, _principal_from_cached cached)
  | None =>
      match authenticate now stored bcrypt_valid with
      | Some entity => Some (FromDatabase, _principal_from_cached entity)
      | None => None
      end
  end.

Definition ratelimit_key (lookup_hash client_ip : string) : string :=
  "lkg:ratelimit:" ++ lookup_hash ++ ":" ++ client_ip.

Definition auth_key (lookup_hash : string) : string :=
  "lkg:auth:apikey:" ++ lookup_hash.

(** The key of a cached response, [f"lkg:resp:{digest}"]. *)
Definition resp_key (digest : string) : string := "lkg:resp:" ++ digest.

(** The calls the gateway makes on the store: the auth gate reads and writes
    cached key records and increments, expires and asks the time-to-live of
    rate-limit counters; the router reads and writes cached responses; the
    cost tracker only reads. *)
Inductive gateway_call : InMemoryRedis.Call -> Prop :=
| call_get (key : string) : gateway_call (InMemoryRedis.CGet key)
| call_cache_key (lookup_hash : string) (v : InMemoryRedis.value)
                 (ex : option Z) :
    gateway_call (InMemoryRedis.CSet (auth_key lookup_hash) v ex None false)
| call_set_cache (digest : string) (v : InMemoryRedis.value)
                 (ex : option Z) :
    gateway_call (InMemoryRedis.CSet (resp_key digest) v ex None false)
| call_incr (lookup_hash client_ip : string) :
    gateway_call (InMemoryRedis.CIncr (ratelimit_key lookup_hash client_ip))
| call_expire (lookup_hash client_ip : string) (seconds : Z) :
    gateway_call
      (InMemoryRedis.CExpire (ratelimit_key lookup_hash client_ip) seconds)
| call_ttl (lookup_hash client_ip : string) :
    gateway_call (InMemoryRedis.CTtl (ratelimit_key lookup_hash client_ip)).

(** [_check_rate_limit]; [time] is the reading of [time.time()]. *)
Definition _check_rate_limit {S} `{KV.RedisClient S} (time : Q)
    (lookup_hash client_ip : string) (limit_per_minute : Z) (store : S)
  : (bool * Z * Z) * S :=
  let window_seconds := 60 in
  let now := py_int time in
  let redis_key := ratelimit_key lookup_hash client_ip in
  let (current, store) := KV.incr redis_key store in
  let store :=
    if current =? 1 then snd (KV.expire redis_key window_seconds store)
    else store in
  let (ttl_, store) := KV.ttl redis_key store in
  let reset_ts := now + (if 0 <? ttl_ then ttl_ else window_seconds) in
  let remaining := Z.max 0 (limit_per_minute - current) in
  ((current <=? limit_per_minute, remaining, reset_ts), store).

End Auth.

(* ===================================================================== *)
(** ** app/application/llm/factory.py and
       app/application/services/model_router.py *)
(* ===================================================================== *)

Module ModelRouter.
Import DomainRouter Models Adapter.

(** [str.lower] on the letters A to Z. *)
Definition lower_ascii (c : ascii) : ascii :=
  let n := nat_of_ascii c in
  if (65 <=? n)%nat && (n <=? 90)%nat then ascii_of_nat (n + 32) else c.

Definition lower (s : string) : string :=
  string_of_list_ascii (map lower_ascii (list_ascii_of_string s)).

(** [ProviderAdapterFactory.get_adapter]: the adapter's name, or [None] for
    the [ValueError] of an unknown provider. *)
Definition get_adapter (provider_ : string) : option string :=
  let p := lower provider_ in
  if String.eqb p "openai" || String.eqb p "anthropic"
     || String.eqb p "gemini"
  then Some p else None.

(** The payload of the response cache, as [_set_cache] writes it. *)
Record CachedPayload := mkPayload {
  payload_provider : string;
  payload_model : string;
  payload_content : string;
  payload_usage : LLMUsage;
  payload_finish_reason : option string
}.

(** What [adapter.acompletion] does for a candidate. *)
Inductive Completion :=
| Completed (result : LLMCompletionResult)
| RaisedProviderError (exc : ProviderError)
| RaisedException.

(** What the surroundings decide during one call of [chat_completion]:
    what [_get_cache] finds under the request's key and, for the candidate
    at each position of the chain, the clock that [allow_request] reads,
    what the adapter does, whether the write to the response cache raises,
    and the clock that [on_failure] reads. *)
Record Env := mkEnv {
  cached : option CachedPayload;
  clock_allow : nat -> Q;
  completion : nat -> Completion;
  cache_set_raises : nat -> bool;
  clock_failure : nat -> Q
}.

(** [last_error] *)
Inductive Error :=
| EProvider (exc : ProviderError)
| EException.

(** The router's breakers, with what it did to the outside: the upstream
    completions it asked for (provider and model), and the payloads it wrote
    to the response cache with their time-to-live. *)
Record State := mkState {
  _circuit_breakers : gmap string CircuitBreaker;
  upstream_calls : list (string * string);
  cache_writes : list (CachedPayload * Z);
  last_error : option Error
}.

Definition init : State := mkState ∅ [] [] None.

Definition _get_circuit_breaker (provider_ : string)
    (cbs : gmap string CircuitBreaker)
  : CircuitBreaker * gmap string CircuitBreaker :=
  match cbs !! provider_ with
  | Some cb => (cb, cbs)
  | None =>
      (DomainRouter.new provider_,
       <[provider_ := DomainRouter.new provider_]> cbs)
  end.

(** How [chat_completion] ends when it does not return. *)
Inductive Exception :=
| ModelNotFound
| UnknownProvider
| BreakerAssertion
| AllProvidersFailed (cause : option Error).

Inductive Outcome :=
| Return (decision : RouterDecision) (result : option LLMCompletionResult)
         (cached : option CachedPayload)
| Raise (exc : Exception).

(** How the body of the loop over the candidates ends. *)
Inductive Step :=
| SReturn (decision : RouterDecision) (result : option LLMCompletionResult)
| SContinue
| SBreak
| SRaise (exc : Exception).

(** The chain of candidates: the primary, then the registry's fallbacks,
    restricted to the requested names when the list of names is not
    empty. *)
Definition models_chain {R} `{ModelRegistry R} (registry : R)
    (cfg : ModelConfig) (fallback_ : RouterFallbackConfig)
  : list ModelConfig :=
  if fallback_enabled fallback_ then
    let fallbacks := get_fallback_chain registry (full_name cfg) in
    let fallbacks :=
      match fallback_models fallback_ with
      | [] => fallbacks
      | requested =>
          List.filter
            (fun m => existsb (String.eqb (model_name m)) requested)
            fallbacks
      end in
    (cfg :: fallbacks)%list
  else [cfg].

Definition decide_for (llm_request : LLMCompletionRequest)
    (chain : list ModelConfig) (model_cfg : ModelConfig) : RouterDecision :=
  mkDecision (Models.provider model_cfg) (model_name model_cfg)
             (model llm_request) false
             (map model_name (tail chain)).

Definition payload_of (result : LLMCompletionResult) : CachedPayload :=
  mkPayload (result_provider result) (result_model result) (content result)
            (usage result) (finish_reason result).

(** The body of [for model_cfg in models_chain], for the candidate at
    position [i].  [cache_key] tells whether the request has a cache key.
    The semaphore of the provider is taken and given back around the
    upstream call; with one request in flight it never blocks. *)
Definition attempt (env : Env) (cache_key : bool) (cache : RouterCacheOptions)
    (llm_request : LLMCompletionRequest) (streaming : bool)
    (chain : list ModelConfig) (i : nat) (model_cfg : ModelConfig)
    (st : State) : Step * State :=
  let provider_ := Models.provider model_cfg in
  match get_adapter provider_ with
  | None => (SRaise UnknownProvider, st)
  | Some _ =>
      let (cb, cbs) := _get_circuit_breaker provider_ (_circuit_breakers st) in
      match allow_request (clock_allow env i) cb with
      | None =>
          (SRaise BreakerAssertion,
           mkState cbs (upstream_calls st) (cache_writes st) (last_error st))
      | Some (false, cb) =>
          (SContinue,
           mkState (<[provider_ := cb]> cbs) (upstream_calls st)
                   (cache_writes st) (last_error st))
      | Some (true, cb) =>
          if streaming then
            (SReturn (decide_for llm_request chain model_cfg) None,
             mkState (<[provider_ := cb]> cbs) (upstream_calls st)
                     (cache_writes st) (last_error st))
          else
            let called :=
              (upstream_calls st ++ [(provider_, model_name model_cfg)])%list in
            match completion env i with
            | Completed result =>
                let cb := on_success cb in
                if cache_key then
                  if cache_set_raises env i then
                    let cb := on_failure (clock_failure env i) cb in
                    (SContinue,
                     mkState (<[provider_ := cb]> cbs) called
                             (cache_writes st) (Some EException))
                  else
                    (SReturn (decide_for llm_request chain model_cfg)
                             (Some result),
                     mkState (<[provider_ := cb]> cbs) called
                             (cache_writes st
                              ++ [(payload_of result, ttl_seconds cache)])%list
                             (last_error st))
                else
                  (SReturn (decide_for llm_request chain model_cfg)
                           (Some result),
                   mkState (<[provider_ := cb]> cbs) called (cache_writes st)
                           (last_error st))
            | RaisedProviderError exc =>
                let cb := on_failure (clock_failure env i) cb in
                (if negb (fallback exc) then SBreak else SContinue,
                 mkState (<[provider_ := cb]> cbs) called (cache_writes st)
                         (Some (EProvider exc)))
            | RaisedException =>
                let cb := on_failure (clock_failure env i) cb in
                (SContinue,
                 mkState (<[provider_ := cb]> cbs) called (cache_writes st)
                         (Some EException))
            end
      end
  end.

(** The loop over the candidates from position [i] on, and what follows
    it. *)
Fixpoint candidates (env : Env) (cache_key : bool)
    (cache : RouterCacheOptions) (llm_request : LLMCompletionRequest)
    (streaming : bool) (chain : list ModelConfig) (i : nat)
    (rest : list ModelConfig) (st : State) : Outcome * State :=
  match rest with
  | [] => (Raise (AllProvidersFailed (last_error st)), st)
  | model_cfg :: rest' =>
      match attempt env cache_key cache llm_request streaming chain i
                    model_cfg st with
      | (SReturn decision result, st') => (Return decision result None, st')
      | (SContinue, st') =>
          candidates env cache_key cache llm_request streaming chain (S i)
                     rest' st'
      | (SBreak, st') => (Raise (AllProvidersFailed (last_error st')), st')
      | (SRaise exc, st') => (Raise exc, st')
      end
  end.

(** [chat_completion].  Each call starts with [last_error = None]. *)
Definition chat_completion {R} `{ModelRegistry R} (registry : R) (env : Env)
    (llm_request : LLMCompletionRequest) (cache : RouterCacheOptions)
    (fallback_ : RouterFallbackConfig) (streaming : bool) (st : State)
  : Outcome * State :=
  let cache_key := cache_enabled cache && negb streaming in
  match (if cache_key then cached env else None) with
  | Some payload =>
      (Return (mkDecision (payload_provider payload) (payload_model payload)
                          (model llm_request) true [])
              None (Some payload),
       st)
  | None =>
      match get_model registry (model llm_request) with
      | None => (Raise ModelNotFound, st)
      | Some cfg =>
          let chain := models_chain registry cfg fallback_ in
          candidates env cache_key cache llm_request streaming chain 0 chain
                     (mkState (_circuit_breakers st) (upstream_calls st)
                              (cache_writes st) None)
      end
  end.

(** [frames P st st']: from [st] to [st'] the breaker of provider [P] is
    untouched and no model of [P] was called upstream. *)
Definition frames (P : string) (st st' : State) : Prop :=
  _circuit_breakers st' !! P = _circuit_breakers st !! P
  /\ exists extra,
       upstream_calls st' = (upstream_calls st ++ extra)%list
       /\ List.Forall (fun c => fst c <> P) extra.

End ModelRouter.

(* ===================================================================== *)
(** ** A small catalogue and a few requests, for the worked cases *)
(* ===================================================================== *)

Module Examples.
Import DomainRouter Models Adapter ModelRouter.

Definition gpt_4o : ModelConfig :=
  mkModel "m-1" "openai" "gpt-4o" "GPT-4o" 128000 4096
          [STREAMING; TOOLS] (5 # 1000) (15 # 1000) true 10.

Definition gpt_4o_mini : ModelConfig :=
  mkModel "m-2" "openai" "gpt-4o-mini" "GPT-4o mini" 128000 4096
          [STREAMING] (15 # 100000) (6 # 10000) true 5.

Definition claude : ModelConfig :=
  mkModel "m-3" "anthropic" "claude-3-5-sonnet" "Claude 3.5 Sonnet" 200000
          8192 [STREAMING; LONG_CONTEXT] (3 # 1000) (15 # 1000) true 7.

Definition gpt_35 : ModelConfig :=
  mkModel "m-4" "openai" "gpt-3.5-turbo" "GPT-3.5 Turbo" 16000 4096
          [STREAMING] (5 # 10000) (15 # 10000) true 1.

(** The catalogue table, and the two registries refreshed from it. *)
Definition catalogue : list ModelConfig :=
  [gpt_4o; claude; gpt_4o_mini; gpt_35].

Definition memory_registry : InMemoryModelRegistry.t :=
  InMemoryModelRegistry.refresh catalogue (InMemoryModelRegistry.mk []).

Definition redis_registry : RedisModelRegistry.t :=
  RedisModelRegistry.refresh catalogue (RedisModelRegistry.mk [] [] []).

(** Two models of one priority, the provider that sorts later listed
    first. *)
Definition gemini_flash : ModelConfig :=
  mkModel "m-5" "gemini" "gemini-1.5-flash" "Gemini 1.5 Flash" 1000000 8192
          [STREAMING] (1 # 10000) (4 # 10000) true 7.

Definition tied_registry : InMemoryModelRegistry.t :=
  InMemoryModelRegistry.refresh [gemini_flash; claude]
                                (InMemoryModelRegistry.mk []).

Definition request : LLMCompletionRequest :=
  mkRequest "gpt-4o" [mkMessage USER "Hi"] 1 None "req-1".

Definition answer : LLMCompletionResult :=
  mkResult "openai" "gpt-4o" "Hello" (mkUsage 3 1) (Some "stop").

(** Surroundings in which the clock reads [t], the cache is empty, and every
    candidate does [what]; the cache write raises or not. *)
Definition env_at (t : Q) (what : Completion) (write_raises : bool) : Env :=
  mkEnv None (fun _ => t) (fun _ => what) (fun _ => write_raises)
        (fun _ => t).

Definition unavailable : Completion :=
  RaisedProviderError (mkError "openai" "gpt-4o" true false (Some 503)).

(** A cached key record that expires at second 100. *)
Definition cached_key : Auth.CachedApiKey :=
  Auth.mkCached "key-1" "org-1" "user-1" "lkg_abcd" "9f86d081" true
                (Some (100 # 1)%Q)
                (Auth.mkPermissions true true false false 3).

Definition no_cache : RouterCacheOptions := mkCacheOptions false 0.
Definition with_cache : RouterCacheOptions := mkCacheOptions true 300.
Definition no_fallback : RouterFallbackConfig := mkFallback false [].

(** The router after five requests, at seconds 1 to 5, that each found the
    upstream unavailable. *)
Definition after_five_failures : State :=
  fold_left
    (fun st t =>
       snd (chat_completion memory_registry (env_at t unavailable false)
                            request no_cache no_fallback false st))
    [1 # 1; 2 # 1; 3 # 1; 4 # 1; 5 # 1]%Q init.

End Examples.

(* ===================================================================== *)
(** ** The life of a breaker, and the router seen from outside *)
(* ===================================================================== *)

Module BreakerLife.
Import DomainRouter.

(** What can happen to a breaker: the three methods, with the clock
    readings the last two take. *)
Inductive Event :=
| Success
| Failure (now : Q)
| Allow (now : Q).

Definition step (cb : CircuitBreaker) (e : Event) : CircuitBreaker :=
  match e with
  | Success => on_success cb
  | Failure now => on_failure now cb
  | Allow now =>
      match allow_request now cb with
      | Some (_, cb') => cb'
      | None => cb
      end
  end.

Definition run (events : list Event) (cb : CircuitBreaker) : CircuitBreaker :=
  fold_left step events cb.

(** How many of the events are failures. *)
Definition failures (events : list Event) : Z :=
  Z.of_nat
    (length (List.filter
               (fun e => match e with Failure _ => true | _ => false end)
               events)).

End BreakerLife.

Module RouterView.
Import DomainRouter Models Adapter ModelRouter.

(** Every breaker the router holds is one it can have built. *)
Definition breakers_reachable (st : State) : Prop :=
  forall (p : string) (cb : CircuitBreaker),
    _circuit_breakers st !! p = Some cb -> reachable cb.

(** The upstream call the router makes for a candidate. *)
Definition call_of (m : ModelConfig) : string * string :=
  (Models.provider m, model_name m).



End RouterView.

(* ===================================================================== *)
(** ** app/application/llm/gemini_adapter.py, and traces of the retry
       loops *)
(* ===================================================================== *)

Module AdapterView.
Import Adapter.

(** An answer the OpenAI adapter turns into a [ProviderError]. *)
Definition is_error (u : Upstream) : bool :=
  match u with
  | Response status _ => 400 <=? status
  | RequestError => true
  end.


End AdapterView.

Module GeminiAdapter.
Import Adapter.

Definition name : string := "gemini".

(** The loop of [GeminiAdapter.acompletion].  It differs from the OpenAI
    loop in the classification (429 first, then 5xx with [fallback=True],
    then 4xx) and in its second handler, [except Exception], which also
    takes what reading the body raises. *)
Fixpoint attempts (request : LLMCompletionRequest) (upstream : Z -> Upstream)
    (range : list Z) : list Event * Outcome :=
  match range with
  | [] =>
      ([], Raised (mkError name (model request) true true None))
  | attempt :: rest =>
      let next := attempts request upstream rest in
      let except_ProviderError (e : ProviderError) :=
        if attempt =? 2 then ([Post attempt], Raised e)
        else (Post attempt :: Sleep (2 ^ attempt) :: fst next, snd next) in
      let except_Exception :=
        if attempt =? 2 then
          ([Post attempt],
           Raised (mkError name (model request) true true None))
        else (Post attempt :: Sleep (2 ^ attempt) :: fst next, snd next) in
      match upstream attempt with
      | Response status body =>
          if status =? 429 then
            except_ProviderError
              (mkError name (model request) true false (Some 429))
          else if 500 <=? status then
            except_ProviderError
              (mkError name (model request) true true (Some status))
          else if 400 <=? status then
            except_ProviderError
              (mkError name (model request) false true (Some status))
          else
            match body with
            | Some (text, use, finish) =>
                ([Post attempt],
                 Returned (mkResult name (model request) text use finish))
            | None => except_Exception
            end
      | RequestError => except_Exception
      end
  end.

Definition acompletion (request : LLMCompletionRequest)
    (upstream : Z -> Upstream) : list Event * Outcome :=
  attempts request upstream [0; 1; 2].

End GeminiAdapter.

(* ===================================================================== *)
(** ** app/api/middleware/auth.py: [dispatch], on the in-process store *)
(* ===================================================================== *)

Module ApiKeyAuthMiddleware.
Import Auth.

(** What the middleware reads of a request: the path, the two headers (looked up
    by their lower-case names) and the host of the client, if known. *)
Record Request := mkRequest {
  path : string;
  x_api_key : option string;
  authorization : option string;
  client_host : option string
}.

(** What the surroundings decide during one [dispatch]: the record the
    credential store holds under the key's lookup hash, what
    [bcrypt.checkpw] answers, and the four clock readings, taken by
    [_get_cached_key], [ApiKeyService.authenticate], [_cache_key] and
    [_check_rate_limit]. *)
Record Env := mkEnv {
  stored : option CachedApiKey;
  bcrypt_valid : bool;
  now_cached : Q;
  now_db : Q;
  now_cache_key : Q;
  now_rate_limit : Q
}.

(** How [dispatch] ends: it hands the request on without authentication, it
    raises a 401 or the 429, the unpacking of the cached bytes raises, or it
    hands the request on with the request context, the cache-hit flag and
    the rate-limit info [limit, remaining, reset_ts]. *)
Inductive Response :=
| CallNext
| Unauthorized (detail : string)
| TooManyRequests
| UnpackError
| Forwarded (principal : AuthenticatedPrincipal) (client_ip : string)
            (auth_cache_hit : bool) (limit remaining reset_ts : Z).

Definition unauthenticated_paths : list string :=
  ["/"; "/internal/health"; "/internal/metrics"; "/docs"; "/redoc";
   "/openapi.json"].

(** A record that has not expired at clock reading [t], by the test the
    code makes. *)
Definition unexpired (t : Q) (c : CachedApiKey) : bool :=
  match expires_at_ts c with
  | Some e => negb (Qltb e t)
  | None => true
  end.

Section Dispatch.
(** [int(val.decode("utf-8"))] of the store, [sha256(s.encode("utf-8"))
    .hexdigest()], [str.strip], and [msgpack.packb] of a record's payload
    with [msgpack.unpackb] back into a record ([None] when it raises). *)
Variable int_of_bytes : list Byte.byte -> option Z.
Variable sha256_hex : string -> string.
Variable strip : string -> string.
Variable packb : CachedApiKey -> list Byte.byte.
Variable unpackb : list Byte.byte -> option CachedApiKey.

Definition _extract_api_key (request : Request) : option string :=
  let from_authorization :=
    match authorization request with
    | Some auth_header =>
        if Py.truthy auth_header
           && String.prefix "bearer " (ModelRouter.lower auth_header)
        then Some (strip (String.substring
                            7 (String.length auth_header - 7) auth_header))
        else None
    | None => None
    end in
  match x_api_key request with
  | Some header_val =>
      if Py.truthy header_val then Some (strip header_val)
      else from_authorization
  | None => from_authorization
  end.

(** The lookup hash [dispatch] computes for a request that carries a key. *)
Definition lookup_hash_of (request : Request) : option string :=
  match _extract_api_key request with
  | Some api_key => Some (sha256_hex (strip api_key))
  | None => None
  end.

(** What [get] returned, unpacked: [Some None] for a missing key, [None]
    when [msgpack.unpackb] raises (on bytes it cannot read, and on a value
    that is not bytes). *)
Definition unpack_raw (raw : option InMemoryRedis.value)
  : option (option CachedApiKey) :=
  match raw with
  | None => Some None
  | Some (InMemoryRedis.VBytes b) =>
      match unpackb b with
      | Some c => Some (Some c)
      | None => None
      end
  | Some _ => None
  end.

(** [_cache_key]: the record is written under its own key hash, unless it
    has less than a second to live. *)
Definition _cache_key (now : Q) (cached : CachedApiKey)
    (data : gmap string InMemoryRedis.value)
  : gmap string InMemoryRedis.value :=
  match _cache_key_ttl now cached with
  | Some ttl_seconds =>
      snd (InMemoryRedis.set (auth_key (key_hash cached))
                             (InMemoryRedis.VBytes (packb cached))
                             (Some ttl_seconds) None false data)
  | None => data
  end.

(** [_authenticate_via_db]; [None] is the 401 of an invalid key. *)
Definition _authenticate_via_db (env : Env)
    (data : gmap string InMemoryRedis.value)
  : option (AuthenticatedPrincipal * gmap string InMemoryRedis.value) :=
  match authenticate (now_db env) (stored env) (bcrypt_valid env) with
  | None => None
  | Some entity =>
      Some (_principal_from_cached entity,
            _cache_key (now_cache_key env) entity data)
  end.

Definition dispatch (request : Request) (env : Env)
    (data : gmap string InMemoryRedis.value)
  : Response * gmap string InMemoryRedis.value :=
  if existsb (String.eqb (path request)) unauthenticated_paths then
    (CallNext, data)
  else
    match _extract_api_key request with
    | None => (Unauthorized "Missing API key", data)
    | Some api_key =>
        let api_key := strip api_key in
        let lookup_hash := sha256_hex api_key in
        let (raw, data) := InMemoryRedis.get (auth_key lookup_hash) data in
        match unpack_raw raw with
        | None => (UnpackError, data)
        | Some record =>
            let (cached, cache_hit) :=
              _get_cached_key (now_cached env) record in
            let authenticated :=
              match cached with
              | None => _authenticate_via_db env data
              | Some c => Some (_principal_from_cached c, data)
              end in
            match authenticated with
            | None => (Unauthorized "Invalid API key", data)
            | Some (principal, data) =>
                let client_ip :=
                  match client_host request with
                  | Some host => host
                  | None => "unknown"
                  end in
                let limit :=
                  rate_limit_per_minute (principal_permissions principal) in
                let (answer, data) :=
                  @_check_rate_limit _ (InMemoryRedis.client int_of_bytes)
                                     (now_rate_limit env) lookup_hash
                                     client_ip limit data in
                let '(allowed, remaining, reset_ts) := answer in
                if negb allowed then (TooManyRequests, data)
                else
                  (Forwarded principal client_ip cache_hit limit
                             (Z.max 0 remaining) reset_ts,
                   data)
            end
        end
    end.
End Dispatch.

End ApiKeyAuthMiddleware.

(* ===================================================================== *)
(** A request with a key, the library functions fixed to simple ones, and
    two surroundings: one whose database holds the key, and a later one
    whose database has dropped it. *)
Module MiddlewareExamples.
Import Auth ApiKeyAuthMiddleware.

Definition a_request : Request :=
  mkRequest "/v1/chat/completions" (Some "lkg_abcd") None (Some "10.0.0.1").
Definition the_hash (_ : string) : string := "9f86d081".
Definition the_strip (s : string) : string := s.
Definition the_packb (_ : CachedApiKey) : list Byte.byte := [].
Definition the_unpackb (_ : list Byte.byte) : option CachedApiKey :=
  Some Examples.cached_key.
Definition no_int (_ : list Byte.byte) : option Z := None.
Definition an_env : Env := mkEnv (Some Examples.cached_key) true 10 10 10 10.
Definition revoked : Env := mkEnv None false 20 20 20 20.
Definition warm : gmap string InMemoryRedis.value :=
  {[ auth_key "9f86d081" := InMemoryRedis.VBytes [] ]}.
End MiddlewareExamples.

(** * Properties *)
(* ===================================================================== *)

(** ** Clock readings *)

Lemma Qltb_lt (a b : Q) : Qltb a b = true <-> (a < b)%Q.
Proof.
  unfold Qltb. rewrite negb_true_iff. split.
  - intros Hb. apply Qnot_le_lt. intros Hle.
    apply Qle_bool_iff in Hle. congruence.
  - intros Hlt. destruct (Qle_bool b a) eqn:Hb; [|reflexivity].
    apply Qle_bool_iff in Hb. exfalso. exact (Qlt_not_le _ _ Hlt Hb).
Qed.

Lemma Qltb_ge (a b : Q) : Qltb a b = false <-> (b <= a)%Q.
Proof.
  unfold Qltb. rewrite negb_false_iff. apply Qle_bool_iff.
Qed.

(** ** The circuit breaker *)

Section BreakerFacts.
Import DomainRouter.

Lemma on_success_closed (cb : CircuitBreaker) :
  state (on_success cb) = CLOSED.
Proof. unfold on_success. destruct cb as [p th rt [] fc op]; reflexivity. Qed.

Lemma on_failure_count (now : Q) (cb : CircuitBreaker) :
  failure_count (on_failure now cb) = failure_count cb + 1.
Proof. unfold on_failure. destruct (_ <=? _); reflexivity. Qed.

Lemma on_failure_threshold (now : Q) (cb : CircuitBreaker) :
  failure_threshold (on_failure now cb) = failure_threshold cb.
Proof. unfold on_failure. destruct (_ <=? _); reflexivity. Qed.

Lemma on_failure_reset_timeout (now : Q) (cb : CircuitBreaker) :
  reset_timeout_s (on_failure now cb) = reset_timeout_s cb.
Proof. unfold on_failure. destruct (_ <=? _); reflexivity. Qed.

(** A failure that brings the count to the threshold opens the breaker and
    stamps it with the clock reading. *)
Lemma on_failure_opens (now : Q) (cb : CircuitBreaker) :
  failure_threshold cb <= failure_count cb + 1 ->
  state (on_failure now cb) = OPEN
  /\ opened_at_ts (on_failure now cb) = Some now.
Proof.
  intros Hth. unfold on_failure.
  destruct (Z.leb_spec (failure_threshold cb) (failure_count cb + 1));
    [split; reflexivity | lia].
Qed.

Lemma record_failures_snoc (ts : list Q) (t : Q) (cb : CircuitBreaker) :
  record_failures (ts ++ [t]) cb = on_failure t (record_failures ts cb).
Proof. unfold record_failures. rewrite fold_left_app. reflexivity. Qed.

Lemma record_failures_count (ts : list Q) (cb : CircuitBreaker) :
  failure_count (record_failures ts cb)
  = failure_count cb + Z.of_nat (length ts).
Proof.
  revert cb. induction ts as [|t ts IH]; intros cb; simpl.
  - lia.
  - unfold record_failures in IH. rewrite IH, on_failure_count. lia.
Qed.

Lemma record_failures_threshold (ts : list Q) (cb : CircuitBreaker) :
  failure_threshold (record_failures ts cb) = failure_threshold cb.
Proof.
  revert cb. induction ts as [|t ts IH]; intros cb; simpl; [reflexivity|].
  unfold record_failures in IH. rewrite IH. apply on_failure_threshold.
Qed.

Lemma record_failures_reset_timeout (ts : list Q) (cb : CircuitBreaker) :
  reset_timeout_s (record_failures ts cb) = reset_timeout_s cb.
Proof.
  revert cb. induction ts as [|t ts IH]; intros cb; simpl; [reflexivity|].
  unfold record_failures in IH. rewrite IH. apply on_failure_reset_timeout.
Qed.

(** After at least [failure_threshold] failures in a row the breaker is
    open, stamped with the time of the last of them. *)
Lemma record_failures_opens (ts : list Q) (d : Q) (cb : CircuitBreaker) :
  0 <= failure_count cb ->
  failure_threshold cb <= Z.of_nat (length ts) ->
  ts <> [] ->
  state (record_failures ts cb) = OPEN
  /\ opened_at_ts (record_failures ts cb) = Some (List.last ts d).
Proof.
  intros Hc Hth Hne.
  destruct (exists_last Hne) as (ts' & t & ->).
  rewrite record_failures_snoc, last_last.
  apply on_failure_opens.
  rewrite record_failures_threshold, record_failures_count.
  rewrite length_app in Hth. simpl in Hth. lia.
Qed.

(** An open breaker refuses as long as the reset timeout has not passed. *)
Lemma allow_request_open_denied (now opened : Q) (cb : CircuitBreaker) :
  state cb = OPEN -> opened_at_ts cb = Some opened ->
  (now - opened < inject_Z (reset_timeout_s cb))%Q ->
  allow_request now cb = Some (false, cb).
Proof.
  intros Hs Ho Hlt. unfold allow_request. rewrite Hs, Ho.
  destruct (Qle_bool _ _) eqn:Hb; [|reflexivity].
  apply Qle_bool_iff in Hb. exfalso. exact (Qlt_not_le _ _ Hlt Hb).
Qed.

(** Every breaker of the router has the default threshold and timeout, a
    count that is not negative, and an opening time whenever it is open: the
    assertion of [allow_request] never fails on it. *)
Lemma reachable_invariant (cb : CircuitBreaker) :
  reachable cb ->
  failure_threshold cb = 5 /\ reset_timeout_s cb = 60
  /\ 0 <= failure_count cb
  /\ (state cb = OPEN -> opened_at_ts cb <> None).
Proof.
  induction 1 as [p|cb _ IH|now cb _ IH|now cb cb' answer _ IH Hallow].
  - repeat split; simpl; [lia | discriminate].
  - destruct IH as (Hth & Hrt & Hc & Ho).
    unfold on_success. destruct (negb _) eqn:Hs; simpl.
    + repeat split; [assumption | assumption | lia | discriminate].
    + repeat split; assumption.
  - destruct IH as (Hth & Hrt & Hc & Ho).
    unfold on_failure. destruct (_ <=? _); simpl.
    + repeat split; [assumption | assumption | lia | discriminate].
    + repeat split; [assumption | assumption | lia | exact Ho].
  - destruct IH as (Hth & Hrt & Hc & Ho).
    unfold allow_request in Hallow.
    destruct (state cb) eqn:Hs.
    + injection Hallow as _ <-. rewrite Hs. repeat split; assumption.
    + destruct (opened_at_ts cb) as [opened|] eqn:Hop; [|discriminate].
      destruct (Qle_bool _ _).
      * injection Hallow as _ <-. simpl.
        repeat split; [assumption | assumption | assumption | discriminate].
      * injection Hallow as _ <-. rewrite Hs, Hop.
        repeat split; [assumption | assumption | assumption | discriminate].
    + injection Hallow as _ <-. rewrite Hs. repeat split; assumption.
Qed.

Lemma reachable_allow_request_answers (now : Q) (cb : CircuitBreaker) :
  reachable cb -> allow_request now cb <> None.
Proof.
  intros Hr. destruct (reachable_invariant cb Hr) as (_ & _ & _ & Ho).
  unfold allow_request. destruct (state cb); [discriminate| |discriminate].
  destruct (opened_at_ts cb); [|exfalso; apply Ho; reflexivity].
  destruct (Qle_bool _ _); discriminate.
Qed.
End BreakerFacts.

(** ** Python's [sorted] *)

Section SortedFacts.
Import Py.
Context {A : Type} (key : A -> Z).
Local Abbreviation ascending := (Py.ascending key).
Local Abbreviation descending := (Py.descending key).
Local Abbreviation of_key := (Py.of_key key).

Lemma insert_sorted_perm (x : A) (l : list A) :
  Permutation (Py.insert_sorted key x l) (x :: l).
Proof.
  induction l as [|y l IH]; simpl; [reflexivity|].
  destruct (key x <=? key y); [reflexivity|].
  rewrite IH. apply perm_swap.
Qed.

Lemma sort_stable_perm (l : list A) : Permutation (Py.sort_stable key l) l.
Proof.
  induction l as [|x l IH]; simpl; [reflexivity|].
  rewrite insert_sorted_perm. apply perm_skip, IH.
Qed.

Lemma insert_sorted_ascending (x : A) (l : list A) :
  ascending l -> ascending (Py.insert_sorted key x l).
Proof.
  unfold ascending. induction l as [|y l IH]; intros Hs; simpl.
  - constructor; [constructor | constructor].
  - inversion Hs as [|? ? Hl Hy]; subst.
    destruct (Z.leb_spec (key x) (key y)) as [Hle|Hgt].
    + constructor; [exact Hs|]. constructor; [exact Hle|].
      eapply List.Forall_impl; [|exact Hy]. simpl. intros; lia.
    + constructor; [apply IH, Hl|].
      eapply Permutation_Forall; [symmetry; apply insert_sorted_perm|].
      constructor; [lia | exact Hy].
Qed.

Lemma sort_stable_ascending (l : list A) : ascending (Py.sort_stable key l).
Proof.
  induction l as [|x l IH]; simpl; [constructor|].
  apply insert_sorted_ascending, IH.
Qed.

Lemma ascending_snoc (l : list A) (x : A) :
  descending l -> List.Forall (fun y => key x <= key y) l ->
  descending (l ++ [x]).
Proof.
  unfold descending. induction l as [|y l IH]; intros Hs Hx; simpl.
  - constructor; constructor.
  - inversion Hs as [|? ? Hl Hy]; subst.
    inversion Hx as [|? ? Hxy Hxl]; subst.
    constructor; [apply IH; assumption|].
    apply List.Forall_app. split; [exact Hy|].
    constructor; [exact Hxy | constructor].
Qed.

Lemma ascending_rev (l : list A) : ascending l -> descending (rev l).
Proof.
  unfold ascending. induction l as [|x l IH]; intros Hs; simpl.
  - constructor.
  - inversion Hs as [|? ? Hl Hx]; subst.
    apply ascending_snoc; [apply IH, Hl|].
    apply List.Forall_rev. exact Hx.
Qed.

(** The stable sort keeps the elements of one key in their order. *)
Lemma insert_sorted_of_key (p : Z) (x : A) (l : list A) :
  of_key p (Py.insert_sorted key x l) = of_key p (x :: l).
Proof.
  unfold of_key. induction l as [|y l IH]; simpl; [reflexivity|].
  destruct (Z.leb_spec (key x) (key y)) as [Hle|Hgt]; [reflexivity|].
  simpl. rewrite IH. simpl.
  destruct (Z.eqb_spec (key x) p) as [Hx|Hx];
    destruct (Z.eqb_spec (key y) p) as [Hy|Hy]; try reflexivity.
  lia.
Qed.

Lemma sort_stable_of_key (p : Z) (l : list A) :
  of_key p (Py.sort_stable key l) = of_key p l.
Proof.
  induction l as [|x l IH]; simpl; [reflexivity|].
  rewrite insert_sorted_of_key. unfold of_key in *. simpl. rewrite IH.
  reflexivity.
Qed.

(** [sorted(l, key=key, reverse=True)]: a rearrangement of [l], in descending
    order of the keys, the elements of one key in the order they had. *)
Lemma sorted_reverse_perm (l : list A) : Permutation (Py.sorted key l true) l.
Proof.
  unfold Py.sorted. rewrite <- Permutation_rev, sort_stable_perm.
  symmetry. apply Permutation_rev.
Qed.

Lemma sorted_reverse_descending (l : list A) :
  descending (Py.sorted key l true).
Proof. apply ascending_rev, sort_stable_ascending. Qed.

Lemma sorted_reverse_stable (p : Z) (l : list A) :
  of_key p (Py.sorted key l true) = of_key p l.
Proof.
  unfold Py.sorted, of_key. rewrite List.filter_rev.
  fold (of_key p (Py.sort_stable key (rev l))).
  rewrite sort_stable_of_key. unfold of_key.
  rewrite List.filter_rev. apply rev_involutive.
Qed.

(** [sorted(l, key=key)]: in ascending order of the keys. *)
Lemma sorted_perm (l : list A) : Permutation (Py.sorted key l false) l.
Proof. apply sort_stable_perm. Qed.

Lemma sorted_ascending (l : list A) : ascending (Py.sorted key l false).
Proof. apply sort_stable_ascending. Qed.

Lemma descending_filter (f : A -> bool) (l : list A) :
  descending l -> descending (List.filter f l).
Proof.
  unfold descending. induction l as [|x l IH]; intros Hs; simpl.
  - constructor.
  - inversion Hs as [|? ? Hl Hx]; subst.
    destruct (f x); [|apply IH, Hl].
    constructor; [apply IH, Hl|].
    apply List.Forall_forall. intros y Hy.
    apply List.filter_In in Hy as [Hy _].
    revert y Hy. apply List.Forall_forall. exact Hx.
Qed.
End SortedFacts.

(** ** Claims about the circuit breaker *)

(** C3, as stated, fails: a success on a closed breaker that has counted
    three failures leaves the count at three. *)
Lemma C3_on_success_closed_keeps_count :
  let cb :=
    DomainRouter.record_failures [1 # 1; 2 # 1; 3 # 1]%Q
                                 (DomainRouter.new "openai") in
  DomainRouter.state cb = DomainRouter.CLOSED
  /\ DomainRouter.failure_count cb = 3
  /\ ~ (DomainRouter.state (DomainRouter.on_success cb) = DomainRouter.CLOSED
        /\ DomainRouter.failure_count (DomainRouter.on_success cb) = 0).
Proof.
  cbv zeta. split; [reflexivity|]. split; [reflexivity|].
  intros [_ H]. vm_compute in H. discriminate H.
Qed.

(** C3, amended: [on_success] always leaves the breaker closed; it resets
    [failure_count] to 0 and clears [opened_at_ts] when the breaker was open
    or half-open, and it leaves a closed breaker as it is, with the failure
    count it had. *)
Theorem C3_on_success :
  forall cb : DomainRouter.CircuitBreaker,
    DomainRouter.state (DomainRouter.on_success cb) = DomainRouter.CLOSED
    /\ DomainRouter.failure_count (DomainRouter.on_success cb)
       = match DomainRouter.state cb with
         | DomainRouter.CLOSED => DomainRouter.failure_count cb
         | DomainRouter.OPEN | DomainRouter.HALF_OPEN => 0
         end
    /\ DomainRouter.opened_at_ts (DomainRouter.on_success cb)
       = match DomainRouter.state cb with
         | DomainRouter.CLOSED => DomainRouter.opened_at_ts cb
         | DomainRouter.OPEN | DomainRouter.HALF_OPEN => None
         end
    /\ DomainRouter.failure_threshold (DomainRouter.on_success cb)
       = DomainRouter.failure_threshold cb
    /\ DomainRouter.reset_timeout_s (DomainRouter.on_success cb)
       = DomainRouter.reset_timeout_s cb.
Proof.
  intros [p th rt s fc op]. unfold DomainRouter.on_success. simpl.
  destruct s; simpl; repeat split; reflexivity.
Qed.

(** ** The router's loop *)

Section RouterFacts.
Import DomainRouter Models Adapter ModelRouter.

Lemma frames_refl (P : string) (st : State) : frames P st st.
Proof.
  split; [reflexivity|]. exists []. split; [|constructor].
  symmetry. apply app_nil_r.
Qed.

Lemma frames_trans (P : string) (st1 st2 st3 : State) :
  frames P st1 st2 -> frames P st2 st3 -> frames P st1 st3.
Proof.
  intros [Hb1 (e1 & Hc1 & Hf1)] [Hb2 (e2 & Hc2 & Hf2)]. split.
  - congruence.
  - exists (e1 ++ e2)%list. split.
    + rewrite Hc2, Hc1. symmetry. apply app_assoc.
    + apply List.Forall_app. split; assumption.
Qed.

Lemma get_circuit_breaker_other (P p : string)
    (cbs : gmap string CircuitBreaker) :
  p <> P -> snd (_get_circuit_breaker p cbs) !! P = cbs !! P.
Proof.
  intros Hne. unfold _get_circuit_breaker.
  destruct (cbs !! p); simpl; [reflexivity|].
  apply lookup_insert_ne. exact Hne.
Qed.

(** A candidate of an open breaker whose timeout has not passed is skipped
    (or its provider is unknown to the factory): nothing changes. *)
Lemma attempt_denied env cache_key cache llm_request streaming chain i
    model_cfg st cb opened :
  _circuit_breakers st !! Models.provider model_cfg = Some cb ->
  state cb = OPEN -> opened_at_ts cb = Some opened ->
  (clock_allow env i - opened < inject_Z (reset_timeout_s cb))%Q ->
  attempt env cache_key cache llm_request streaming chain i model_cfg st
  = (match get_adapter (Models.provider model_cfg) with
     | Some _ => SContinue
     | None => SRaise UnknownProvider
     end, st).
Proof.
  intros Hcb Hs Ho Hlt. unfold attempt.
  destruct (get_adapter _); [|reflexivity].
  unfold _get_circuit_breaker. rewrite Hcb.
  rewrite (allow_request_open_denied _ opened) by assumption.
  rewrite insert_id by exact Hcb. destruct st; reflexivity.
Qed.

(** A candidate of another provider leaves the breaker of [P] alone and
    calls no model of [P]. *)
Lemma attempt_other P env cache_key cache llm_request streaming chain i
    model_cfg st :
  Models.provider model_cfg <> P ->
  frames P st
    (snd (attempt env cache_key cache llm_request streaming chain i
                  model_cfg st))
  /\ forall decision result,
       fst (attempt env cache_key cache llm_request streaming chain i
                    model_cfg st) = SReturn decision result ->
       decision_provider decision <> P.
Proof.
  intros Hne. unfold attempt.
  destruct (get_adapter _); [|split; [apply frames_refl | discriminate]].
  pose proof (get_circuit_breaker_other P _ (_circuit_breakers st) Hne) as Hg.
  destruct (_get_circuit_breaker _ _) as [cb cbs]. simpl in Hg.
  assert (Hins : forall c : CircuitBreaker,
             <[Models.provider model_cfg := c]> cbs !! P
             = _circuit_breakers st !! P).
  { intros c. rewrite lookup_insert_ne by exact Hne. exact Hg. }
  assert (Hnil : forall l : list (string * string), l = (l ++ [])%list).
  { intros l. symmetry. apply app_nil_r. }
  assert (Hone : List.Forall (fun c : string * string => fst c <> P)
                   [(Models.provider model_cfg, model_name model_cfg)]).
  { constructor; [exact Hne | constructor]. }
  destruct (allow_request _ _) as [[[] cb']|]; simpl.
  - destruct streaming; simpl.
    + split.
      * split; [apply Hins|]. exists []. split; [apply Hnil | constructor].
      * intros d r [= <- _]. exact Hne.
    + destruct (completion env i) as [result|exc|]; simpl.
      * destruct cache_key; [destruct (cache_set_raises env i)|]; simpl;
          (split;
           [ split; [apply Hins|]; eexists; split; [reflexivity | exact Hone]
           | first [discriminate | intros d r [= <- _]; exact Hne] ]).
      * split.
        -- split; [apply Hins|]. eexists; split; [reflexivity | exact Hone].
        -- destruct (fallback exc); discriminate.
      * split; [|discriminate].
        split; [apply Hins|]. eexists; split; [reflexivity | exact Hone].
  - split; [|discriminate].
    split; [apply Hins|]. exists []. split; [apply Hnil | constructor].
  - split; [|discriminate].
    split; [exact Hg|]. exists []. split; [apply Hnil | constructor].
Qed.

(** The loop never calls a provider whose breaker is open, as long as the
    clock stays inside the reset timeout. *)
Lemma candidates_skip_open P cb opened env cache_key cache llm_request
    streaming chain rest :
  state cb = OPEN -> opened_at_ts cb = Some opened ->
  (forall i, (clock_allow env i - opened < inject_Z (reset_timeout_s cb))%Q) ->
  forall i st,
    _circuit_breakers st !! P = Some cb ->
    frames P st
      (snd (candidates env cache_key cache llm_request streaming chain i
                       rest st))
    /\ forall decision result cached_,
         fst (candidates env cache_key cache llm_request streaming chain i
                         rest st) = Return decision result cached_ ->
         decision_provider decision <> P.
Proof.
  intros Hs Ho Hclock.
  induction rest as [|model_cfg rest IH]; intros i st Hcb;
    cbn [candidates].
  - split; [apply frames_refl | discriminate].
  - destruct (String.eqb_spec (Models.provider model_cfg) P) as [Heq|Hne].
    + subst P.
      rewrite (attempt_denied _ _ _ _ _ _ _ _ _ cb opened)
        by (try assumption; apply Hclock).
      destruct (get_adapter _).
      * apply IH. exact Hcb.
      * split; [apply frames_refl | discriminate].
    + destruct (attempt_other P env cache_key cache llm_request streaming
                              chain i model_cfg st Hne) as [Hfr Hret].
      destruct (attempt _ _ _ _ _ _ _ _ _) as [[d r| | |exc] st']; simpl in *.
      * split; [exact Hfr|]. intros d' r' c' [= <- _ _]. eapply Hret.
        reflexivity.
      * destruct (IH (S i) st') as [Hfr' Hret'].
        { destruct Hfr as [-> _]. exact Hcb. }
        split; [eapply frames_trans; eassumption | exact Hret'].
      * split; [exact Hfr | discriminate].
      * split; [exact Hfr | discriminate].
Qed.
End RouterFacts.

(** C9: once at least [failure_threshold] failures in a row have been
    recorded on the breaker of provider [P] (the threshold of a breaker the
    router creates is 5, its timeout 60 seconds), a request routed while the
    clock is still within the reset timeout of the last failure calls no
    model of [P] upstream: every candidate of [P] is skipped, the breaker of
    [P] stays as it is, and a decision the router still reaches names another
    provider; with no other candidate the request fails. *)
Theorem C9_open_breaker_denies_provider :
  forall (R : Type) (REG : Models.ModelRegistry R) (registry : R)
         (env : ModelRouter.Env) (llm_request : Adapter.LLMCompletionRequest)
         (cache : DomainRouter.RouterCacheOptions)
         (fallback_ : DomainRouter.RouterFallbackConfig) (streaming : bool)
         (st : ModelRouter.State) (P : string)
         (cb0 : DomainRouter.CircuitBreaker) (ts : list Q) (d : Q),
    0 < DomainRouter.failure_threshold cb0 ->
    0 <= DomainRouter.failure_count cb0 ->
    DomainRouter.failure_threshold cb0 <= Z.of_nat (length ts) ->
    ModelRouter._circuit_breakers st !! P
    = Some (DomainRouter.record_failures ts cb0) ->
    (forall i,
        (ModelRouter.clock_allow env i - List.last ts d
         < inject_Z (DomainRouter.reset_timeout_s cb0))%Q) ->
    ModelRouter.frames P st
      (snd (ModelRouter.chat_completion registry env llm_request cache
                                        fallback_ streaming st))
    /\ forall decision result,
         fst (ModelRouter.chat_completion registry env llm_request cache
                                          fallback_ streaming st)
         = ModelRouter.Return decision result None ->
         DomainRouter.decision_provider decision <> P.
Proof.
  intros R REG registry env llm_request cache fallback_ streaming st P cb0 ts
         d Hth Hc Hlen Hcb Hclock.
  assert (Hne : ts <> []) by (intros ->; simpl in Hlen; lia).
  destruct (record_failures_opens ts d cb0 Hc Hlen Hne) as [Hs Ho].
  unfold ModelRouter.chat_completion.
  destruct (if DomainRouter.cache_enabled cache && negb streaming
            then ModelRouter.cached env else None) as [payload|].
  { split; [apply frames_refl | discriminate]. }
  destruct (Models.get_model registry _) as [cfg|].
  2:{ split; [apply frames_refl | discriminate]. }
  set (st0 := ModelRouter.mkState _ _ _ None).
  assert (Hcb0 : ModelRouter._circuit_breakers st0 !! P
                 = Some (DomainRouter.record_failures ts cb0)) by exact Hcb.
  destruct (candidates_skip_open P _ (List.last ts d) env
              (DomainRouter.cache_enabled cache && negb streaming) cache
              llm_request streaming
              (ModelRouter.models_chain registry cfg fallback_)
              (ModelRouter.models_chain registry cfg fallback_)
              Hs Ho) with (i := 0%nat) (st := st0) as [Hfr Hret].
  { intros i. rewrite record_failures_reset_timeout. apply Hclock. }
  { exact Hcb0. }
  split.
  - destruct Hfr as [Hb Hcalls]. split; [exact Hb | exact Hcalls].
  - intros decision result Heq. eapply Hret. exact Heq.
Qed.

(** A worked case of C9: five requests in a row found the upstream of
    "openai" unavailable; the request made at second 30 calls nothing. *)
Lemma C9_open_breaker_denies_provider_witness :
  ModelRouter.frames "openai" Examples.after_five_failures
    (snd (ModelRouter.chat_completion
            Examples.memory_registry
            (Examples.env_at (30 # 1) (ModelRouter.Completed Examples.answer)
                             false)
            Examples.request Examples.no_cache Examples.no_fallback false
            Examples.after_five_failures))
  /\ forall decision result,
       fst (ModelRouter.chat_completion
              Examples.memory_registry
              (Examples.env_at (30 # 1)
                               (ModelRouter.Completed Examples.answer) false)
              Examples.request Examples.no_cache Examples.no_fallback false
              Examples.after_five_failures)
       = ModelRouter.Return decision result None ->
       DomainRouter.decision_provider decision <> "openai".
Proof.
  apply (C9_open_breaker_denies_provider
           _ _ Examples.memory_registry
           (Examples.env_at (30 # 1) (ModelRouter.Completed Examples.answer)
                            false)
           Examples.request Examples.no_cache Examples.no_fallback false
           Examples.after_five_failures "openai" (DomainRouter.new "openai")
           [1 # 1; 2 # 1; 3 # 1; 4 # 1; 5 # 1]%Q (0 # 1)%Q).
  - reflexivity.
  - discriminate.
  - discriminate.
  - vm_compute. reflexivity.
  - intros i. reflexivity.
Defined.

Example after_five_failures_sixth_fails :
  ModelRouter.chat_completion
    Examples.memory_registry
    (Examples.env_at (30 # 1) (ModelRouter.Completed Examples.answer) false)
    Examples.request Examples.no_cache Examples.no_fallback false
    Examples.after_five_failures
  = (ModelRouter.Raise (ModelRouter.AllProvidersFailed None),
     ModelRouter.mkState
       (ModelRouter._circuit_breakers Examples.after_five_failures)
       (ModelRouter.upstream_calls Examples.after_five_failures)
       [] None).
Proof. vm_compute. reflexivity. Qed.

(** ** Claims about the router *)

(** C1, as stated, fails: with fallback enabled and an empty list of model
    names, the chain of candidates holds the registry's fallbacks after the
    primary. *)
Lemma C1_empty_models_list_keeps_fallbacks :
  ModelRouter.models_chain Examples.redis_registry Examples.gpt_4o
                           (DomainRouter.mkFallback true [])
  = [Examples.gpt_4o; Examples.gpt_35; Examples.gpt_4o_mini; Examples.claude]
  /\ ModelRouter.models_chain Examples.redis_registry Examples.gpt_4o
                              (DomainRouter.mkFallback true [])
     <> [Examples.gpt_4o].
Proof.
  assert (H : ModelRouter.models_chain Examples.redis_registry Examples.gpt_4o
                (DomainRouter.mkFallback true [])
              = [Examples.gpt_4o; Examples.gpt_35; Examples.gpt_4o_mini;
                 Examples.claude]) by (vm_compute; reflexivity).
  split; [exact H|]. rewrite H. discriminate.
Qed.

(** C1, amended: with fallback enabled and an empty list of model names the
    list puts no restriction: a request that misses the cache and whose
    model resolves to [cfg] is routed over the chain made of [cfg] followed
    by the whole fallback chain the registry gives for it.  (The chain is
    the primary alone when fallback is not enabled.) *)
Theorem C1_empty_models_list_is_no_restriction :
  forall (R : Type) (REG : Models.ModelRegistry R) (registry : R)
         (env : ModelRouter.Env) (llm_request : Adapter.LLMCompletionRequest)
         (cache : DomainRouter.RouterCacheOptions) (streaming : bool)
         (st : ModelRouter.State) (cfg : Models.ModelConfig),
    (DomainRouter.cache_enabled cache && negb streaming = true ->
     ModelRouter.cached env = None) ->
    Models.get_model registry (Adapter.model llm_request) = Some cfg ->
    let chain :=
      cfg :: Models.get_fallback_chain registry (Models.full_name cfg) in
    ModelRouter.models_chain registry cfg (DomainRouter.mkFallback true [])
    = chain
    /\ ModelRouter.chat_completion registry env llm_request cache
         (DomainRouter.mkFallback true []) streaming st
       = ModelRouter.candidates env
           (DomainRouter.cache_enabled cache && negb streaming) cache
           llm_request streaming chain 0 chain
           (ModelRouter.mkState (ModelRouter._circuit_breakers st)
                                (ModelRouter.upstream_calls st)
                                (ModelRouter.cache_writes st) None)
    /\ forall models,
         ModelRouter.models_chain registry cfg
                                  (DomainRouter.mkFallback false models)
         = [cfg].
Proof.
  intros R REG registry env llm_request cache streaming st cfg Hmiss Hget
         chain.
  split; [reflexivity|]. split; [|reflexivity].
  unfold ModelRouter.chat_completion. rewrite Hget.
  destruct (DomainRouter.cache_enabled cache && negb streaming) eqn:Hkey.
  - rewrite (Hmiss eq_refl). reflexivity.
  - reflexivity.
Qed.

Lemma C1_empty_models_list_is_no_restriction_witness :
  ModelRouter.models_chain Examples.redis_registry Examples.gpt_4o
                           (DomainRouter.mkFallback true [])
  = Examples.gpt_4o
    :: Models.get_fallback_chain Examples.redis_registry
         (Models.full_name Examples.gpt_4o)
  /\ ModelRouter.chat_completion Examples.redis_registry
       (Examples.env_at (1 # 1) Examples.unavailable false) Examples.request
       Examples.no_cache (DomainRouter.mkFallback true []) true ModelRouter.init
     = ModelRouter.candidates
         (Examples.env_at (1 # 1) Examples.unavailable false)
         (DomainRouter.cache_enabled Examples.no_cache && negb true)
         Examples.no_cache Examples.request true
         (Examples.gpt_4o
          :: Models.get_fallback_chain Examples.redis_registry
               (Models.full_name Examples.gpt_4o))
         0
         (Examples.gpt_4o
          :: Models.get_fallback_chain Examples.redis_registry
               (Models.full_name Examples.gpt_4o))
         (ModelRouter.mkState
            (ModelRouter._circuit_breakers ModelRouter.init)
            (ModelRouter.upstream_calls ModelRouter.init)
            (ModelRouter.cache_writes ModelRouter.init) None)
  /\ forall models,
       ModelRouter.models_chain Examples.redis_registry Examples.gpt_4o
                                (DomainRouter.mkFallback false models)
       = [Examples.gpt_4o].
Proof.
  apply (C1_empty_models_list_is_no_restriction
           _ _ Examples.redis_registry
           (Examples.env_at (1 # 1) Examples.unavailable false)
           Examples.request Examples.no_cache true ModelRouter.init
           Examples.gpt_4o).
  - intros _. reflexivity.
  - vm_compute. reflexivity.
Defined.

(** In a streaming request the decision shows the chain: the fallbacks are
    all there although the list of names was empty. *)
Example empty_models_list_decision :
  fst (ModelRouter.chat_completion Examples.redis_registry
         (Examples.env_at (1 # 1) Examples.unavailable false)
         Examples.request Examples.no_cache
         (DomainRouter.mkFallback true []) true ModelRouter.init)
  = ModelRouter.Return
      (DomainRouter.mkDecision "openai" "gpt-4o" "gpt-4o" false
         ["gpt-3.5-turbo"; "gpt-4o-mini"; "claude-3-5-sonnet"])
      None None.
Proof. vm_compute. reflexivity. Qed.

(** C2, as stated, fails: the completion of the only candidate succeeds, the
    write to the response cache raises, and the request ends in "All provider
    candidates failed" with a failure counted on the provider's breaker. *)
Lemma C2_cache_write_failure_fails_request :
  let run :=
    ModelRouter.chat_completion Examples.memory_registry
      (Examples.env_at (1 # 1) (ModelRouter.Completed Examples.answer) true)
      Examples.request Examples.with_cache Examples.no_fallback false
      ModelRouter.init in
  fst run
  = ModelRouter.Raise
      (ModelRouter.AllProvidersFailed (Some ModelRouter.EException))
  /\ ModelRouter.upstream_calls (snd run) = [("openai", "gpt-4o")]
  /\ DomainRouter.failure_count <$> (ModelRouter._circuit_breakers (snd run)
                                !! "openai")
     = Some 1
  /\ ~ (exists decision,
          fst run = ModelRouter.Return decision (Some Examples.answer) None).
Proof.
  cbv zeta.
  assert (H : fst (ModelRouter.chat_completion Examples.memory_registry
                     (Examples.env_at (1 # 1)
                        (ModelRouter.Completed Examples.answer) true)
                     Examples.request Examples.with_cache
                     Examples.no_fallback false ModelRouter.init)
              = ModelRouter.Raise
                  (ModelRouter.AllProvidersFailed
                     (Some ModelRouter.EException)))
    by (vm_compute; reflexivity).
  split; [exact H|]. split; [vm_compute; reflexivity|].
  split; [vm_compute; reflexivity|].
  intros [decision Hd]. rewrite H in Hd. discriminate Hd.
Qed.

(** C2, amended: in a non-streaming request with a cache key, when the
    completion of a candidate succeeds and the write to the response cache
    raises, the router does not return that candidate's decision and result:
    the exception is handled as a failure of the candidate.  [on_failure] is
    recorded on the provider's breaker (after the [on_success]), the cache is
    left unwritten, and the router goes on with the next candidate; when the
    candidate was the last one the request fails with "All provider candidates
    failed". *)
Theorem C2_cache_write_failure_is_candidate_failure :
  forall (env : ModelRouter.Env) (cache : DomainRouter.RouterCacheOptions)
         (llm_request : Adapter.LLMCompletionRequest)
         (chain : list Models.ModelConfig) (i : nat)
         (model_cfg : Models.ModelConfig) (rest : list Models.ModelConfig)
         (st : ModelRouter.State) (cb : DomainRouter.CircuitBreaker)
         (result : Adapter.LLMCompletionResult),
    ModelRouter.get_adapter (Models.provider model_cfg) <> None ->
    DomainRouter.allow_request (ModelRouter.clock_allow env i)
      (fst (ModelRouter._get_circuit_breaker
              (Models.provider model_cfg) (ModelRouter._circuit_breakers st)))
    = Some (true, cb) ->
    ModelRouter.completion env i = ModelRouter.Completed result ->
    ModelRouter.cache_set_raises env i = true ->
    let failed :=
      DomainRouter.on_failure (ModelRouter.clock_failure env i)
                         (DomainRouter.on_success cb) in
    let st' :=
      ModelRouter.mkState
        (<[Models.provider model_cfg := failed]>
           (snd (ModelRouter._get_circuit_breaker
                   (Models.provider model_cfg)
                   (ModelRouter._circuit_breakers st))))
        (ModelRouter.upstream_calls st
           ++ [(Models.provider model_cfg, Models.model_name model_cfg)])%list
        (ModelRouter.cache_writes st)
        (Some ModelRouter.EException) in
    ModelRouter.candidates env true cache llm_request false chain i
                           (model_cfg :: rest) st
    = ModelRouter.candidates env true cache llm_request false chain (S i)
                             rest st'
    /\ DomainRouter.failure_count failed
       = DomainRouter.failure_count (DomainRouter.on_success cb) + 1
    /\ ModelRouter.candidates env true cache llm_request false chain i
                              [model_cfg] st
       = (ModelRouter.Raise
            (ModelRouter.AllProvidersFailed (Some ModelRouter.EException)),
          st').
Proof.
  intros env cache llm_request chain i model_cfg rest st cb result Hadapter
         Hallow Hdone Hraises failed st'.
  assert (Hstep :
            ModelRouter.attempt env true cache llm_request false chain i
                                model_cfg st
            = (ModelRouter.SContinue, st')).
  { unfold ModelRouter.attempt.
    destruct (ModelRouter.get_adapter _); [|congruence].
    destruct (ModelRouter._get_circuit_breaker _ _) as [cb0 cbs].
    simpl in Hallow. rewrite Hallow, Hdone, Hraises. reflexivity. }
  split; [|split].
  - cbn [ModelRouter.candidates]. rewrite Hstep. reflexivity.
  - apply on_failure_count.
  - cbn [ModelRouter.candidates]. rewrite Hstep. reflexivity.
Qed.

Lemma C2_cache_write_failure_is_candidate_failure_witness :
  let env :=
    Examples.env_at (1 # 1) (ModelRouter.Completed Examples.answer) true in
  let failed :=
    DomainRouter.on_failure
      (1 # 1) (DomainRouter.on_success (DomainRouter.new "openai")) in
  let st' :=
    ModelRouter.mkState
      (<["openai" := failed]>
         (snd (ModelRouter._get_circuit_breaker
                 "openai" (ModelRouter._circuit_breakers ModelRouter.init))))
      [("openai", "gpt-4o")] [] (Some ModelRouter.EException) in
  ModelRouter.candidates env true Examples.with_cache Examples.request false
                         [Examples.gpt_4o; Examples.gpt_4o_mini] 0
                         [Examples.gpt_4o; Examples.gpt_4o_mini]
                         ModelRouter.init
  = ModelRouter.candidates env true Examples.with_cache Examples.request
                           false [Examples.gpt_4o; Examples.gpt_4o_mini] 1
                           [Examples.gpt_4o_mini] st'
  /\ DomainRouter.failure_count failed
     = DomainRouter.failure_count
         (DomainRouter.on_success (DomainRouter.new "openai")) + 1
  /\ ModelRouter.candidates env true Examples.with_cache Examples.request
                            false [Examples.gpt_4o; Examples.gpt_4o_mini] 0
                            [Examples.gpt_4o] ModelRouter.init
     = (ModelRouter.Raise
          (ModelRouter.AllProvidersFailed (Some ModelRouter.EException)),
        st').
Proof.
  apply (C2_cache_write_failure_is_candidate_failure
           (Examples.env_at (1 # 1) (ModelRouter.Completed Examples.answer)
                            true)
           Examples.with_cache Examples.request
           [Examples.gpt_4o; Examples.gpt_4o_mini] 0 Examples.gpt_4o
           [Examples.gpt_4o_mini] ModelRouter.init (DomainRouter.new "openai")
           Examples.answer).
  - discriminate.
  - reflexivity.
  - reflexivity.
  - reflexivity.
Defined.

(** ** The retry loop of the adapter *)

Section AdapterFacts.
Import Adapter.

(** An answer that the adapter classifies as transient. *)
Lemma transient_is_retried request upstream :
  (forall attempt, Adapter.transient (upstream attempt) = true) ->
  fst (acompletion request upstream)
  = [Post 0; Sleep 1; Post 1; Sleep 2; Post 2]
  /\ exists e, snd (acompletion request upstream) = Raised e
               /\ retryable e = true.
Proof.
  intros Htr. unfold acompletion, attempts.
  pose proof (Htr 0) as H0. pose proof (Htr 1) as H1. pose proof (Htr 2) as H2.
  destruct (upstream 0) as [s0 b0|], (upstream 1) as [s1 b1|],
           (upstream 2) as [s2 b2|];
    simpl in H0, H1, H2; rewrite ?H0, ?H1, ?H2; simpl;
    (split; [reflexivity | eexists; split; reflexivity]).
Qed.

(** Whatever the upstream does, the adapter posts at most three times, to the
    same model, and sleeps [2^attempt] seconds after the attempts 0 and 1 that
    it does not end on. *)
Lemma acompletion_trace request upstream :
  let tr := fst (acompletion request upstream) in
  tr = [Post 0]
  \/ tr = [Post 0; Sleep (2 ^ 0); Post 1]
  \/ tr = [Post 0; Sleep (2 ^ 0); Post 1; Sleep (2 ^ 1); Post 2].
Proof.
  unfold acompletion, attempts.
  destruct (upstream 0) as [s0 b0|], (upstream 1) as [s1 b1|],
           (upstream 2) as [s2 b2|]; simpl;
    repeat match goal with
           | |- context [if ?c then _ else _] => destruct c; simpl
           | |- context [match ?b with Some _ => _ | None => _ end] =>
               destruct b as [[[? ?] ?]|]; simpl
           end; auto.
Qed.

(** A client error, which the adapter classifies [retryable=False], goes
    through the same handler: three posts, two sleeps, and then the error. *)
Lemma client_error_is_retried request upstream :
  (forall attempt, exists status body,
      upstream attempt = Response status body
      /\ 400 <= status < 500 /\ status <> 429) ->
  fst (acompletion request upstream)
  = [Post 0; Sleep 1; Post 1; Sleep 2; Post 2]
  /\ exists e, snd (acompletion request upstream) = Raised e
               /\ retryable e = false.
Proof.
  intros Hup. unfold acompletion, attempts.
  destruct (Hup 0) as (s0 & b0 & -> & Hr0 & Hn0).
  destruct (Hup 1) as (s1 & b1 & -> & Hr1 & Hn1).
  destruct (Hup 2) as (s2 & b2 & -> & Hr2 & Hn2).
  assert (Hclass : forall s, 400 <= s < 500 -> s <> 429 ->
                     (500 <=? s) || (s =? 429) = false /\ (400 <=? s) = true).
  { intros s Hr Hn. split.
    - apply orb_false_iff. split; [apply Z.leb_gt | apply Z.eqb_neq]; lia.
    - apply Z.leb_le. lia. }
  destruct (Hclass s0 Hr0 Hn0) as [-> ->].
  destruct (Hclass s1 Hr1 Hn1) as [-> ->].
  destruct (Hclass s2 Hr2 Hn2) as [-> ->].
  simpl. split; [reflexivity | eexists; split; reflexivity].
Qed.
End AdapterFacts.

(** C4: the adapter acts against the claim on an upstream that answers 400,
    an error it classifies [retryable=False]: it does not raise at once, it
    posts three times and sleeps 1 and 2 seconds in between, and only then
    raises the error. *)
Theorem C4_client_error_is_retried :
  Adapter.acompletion Examples.request (fun _ => Adapter.Response 400 None)
  = ([Adapter.Post 0; Adapter.Sleep 1; Adapter.Post 1; Adapter.Sleep 2;
      Adapter.Post 2],
     Adapter.Raised (Adapter.mkError "openai" "gpt-4o" false true (Some 400)))
  /\ Adapter.sleeps
       (fst (Adapter.acompletion Examples.request
                                 (fun _ => Adapter.Response 400 None)))
     <> [].
Proof. split; [vm_compute; reflexivity | vm_compute; discriminate]. Qed.

(** ** The registries *)

Section RegistryFacts.
Import Models.

Lemma filter_filter {A} (f g : A -> bool) (l : list A) :
  List.filter g (List.filter f l) = List.filter (fun x => f x && g x) l.
Proof.
  induction l as [|x l IH]; simpl; [reflexivity|].
  destruct (f x); simpl; [destruct (g x)|]; rewrite ?IH; reflexivity.
Qed.

Lemma filter_all {A} (f : A -> bool) (l : list A) :
  (forall x, f x = true) -> List.filter f l = l.
Proof.
  intros Hf. induction l as [|x l IH]; simpl; [reflexivity|].
  rewrite Hf, IH. reflexivity.
Qed.

(** The three filters of the in-memory [list_models] select the configs
    that match. *)
Lemma InMemory_list_models_matching self provider_ capability active_only :
  InMemoryModelRegistry.list_models self provider_ capability active_only
  = Py.sorted priority
      (List.filter
         (InMemoryModelRegistry.matches provider_ capability active_only)
         (Py.dict_values (InMemoryModelRegistry._models self)))
      true.
Proof.
  unfold InMemoryModelRegistry.list_models, InMemoryModelRegistry.matches.
  f_equal.
  set (l := Py.dict_values _).
  destruct active_only, provider_ as [p|], capability as [c|];
    try destruct (Py.truthy p);
    rewrite ?filter_filter;
    first [ apply List.filter_ext; intros m
          | symmetry; apply filter_all; intros m ];
    simpl; rewrite ?andb_assoc, ?andb_true_r; reflexivity.
Qed.

(** The in-memory fallback chain is what C5 says: active models of the
    failed model's provider, the failed model left out, by priority
    descending. *)
Lemma InMemory_get_fallback_chain_ok self failed_model base_model :
  InMemoryModelRegistry.get_model self failed_model = Some base_model ->
  List.Forall
    (fun m => is_active m = true
              /\ provider m = provider base_model
              /\ model_name m <> model_name base_model)
    (InMemoryModelRegistry.get_fallback_chain self failed_model)
  /\ Py.descending priority
       (InMemoryModelRegistry.get_fallback_chain self failed_model).
Proof.
  intros Hget. unfold InMemoryModelRegistry.get_fallback_chain.
  rewrite Hget. split.
  - apply List.Forall_forall. intros m Hm.
    apply List.filter_In in Hm as [Hin Htest].
    apply andb_true_iff in Htest as [Hp Hn].
    apply String.eqb_eq in Hp. apply negb_true_iff in Hn.
    apply String.eqb_neq in Hn.
    rewrite InMemory_list_models_matching in Hin.
    apply (Permutation_in _ (sorted_reverse_perm priority _)) in Hin.
    apply List.filter_In in Hin as [_ Hmatch].
    unfold InMemoryModelRegistry.matches in Hmatch. simpl in Hmatch.
    rewrite !andb_true_r in Hmatch. auto.
  - apply descending_filter.
    rewrite InMemory_list_models_matching. apply sorted_reverse_descending.
Qed.
End RegistryFacts.

(** C5: the registry kept in the key/value store acts against the claim.
    For the failed model "openai:gpt-4o", which resolves, its fallback chain
    holds a model of another provider and comes in ascending priority. *)
Theorem C5_redis_fallback_chain_other_provider_ascending :
  RedisModelRegistry.get_model Examples.redis_registry "openai:gpt-4o"
  = Some Examples.gpt_4o
  /\ RedisModelRegistry.get_fallback_chain Examples.redis_registry
                                           "openai:gpt-4o"
     = [Examples.gpt_35; Examples.gpt_4o_mini; Examples.claude]
  /\ ~ List.Forall
         (fun m => Models.provider m = Models.provider Examples.gpt_4o)
         (RedisModelRegistry.get_fallback_chain Examples.redis_registry
                                                "openai:gpt-4o")
  /\ ~ Py.descending Models.priority
         (RedisModelRegistry.get_fallback_chain Examples.redis_registry
                                                "openai:gpt-4o").
Proof.
  assert (H : RedisModelRegistry.get_fallback_chain Examples.redis_registry
                                                    "openai:gpt-4o"
              = [Examples.gpt_35; Examples.gpt_4o_mini; Examples.claude])
    by (vm_compute; reflexivity).
  split; [vm_compute; reflexivity|]. split; [exact H|]. rewrite H. split.
  - intros Hall. inversion Hall as [|? ? _ Hrest]; subst.
    inversion Hrest as [|? ? _ Hrest']; subst.
    inversion Hrest' as [|? ? Hc _]; subst. discriminate Hc.
  - intros Hdesc. inversion Hdesc as [|? ? _ Hfirst]; subst.
    inversion Hfirst as [|? ? Hle _]; subst. vm_compute in Hle.
    apply Hle. reflexivity.
Qed.

(** The in-memory registry on the same catalogue: models of "openai" only,
    by priority descending (each config is listed under its name and under
    its display name). *)
Example memory_fallback_chain :
  InMemoryModelRegistry.get_fallback_chain Examples.memory_registry "gpt-4o"
  = [Examples.gpt_4o_mini; Examples.gpt_4o_mini;
     Examples.gpt_35; Examples.gpt_35].
Proof. vm_compute. reflexivity. Qed.

(** C6, as stated, fails: two models of one priority come out in the order
    of the snapshot, "gemini" before "anthropic". *)
Lemma C6_ties_keep_snapshot_order :
  InMemoryModelRegistry.list_models Examples.tied_registry None None true
  = [Examples.gemini_flash; Examples.gemini_flash;
     Examples.claude; Examples.claude]
  /\ ~ StronglySorted Models.by_priority_then_provider
         (InMemoryModelRegistry.list_models Examples.tied_registry None None
                                            true).
Proof.
  assert (H : InMemoryModelRegistry.list_models Examples.tied_registry None
                                                None true
              = [Examples.gemini_flash; Examples.gemini_flash;
                 Examples.claude; Examples.claude])
    by (vm_compute; reflexivity).
  split; [exact H|]. rewrite H. intros Hs.
  inversion Hs as [|? ? _ Hfirst]; subst.
  inversion Hfirst as [|? ? _ Hrest]; subst.
  inversion Hrest as [|? ? Hord _]; subst.
  destruct Hord as [Hlt | [_ Hleb]].
  - vm_compute in Hlt. discriminate Hlt.
  - vm_compute in Hleb. discriminate Hleb.
Qed.

(** C6, amended: for every snapshot and every filter, [list_models] of the
    in-memory registry returns the configs that match the filter, sorted by
    priority descending; configs of equal priority keep the order they have
    in the snapshot. *)
Theorem C6_in_memory_list_models_sorted :
  forall (self : InMemoryModelRegistry.t) (provider_ : option string)
         (capability : option Models.ModelCapability) (active_only : bool),
    let matching :=
      List.filter
        (InMemoryModelRegistry.matches provider_ capability active_only)
        (Py.dict_values (InMemoryModelRegistry._models self)) in
    let result :=
      InMemoryModelRegistry.list_models self provider_ capability
                                        active_only in
    Permutation result matching
    /\ Py.descending Models.priority result
    /\ forall p : Z,
         Py.of_key Models.priority p result
         = Py.of_key Models.priority p matching.
Proof.
  intros self provider_ capability active_only matching result.
  subst result. rewrite InMemory_list_models_matching. fold matching.
  split; [apply sorted_reverse_perm|].
  split; [apply sorted_reverse_descending|].
  intros p. apply sorted_reverse_stable.
Qed.

(** ** Claims about the auth gate *)

(** C7: the rate-limit check, over any key/value client.  With [N] the value
    the increment returns and [L] the limit: the request is allowed exactly
    when [N <= L], so [N = L] is allowed and [N = L + 1] is denied; the
    remaining value is [max 0 (L - N)], which lies in [0, L] for a limit and
    a counter that are not negative, and which does not grow when the counter
    grows. *)
Theorem C7_rate_limit_decision :
  forall (S : Type) (client : KV.RedisClient S) (time : Q)
         (lookup_hash client_ip : string) (L : Z) (store : S),
    let N := fst (KV.incr (Auth.ratelimit_key lookup_hash client_ip) store) in
    let answer :=
      fst (Auth._check_rate_limit time lookup_hash client_ip L store) in
    let allowed := fst (fst answer) in
    let remaining := snd (fst answer) in
    (allowed = true <-> N <= L)
    /\ (N = L -> allowed = true)
    /\ (N = L + 1 -> allowed = false)
    /\ remaining = Z.max 0 (L - N)
    /\ (0 <= L -> 0 <= N -> 0 <= remaining <= L)
    /\ forall (time' : Q) (store' : S),
         N <= fst (KV.incr (Auth.ratelimit_key lookup_hash client_ip) store')
         -> snd (fst (fst (Auth._check_rate_limit time' lookup_hash client_ip
                                                  L store')))
            <= remaining.
Proof.
  intros S client time lookup_hash client_ip L store N answer allowed
         remaining.
  assert (Hshape : forall t s,
             fst (fst (fst (Auth._check_rate_limit t lookup_hash client_ip L
                                                   s)))
             = (fst (KV.incr (Auth.ratelimit_key lookup_hash client_ip) s)
                <=? L)
             /\ snd (fst (fst (Auth._check_rate_limit t lookup_hash client_ip
                                                      L s)))
                = Z.max 0 (L - fst (KV.incr (Auth.ratelimit_key lookup_hash
                                                                 client_ip)
                                            s))).
  { intros t s. unfold Auth._check_rate_limit.
    destruct (KV.incr _ s) as [current s1]. simpl.
    destruct (KV.ttl _ _) as [ttl_ s2]. simpl. split; reflexivity. }
  destruct (Hshape time store) as [Hallowed Hremaining].
  fold answer in Hallowed, Hremaining. fold N in Hallowed, Hremaining.
  fold allowed in Hallowed. fold remaining in Hremaining.
  rewrite Hallowed, Hremaining.
  repeat split.
  - apply Z.leb_le.
  - apply Z.leb_le.
  - intros ->. apply Z.leb_le. lia.
  - intros ->. apply Z.leb_gt. lia.
  - lia.
  - lia.
  - intros time' store' Hgrow.
    destruct (Hshape time' store') as [_ ->]. lia.
Qed.

Lemma C7_rate_limit_decision_witness :
  let client := InMemoryRedis.client (fun _ => None) in
  let store := <["lkg:ratelimit:abc:10.0.0.1" := InMemoryRedis.VInt 2]>
                 InMemoryRedis.empty in
  let answer :=
    fst (@Auth._check_rate_limit _ client (100 # 1) "abc" "10.0.0.1" 3
                                 store) in
  (fst (fst answer) = true <-> 3 <= 3)
  /\ (3 = 3 -> fst (fst answer) = true)
  /\ (3 = 3 + 1 -> fst (fst answer) = false)
  /\ snd (fst answer) = Z.max 0 (3 - 3)
  /\ (0 <= 3 -> 0 <= 3 -> 0 <= snd (fst answer) <= 3)
  /\ forall (time' : Q) (store' : gmap string InMemoryRedis.value),
       3 <= fst (@KV.incr _ client (Auth.ratelimit_key "abc" "10.0.0.1")
                          store')
       -> snd (fst (fst (@Auth._check_rate_limit _ client time' "abc"
                                                 "10.0.0.1" 3 store')))
          <= snd (fst answer).
Proof.
  exact (C7_rate_limit_decision
           _ (InMemoryRedis.client (fun _ => None)) (100 # 1) "abc"
           "10.0.0.1" 3
           (<["lkg:ratelimit:abc:10.0.0.1" := InMemoryRedis.VInt 2]>
              InMemoryRedis.empty)).
Defined.

(** C8, as stated, fails at the boundary: a cached record whose
    [expires_at_ts] equals the clock reading is a hit, and the principal is
    built from it. *)
Lemma C8_cached_key_at_boundary_is_hit :
  (100 # 1 <= 100 # 1)%Q
  /\ Auth.expires_at_ts Examples.cached_key = Some (100 # 1)%Q
  /\ Auth._get_cached_key (100 # 1) (Some Examples.cached_key)
     = (Some Examples.cached_key, true)
  /\ Auth.resolve_principal (100 # 1) (Some Examples.cached_key) None false
     = Some (Auth.FromCache, Auth._principal_from_cached Examples.cached_key)
  /\ ~ (fst (Auth._get_cached_key (100 # 1) (Some Examples.cached_key))
        = None).
Proof.
  split; [apply Qle_refl|]. split; [reflexivity|].
  split; [reflexivity|]. split; [reflexivity|]. discriminate.
Qed.

(** C8, amended: a cached record whose [expires_at_ts] is strictly less than
    the current time is treated as a miss, whatever time-to-live its entry
    has left: the record is not used and the principal can only come from the
    database.  A record with [expires_at_ts] equal to (or after) the current
    time is a hit and the principal is built from it. *)
Theorem C8_cached_key_expiry :
  forall (now e : Q) (cached_ : Auth.CachedApiKey)
         (stored : option Auth.CachedApiKey) (bcrypt_valid : bool),
    Auth.expires_at_ts cached_ = Some e ->
    ((e < now)%Q ->
     Auth._get_cached_key now (Some cached_) = (None, false)
     /\ Auth.resolve_principal now (Some cached_) stored bcrypt_valid
        = match Auth.authenticate now stored bcrypt_valid with
          | Some entity =>
              Some (Auth.FromDatabase, Auth._principal_from_cached entity)
          | None => None
          end)
    /\ ((now <= e)%Q ->
        Auth._get_cached_key now (Some cached_) = (Some cached_, true)
        /\ Auth.resolve_principal now (Some cached_) stored bcrypt_valid
           = Some (Auth.FromCache, Auth._principal_from_cached cached_)).
Proof.
  intros now e cached_ stored bcrypt_valid He. split.
  - intros Hlt. apply Qltb_lt in Hlt.
    unfold Auth.resolve_principal, Auth._get_cached_key.
    rewrite He, Hlt. split; reflexivity.
  - intros Hle. apply Qltb_ge in Hle.
    unfold Auth.resolve_principal, Auth._get_cached_key.
    rewrite He, Hle. split; reflexivity.
Qed.

Lemma C8_cached_key_expiry_witness :
  (Auth._get_cached_key (101 # 1) (Some Examples.cached_key) = (None, false)
   /\ Auth.resolve_principal (101 # 1) (Some Examples.cached_key) None false
      = None)
  /\ (Auth._get_cached_key (99 # 1) (Some Examples.cached_key)
      = (Some Examples.cached_key, true)
      /\ Auth.resolve_principal (99 # 1) (Some Examples.cached_key) None false
         = Some (Auth.FromCache,
                 Auth._principal_from_cached Examples.cached_key)).
Proof.
  split.
  - apply (C8_cached_key_expiry (101 # 1) (100 # 1) Examples.cached_key None
                                false eq_refl).
    reflexivity.
  - apply (C8_cached_key_expiry (99 # 1) (100 # 1) Examples.cached_key None
                                false eq_refl).
    discriminate.
Defined.

(** ** The in-process key/value store *)

Section InMemoryRedisFacts.
Import InMemoryRedis.
Variable int_of_bytes : list Byte.byte -> option Z.

Lemma counter_lookup key (data data' : gmap string value) :
  data' !! key = data !! key ->
  counter int_of_bytes key data' = counter int_of_bytes key data.
Proof. unfold counter. intros ->. reflexivity. Qed.

Lemma incr_counter key (data : gmap string value) :
  counter int_of_bytes key (snd (incr int_of_bytes key data))
  = counter int_of_bytes key data + 1.
Proof.
  unfold incr, counter at 1. simpl. rewrite lookup_insert_eq. reflexivity.
Qed.

Lemma delete_other key keys (data : gmap string value) :
  existsb (String.eqb key) keys = false ->
  snd (delete keys data) !! key = data !! key.
Proof.
  unfold delete. change (data !! key) with (snd (0, data) !! key).
  generalize (0, data).
  induction keys as [|k keys IH]; intros acc Hex; simpl in *; [reflexivity|].
  apply orb_false_iff in Hex as [Hk Hex]. apply String.eqb_neq in Hk.
  rewrite IH by exact Hex.
  destruct (bool_decide _); simpl; [|reflexivity].
  apply lookup_delete_ne. congruence.
Qed.

(** A call that neither sets nor deletes the key moves its counter by one
    when it is an increment of the key, and not at all otherwise. *)
Lemma call_counter key (c : Call) (data : gmap string value) :
  keeps key c = true ->
  counter int_of_bytes key (call int_of_bytes c data)
  = counter int_of_bytes key data + increments key [c].
Proof.
  intros Hkeep. destruct c as [k|k v ex px nx|k|k s|k|ks|k];
    unfold increments; simpl in *; rewrite ?Z.add_0_r; try reflexivity.
  - apply negb_true_iff, String.eqb_neq in Hkeep.
    apply counter_lookup. unfold set.
    destruct (nx && _); simpl; [reflexivity|].
    apply lookup_insert_ne. exact Hkeep.
  - destruct (String.eqb_spec k key) as [->|Hne]; simpl.
    + apply incr_counter.
    + rewrite Z.add_0_r. apply counter_lookup. unfold incr. simpl.
      apply lookup_insert_ne. exact Hne.
  - apply negb_true_iff in Hkeep. apply counter_lookup.
    apply delete_other. exact Hkeep.
Qed.

Lemma increments_app key (cs cs' : list Call) :
  increments key (cs ++ cs') = increments key cs + increments key cs'.
Proof. unfold increments. rewrite List.filter_app, length_app. lia. Qed.

Lemma increments_nonneg key (cs : list Call) : 0 <= increments key cs.
Proof. unfold increments. lia. Qed.

Lemma calls_counter key (cs : list Call) (data : gmap string value) :
  forallb (keeps key) cs = true ->
  counter int_of_bytes key (calls int_of_bytes cs data)
  = counter int_of_bytes key data + increments key cs.
Proof.
  unfold calls. revert data.
  induction cs as [|c cs IH]; intros data Hkeep; simpl in *.
  - unfold increments. simpl. lia.
  - apply andb_true_iff in Hkeep as [Hc Hcs].
    rewrite IH by exact Hcs.
    rewrite call_counter by exact Hc.
    change (c :: cs) with ([c] ++ cs)%list. rewrite increments_app. lia.
Qed.

(** None of the gateway's calls sets or deletes a rate-limit key. *)
Lemma gateway_call_keeps lookup_hash client_ip (c : Call) :
  Auth.gateway_call c ->
  keeps (Auth.ratelimit_key lookup_hash client_ip) c = true.
Proof.
  intros Hc. destruct Hc; simpl; try reflexivity.
Qed.

Lemma gateway_calls_keep lookup_hash client_ip (cs : list Call) :
  List.Forall Auth.gateway_call cs ->
  forallb (keeps (Auth.ratelimit_key lookup_hash client_ip)) cs = true.
Proof.
  intros Hcs. apply forallb_forall. intros c Hin.
  apply gateway_call_keeps.
  revert c Hin. apply List.Forall_forall. exact Hcs.
Qed.

(** The rate-limit check on the in-process store: what it answers and what
    it leaves in the store. *)
Lemma check_rate_limit_in_memory time lookup_hash client_ip limit
    (data : gmap string value) :
  let key := Auth.ratelimit_key lookup_hash client_ip in
  @Auth._check_rate_limit _ (client int_of_bytes) time lookup_hash client_ip
                          limit data
  = ((counter int_of_bytes key data + 1 <=? limit,
      Z.max 0 (limit - (counter int_of_bytes key data + 1)),
      Auth.py_int time + 60),
     call int_of_bytes (CIncr key) data).
Proof.
  unfold Auth._check_rate_limit. simpl.
  destruct (counter int_of_bytes _ data + 1 =? 1); reflexivity.
Qed.
End InMemoryRedisFacts.

(** C10: on the in-process store, [expire] changes nothing, [ttl] answers 60
    and [set] does not look at [ex] (nor at [px]), so nothing ever expires.
    As long as the rate-limit key of a pair is neither set nor deleted, its
    counter only grows, by one for each check of the pair; and once the
    counter has reached the limit, every later check of the pair is denied,
    whatever calls the gateway makes on the store in between and whatever the
    clock reads. *)
Theorem C10_in_memory_rate_limit_never_resets :
  forall (int_of_bytes : list Byte.byte -> option Z),
    (forall key seconds data,
        InMemoryRedis.expire key seconds data = (true, data))
    /\ (forall key data, InMemoryRedis.ttl key data = (60, data))
    /\ (forall key v ex px nx data,
           InMemoryRedis.set key v ex px nx data
           = InMemoryRedis.set key v None None nx data)
    /\ (forall key cs data,
           forallb (InMemoryRedis.keeps key) cs = true ->
           InMemoryRedis.counter int_of_bytes key
             (InMemoryRedis.calls int_of_bytes cs data)
           = InMemoryRedis.counter int_of_bytes key data
             + InMemoryRedis.increments key cs
           /\ InMemoryRedis.counter int_of_bytes key data
              <= InMemoryRedis.counter int_of_bytes key
                   (InMemoryRedis.calls int_of_bytes cs data))
    /\ (forall time lookup_hash client_ip limit data,
           InMemoryRedis.counter int_of_bytes
             (Auth.ratelimit_key lookup_hash client_ip)
             (snd (@Auth._check_rate_limit
                     _ (InMemoryRedis.client int_of_bytes) time lookup_hash
                     client_ip limit data))
           = InMemoryRedis.counter int_of_bytes
               (Auth.ratelimit_key lookup_hash client_ip) data + 1)
    /\ (forall time lookup_hash client_ip limit cs data,
           List.Forall Auth.gateway_call cs ->
           limit <= InMemoryRedis.counter int_of_bytes
                      (Auth.ratelimit_key lookup_hash client_ip) data ->
           fst (fst (fst (@Auth._check_rate_limit
                            _ (InMemoryRedis.client int_of_bytes) time
                            lookup_hash client_ip limit
                            (InMemoryRedis.calls int_of_bytes cs data))))
           = false).
Proof.
  intros int_of_bytes.
  split; [reflexivity|]. split; [reflexivity|]. split; [reflexivity|].
  split; [|split].
  - intros key cs data Hkeep.
    pose proof (calls_counter int_of_bytes key cs data Hkeep) as Heq.
    pose proof (increments_nonneg key cs). split; [exact Heq | lia].
  - intros time lookup_hash client_ip limit data.
    rewrite check_rate_limit_in_memory. cbn [snd].
    rewrite (call_counter int_of_bytes _ (InMemoryRedis.CIncr _) data
                          eq_refl).
    unfold InMemoryRedis.increments. simpl. rewrite String.eqb_refl.
    reflexivity.
  - intros time lookup_hash client_ip limit cs data Hcs Hfull.
    pose proof (gateway_calls_keep lookup_hash client_ip cs Hcs) as Hkeep.
    rewrite check_rate_limit_in_memory. cbn [fst].
    rewrite (calls_counter int_of_bytes _ cs data Hkeep).
    pose proof (increments_nonneg
                  (Auth.ratelimit_key lookup_hash client_ip) cs).
    apply Z.leb_gt. lia.
Qed.

(** A worked case of C10: limit 3, three checks made; after other traffic on
    the store, the check made eleven days later is still denied. *)
Lemma C10_in_memory_rate_limit_never_resets_witness :
  let key := Auth.ratelimit_key "9f86d081" "10.0.0.1" in
  let data :=
    InMemoryRedis.calls (fun _ => None)
      [InMemoryRedis.CIncr key; InMemoryRedis.CIncr key;
       InMemoryRedis.CIncr key] InMemoryRedis.empty in
  let cs :=
    [InMemoryRedis.CSet (Auth.auth_key "9f86d081")
                        (InMemoryRedis.VBytes []) (Some 300) None false;
     InMemoryRedis.CExpire key 60;
     InMemoryRedis.CGet (Auth.auth_key "9f86d081");
     InMemoryRedis.CIncr (Auth.ratelimit_key "9f86d081" "10.0.0.2")] in
  fst (fst (fst (@Auth._check_rate_limit
                   _ (InMemoryRedis.client (fun _ => None)) (1000000 # 1)
                   "9f86d081" "10.0.0.1" 3
                   (InMemoryRedis.calls (fun _ => None) cs data))))
  = false.
Proof.
  cbv zeta.
  destruct (C10_in_memory_rate_limit_never_resets (fun _ => None))
    as (_ & _ & _ & _ & _ & Hdenied).
  apply Hdenied.
  - repeat constructor.
  - vm_compute. discriminate.
Defined.

(** The same pair, four checks from the empty store, the fourth after eleven
    days: allowed, allowed, allowed, denied. *)
Example in_memory_fourth_request_denied :
  let check time data :=
    @Auth._check_rate_limit _ (InMemoryRedis.client (fun _ => None)) time
                            "9f86d081" "10.0.0.1" 3 data in
  let r1 := check (1 # 1)%Q InMemoryRedis.empty in
  let r2 := check (2 # 1)%Q (snd r1) in
  let r3 := check (3 # 1)%Q (snd r2) in
  let r4 := check (1000000 # 1)%Q (snd r3) in
  (fst r1, fst r2, fst r3, fst r4)
  = ((true, 2, 61), (true, 1, 62), (true, 0, 63), (false, 0, 1000060)).
Proof. vm_compute. reflexivity. Qed.

(* ===================================================================== *)
(** * Further properties *)
(* ===================================================================== *)

(** ** More on the circuit breaker *)

Section BreakerLifeFacts.
Import DomainRouter BreakerLife.

Local Ltac settle :=
  repeat split;
  first [assumption | lia | discriminate | tauto | congruence].

(** The states of a breaker the router can hold. *)
Lemma reachable_states (cb : CircuitBreaker) :
  reachable cb ->
  failure_threshold cb = 5 /\ reset_timeout_s cb = 60
  /\ match state cb with
     | CLOSED => 0 <= failure_count cb < 5 /\ opened_at_ts cb = None
     | OPEN | HALF_OPEN => 5 <= failure_count cb /\ opened_at_ts cb <> None
     end.
Proof.
  induction 1 as [p|cb _ IH|now cb _ IH|now cb cb' answer _ IH Hallow].
  - simpl. repeat split; lia.
  - destruct IH as (Hth & Hrt & Hst). unfold on_success.
    destruct (state cb) eqn:Hs; simpl; rewrite ?Hs; settle.
  - destruct IH as (Hth & Hrt & Hst). unfold on_failure. rewrite Hth.
    destruct (Z.leb_spec 5 (failure_count cb + 1)); simpl.
    + settle.
    + destruct (state cb); settle.
  - destruct IH as (Hth & Hrt & Hst). unfold allow_request in Hallow.
    destruct (state cb) eqn:Hs.
    + injection Hallow as _ <-. rewrite Hs. settle.
    + destruct (opened_at_ts cb) as [opened|] eqn:Hop; [|discriminate].
      destruct (Qle_bool _ _); injection Hallow as _ <-; simpl;
        rewrite ?Hs, ?Hop; settle.
    + injection Hallow as _ <-. rewrite Hs. settle.
Qed.

(** X1: a breaker the router can hold keeps the default threshold and
    timeout; while closed it has counted fewer failures than the threshold
    and has no opening time; while open or half-open it has counted at least
    the threshold and has an opening time.  So [allow_request] never fails
    its assertion on it. *)
Theorem breaker_states_of_reachable :
  forall cb : CircuitBreaker,
    reachable cb ->
    failure_threshold cb = 5 /\ reset_timeout_s cb = 60
    /\ match state cb with
       | CLOSED => 0 <= failure_count cb < 5 /\ opened_at_ts cb = None
       | OPEN | HALF_OPEN =>
           5 <= failure_count cb /\ opened_at_ts cb <> None
       end
    /\ forall now, allow_request now cb <> None.
Proof.
  intros cb Hr. destruct (reachable_states cb Hr) as (Hth & Hrt & Hst).
  split; [assumption|]. split; [assumption|]. split; [assumption|].
  intros now. apply reachable_allow_request_answers. exact Hr.
Qed.

Lemma breaker_states_of_reachable_witness :
  let cb :=
    record_failures [1 # 1; 2 # 1; 3 # 1; 4 # 1; 5 # 1]%Q (new "openai") in
  failure_threshold cb = 5 /\ reset_timeout_s cb = 60
  /\ match state cb with
     | CLOSED => 0 <= failure_count cb < 5 /\ opened_at_ts cb = None
     | OPEN | HALF_OPEN => 5 <= failure_count cb /\ opened_at_ts cb <> None
     end
  /\ forall now, allow_request now cb <> None.
Proof.
  apply (breaker_states_of_reachable
           (record_failures [1 # 1; 2 # 1; 3 # 1; 4 # 1; 5 # 1]%Q
                            (new "openai"))).
  unfold record_failures. simpl.
  repeat apply reach_failure. apply reach_new.
Defined.

(** X2: the way back from open.  Once the reset timeout has passed since a
    reachable breaker opened, [allow_request] lets the request through and
    leaves the breaker half-open.  Half-open, it lets every further request
    through as well, at any time; a failure opens it again with the time of
    that failure, and a success closes it with the count back at 0. *)
Theorem breaker_half_open_trial :
  forall (cb : CircuitBreaker) (opened now : Q),
    reachable cb ->
    state cb = OPEN ->
    opened_at_ts cb = Some opened ->
    (inject_Z (reset_timeout_s cb) <= now - opened)%Q ->
    exists trial,
      allow_request now cb = Some (true, trial)
      /\ state trial = HALF_OPEN
      /\ (forall later, allow_request later trial = Some (true, trial))
      /\ (forall later,
             state (on_failure later trial) = OPEN
             /\ opened_at_ts (on_failure later trial) = Some later)
      /\ state (on_success trial) = CLOSED
      /\ failure_count (on_success trial) = 0
      /\ opened_at_ts (on_success trial) = None.
Proof.
  intros cb opened now Hr Hs Ho Hpast.
  destruct (reachable_states cb Hr) as (Hth & _ & Hst).
  rewrite Hs in Hst. destruct Hst as [Hcount _].
  apply Qle_bool_iff in Hpast.
  eexists. split.
  { unfold allow_request. rewrite Hs, Ho, Hpast. reflexivity. }
  split; [reflexivity|]. split; [reflexivity|]. split.
  - intros later. unfold on_failure. simpl. rewrite Hth.
    destruct (Z.leb_spec 5 (failure_count cb + 1)); [split; reflexivity|lia].
  - repeat split.
Qed.

Lemma breaker_half_open_trial_witness :
  let cb :=
    record_failures [1 # 1; 2 # 1; 3 # 1; 4 # 1; 5 # 1]%Q (new "openai") in
  exists trial,
    allow_request (66 # 1) cb = Some (true, trial)
    /\ state trial = HALF_OPEN
    /\ (forall later, allow_request later trial = Some (true, trial))
    /\ (forall later,
           state (on_failure later trial) = OPEN
           /\ opened_at_ts (on_failure later trial) = Some later)
    /\ state (on_success trial) = CLOSED
    /\ failure_count (on_success trial) = 0
    /\ opened_at_ts (on_success trial) = None.
Proof.
  apply (breaker_half_open_trial
           (record_failures [1 # 1; 2 # 1; 3 # 1; 4 # 1; 5 # 1]%Q
                            (new "openai"))
           (5 # 1) (66 # 1)).
  - unfold record_failures. simpl. repeat apply reach_failure.
    apply reach_new.
  - reflexivity.
  - reflexivity.
  - discriminate.
Defined.

Lemma step_closed (cb : CircuitBreaker) (e : Event) :
  state cb = CLOSED ->
  failure_count cb + failures [e] < failure_threshold cb ->
  state (step cb e) = CLOSED
  /\ failure_count (step cb e) = failure_count cb + failures [e]
  /\ failure_threshold (step cb e) = failure_threshold cb.
Proof.
  intros Hs Hlt. destruct e as [|now|now]; unfold failures in *; simpl in *.
  - unfold on_success. rewrite Hs. simpl. rewrite ?Hs. settle.
  - unfold on_failure.
    destruct (Z.leb_spec (failure_threshold cb) (failure_count cb + 1));
      [lia|]. simpl. settle.
  - unfold allow_request. rewrite Hs. rewrite ?Hs. settle.
Qed.

Lemma failures_cons (e : Event) (events : list Event) :
  failures (e :: events) = failures [e] + failures events.
Proof. unfold failures. simpl. destruct e; simpl; lia. Qed.

Lemma failures_nonneg (events : list Event) : 0 <= failures events.
Proof. unfold failures. lia. Qed.

(** X3: a closed breaker counts every failure, whatever comes in between: a
    success or an [allow_request] on a closed breaker resets nothing.  As
    long as the failures stay below the threshold the breaker stays closed
    with all of them counted, and the failure that reaches the threshold
    opens it with the time of that failure, also when successes came
    between the failures. *)
Theorem breaker_closed_counts_all_failures :
  forall (cb : CircuitBreaker) (events : list Event),
    state cb = CLOSED ->
    failure_count cb + failures events < failure_threshold cb ->
    state (run events cb) = CLOSED
    /\ failure_count (run events cb) = failure_count cb + failures events
    /\ forall now,
         failure_count cb + failures events + 1 = failure_threshold cb ->
         state (on_failure now (run events cb)) = OPEN
         /\ opened_at_ts (on_failure now (run events cb)) = Some now.
Proof.
  intros cb events. revert cb.
  assert (Hrun : forall events cb,
             state cb = CLOSED ->
             failure_count cb + failures events < failure_threshold cb ->
             state (run events cb) = CLOSED
             /\ failure_count (run events cb)
                = failure_count cb + failures events
             /\ failure_threshold (run events cb) = failure_threshold cb).
  { clear events. induction events as [|e events IH]; intros cb Hs Hlt.
    - unfold failures. simpl. settle.
    - rewrite failures_cons in Hlt.
      pose proof (failures_nonneg events) as Hn.
      destruct (step_closed cb e Hs) as (Hs' & Hc' & Hth'); [lia|].
      destruct (IH (step cb e) Hs') as (Hs2 & Hc2 & Hth2).
      { rewrite Hc', Hth'. lia. }
      unfold run in *. simpl. rewrite failures_cons. settle. }
  intros cb Hs Hlt. destruct (Hrun events cb Hs Hlt) as (Hs' & Hc' & Hth').
  split; [assumption|]. split; [assumption|].
  intros now Hreach. apply on_failure_opens. lia.
Qed.

Lemma breaker_closed_counts_all_failures_witness :
  let events :=
    [Failure (1 # 1); Success; Failure (2 # 1); Allow (3 # 1); Success;
     Failure (4 # 1); Success; Failure (5 # 1); Success] in
  state (run events (new "openai")) = CLOSED
  /\ failure_count (run events (new "openai"))
     = failure_count (new "openai") + failures events
  /\ forall now,
       failure_count (new "openai") + failures events + 1
       = failure_threshold (new "openai") ->
       state (on_failure now (run events (new "openai"))) = OPEN
       /\ opened_at_ts (on_failure now (run events (new "openai")))
          = Some now.
Proof.
  apply (breaker_closed_counts_all_failures
           (new "openai")
           [Failure (1 # 1); Success; Failure (2 # 1); Allow (3 # 1); Success;
            Failure (4 # 1); Success; Failure (5 # 1); Success]).
  - reflexivity.
  - reflexivity.
Defined.
End BreakerLifeFacts.

(** ** More on the router *)

Section RouterViewFacts.
Import DomainRouter Models Adapter ModelRouter RouterView.

(** The cases of the loop body, one goal for each way through it. *)
Local Ltac attempt_cases env cache_key streaming i :=
  unfold attempt;
  destruct (get_adapter _) as [adapter_|]; simpl;
  [ destruct (_get_circuit_breaker _ _) as [cb0 cbs] eqn:Hget;
    destruct (allow_request _ cb0) as [[[] cb1]|] eqn:Hallow; simpl;
    [ destruct streaming; simpl;
      [ | destruct (completion env i) as [result|exc|] eqn:Hdone; simpl;
          [ destruct cache_key; simpl;
            [ destruct (cache_set_raises env i) eqn:Hset; simpl | ]
          | destruct (fallback exc) eqn:Hfb; simpl
          | ] ]
    | | ]
  | ].

Lemma get_circuit_breaker_reachable p st cb cbs :
  breakers_reachable st ->
  _get_circuit_breaker p (_circuit_breakers st) = (cb, cbs) ->
  reachable cb
  /\ forall q c, cbs !! q = Some c -> reachable c.
Proof.
  intros Hall. unfold _get_circuit_breaker.
  destruct (_circuit_breakers st !! p) as [c|] eqn:Hp; intros [= <- <-].
  - split; [eapply Hall; eassumption | exact Hall].
  - split; [apply reach_new|]. intros q c Hq.
    destruct (String.eqb_spec p q) as [->|Hne].
    + rewrite lookup_insert_eq in Hq. injection Hq as <-. apply reach_new.
    + rewrite lookup_insert_ne in Hq by exact Hne. eapply Hall; eassumption.
Qed.

Lemma insert_reachable p (c : CircuitBreaker)
    (cbs : gmap string CircuitBreaker) :
  reachable c ->
  (forall q c', cbs !! q = Some c' -> reachable c') ->
  forall q c', <[p := c]> cbs !! q = Some c' -> reachable c'.
Proof.
  intros Hc Hall q c' Hq.
  destruct (String.eqb_spec p q) as [->|Hne].
  - rewrite lookup_insert_eq in Hq. injection Hq as <-. exact Hc.
  - rewrite lookup_insert_ne in Hq by exact Hne. eapply Hall; eassumption.
Qed.

Lemma attempt_reachable env cache_key cache llm_request streaming chain i
    model_cfg st :
  breakers_reachable st ->
  breakers_reachable
    (snd (attempt env cache_key cache llm_request streaming chain i
                  model_cfg st))
  /\ fst (attempt env cache_key cache llm_request streaming chain i
                  model_cfg st) <> SRaise BreakerAssertion.
Proof.
  intros Hall.
  pose proof (fun cb cbs =>
                get_circuit_breaker_reachable (Models.provider model_cfg)
                                              st cb cbs Hall) as Hfresh.
  attempt_cases env cache_key streaming i;
    try (split; [exact Hall | discriminate]);
    destruct (Hfresh _ _ eq_refl) as [Hcb0 Hcbs];
    try (pose proof (reach_allow _ _ _ _ Hcb0 Hallow) as Hcb1);
    try (split; [|discriminate]; unfold breakers_reachable; simpl;
         apply insert_reachable;
         [ repeat first [ assumption | apply reach_failure
                        | apply reach_success ]
         | exact Hcbs ]).
  exfalso.
  exact (reachable_allow_request_answers _ cb0 Hcb0 Hallow).
Qed.

Lemma candidates_reachable env cache_key cache llm_request streaming chain
    rest :
  forall i st,
    breakers_reachable st ->
    breakers_reachable
      (snd (candidates env cache_key cache llm_request streaming chain i
                       rest st))
    /\ fst (candidates env cache_key cache llm_request streaming chain i
                       rest st) <> Raise BreakerAssertion.
Proof.
  induction rest as [|model_cfg rest IH]; intros i st Hall;
    cbn [candidates].
  - split; [exact Hall | discriminate].
  - destruct (attempt_reachable env cache_key cache llm_request streaming
                                chain i model_cfg st Hall) as [Hall' Hno].
    destruct (attempt _ _ _ _ _ _ _ _ _) as [[d r| | |exc] st']; simpl in *.
    + split; [exact Hall' | discriminate].
    + apply IH. exact Hall'.
    + split; [exact Hall' | discriminate].
    + split; [exact Hall'|]. intros [= ->]. apply Hno. reflexivity.
Qed.

(** X4: the router keeps its breakers well formed.  If every breaker it
    holds is one it can have built, the same is true after [chat_completion],
    and the call never ends in the assertion error of [allow_request]. *)
Theorem router_keeps_breakers_reachable :
  forall (R : Type) (REG : ModelRegistry R) (registry : R) (env : Env)
         (llm_request : LLMCompletionRequest) (cache : RouterCacheOptions)
         (fallback_ : RouterFallbackConfig) (streaming : bool) (st : State),
    breakers_reachable st ->
    breakers_reachable
      (snd (chat_completion registry env llm_request cache fallback_
                            streaming st))
    /\ fst (chat_completion registry env llm_request cache fallback_
                            streaming st) <> Raise BreakerAssertion.
Proof.
  intros R REG registry env llm_request cache fallback_ streaming st Hall.
  unfold chat_completion.
  destruct (if cache_enabled cache && negb streaming
            then cached env else None) as [payload|].
  { split; [exact Hall | discriminate]. }
  destruct (get_model registry _) as [cfg|].
  2:{ split; [exact Hall | discriminate]. }
  apply candidates_reachable. exact Hall.
Qed.

Lemma router_keeps_breakers_reachable_witness :
  breakers_reachable
    (snd (chat_completion Examples.memory_registry
            (Examples.env_at (1 # 1) Examples.unavailable false)
            Examples.request Examples.no_cache Examples.no_fallback false
            init))
  /\ fst (chat_completion Examples.memory_registry
            (Examples.env_at (1 # 1) Examples.unavailable false)
            Examples.request Examples.no_cache Examples.no_fallback false
            init)
     <> Raise BreakerAssertion.
Proof.
  apply (router_keeps_breakers_reachable
           _ _ Examples.memory_registry
           (Examples.env_at (1 # 1) Examples.unavailable false)
           Examples.request Examples.no_cache Examples.no_fallback false
           init).
  intros p cb Hp. vm_compute in Hp. discriminate Hp.
Defined.

(** What one candidate adds to the upstream calls and to the cache writes,
    by the way the loop body ends. *)
Lemma attempt_effects env cache_key cache llm_request streaming chain i
    model_cfg st :
  exists extra w,
    upstream_calls
      (snd (attempt env cache_key cache llm_request streaming chain i
                    model_cfg st))
    = (upstream_calls st ++ extra)%list
    /\ cache_writes
         (snd (attempt env cache_key cache llm_request streaming chain i
                       model_cfg st))
       = (cache_writes st ++ w)%list
    /\ (extra = [] \/ extra = [call_of model_cfg])
    /\ (streaming = true -> extra = [])
    /\ match fst (attempt env cache_key cache llm_request streaming chain i
                          model_cfg st) with
       | SReturn d (Some r) =>
           streaming = false /\ extra = [call_of model_cfg]
           /\ d = decide_for llm_request chain model_cfg
           /\ w = (if cache_key
                   then [(payload_of r, ttl_seconds cache)] else [])
       | SReturn d None =>
           streaming = true /\ w = []
           /\ d = decide_for llm_request chain model_cfg
       | _ => w = []
       end.
Proof.
  assert (Hnil : forall {A} (l : list A), l = (l ++ [])%list)
    by (intros A l; symmetry; apply app_nil_r).
  attempt_cases env cache_key streaming i;
    first
      [ exists [], []; repeat split;
        solve [reflexivity | discriminate | auto]
      | exists [call_of model_cfg], []; repeat split;
        solve [reflexivity | discriminate | auto]
      | eexists [call_of model_cfg], _; repeat split;
        solve [reflexivity | discriminate | auto] ].
Qed.

(** The same for the whole loop: the upstream calls follow the candidates
    in order, at most one for each, and a decision with a result names the
    model called last; the cache is written once, with that result, and only
    then. *)
Lemma candidates_effects env cache_key cache llm_request streaming chain
    rest :
  forall i st,
  exists extra w,
    upstream_calls
      (snd (candidates env cache_key cache llm_request streaming chain i
                       rest st))
    = (upstream_calls st ++ extra)%list
    /\ cache_writes
         (snd (candidates env cache_key cache llm_request streaming chain i
                          rest st))
       = (cache_writes st ++ w)%list
    /\ sublist extra (map call_of rest)
    /\ (streaming = true -> extra = [])
    /\ match fst (candidates env cache_key cache llm_request streaming chain
                             i rest st) with
       | Return d (Some r) c =>
           c = None /\ streaming = false
           /\ last extra = Some (decision_provider d, provider_model d)
           /\ w = (if cache_key
                   then [(payload_of r, ttl_seconds cache)] else [])
           /\ exists m, In m rest /\ d = decide_for llm_request chain m
       | Return d None c =>
           c = None /\ streaming = true /\ w = []
           /\ exists m, In m rest /\ d = decide_for llm_request chain m
       | Raise _ => w = []
       end.
Proof.
  induction rest as [|model_cfg rest IH]; intros i st; cbn [candidates].
  - exists [], []. simpl. rewrite !app_nil_r.
    repeat split; solve [auto | constructor].
  - destruct (attempt_effects env cache_key cache llm_request streaming
                              chain i model_cfg st)
      as (e1 & w1 & Hc1 & Hw1 & Hshape & Hstream & Hstep).
    destruct (attempt _ _ _ _ _ _ _ _ _) as [[d r| | |exc] st'];
      simpl in Hc1, Hw1, Hstep; simpl.
    + exists e1, w1. split; [exact Hc1|]. split; [exact Hw1|].
      split.
      { destruct Hshape as [->| ->];
          [apply sublist_nil_l | apply sublist_skip, sublist_nil_l]. }
      split; [exact Hstream|].
      destruct r as [r|].
      * destruct Hstep as (Hs & -> & -> & ->).
        repeat split; auto. exists model_cfg. split; [left|]; reflexivity.
      * destruct Hstep as (Hs & -> & ->).
        repeat split; auto. exists model_cfg. split; [left|]; reflexivity.
    + subst w1.
      destruct (IH (S i) st') as (e2 & w2 & Hc2 & Hw2 & Hsub & Hstream2 & Hout).
      exists (e1 ++ e2)%list, w2.
      split; [rewrite Hc2, Hc1; symmetry; apply app_assoc|].
      split; [rewrite Hw2, Hw1, app_nil_r; reflexivity|].
      split.
      { destruct Hshape as [->| ->]; simpl;
          [apply sublist_cons | apply sublist_skip]; exact Hsub. }
      split.
      { intros Hs. rewrite (Hstream Hs), (Hstream2 Hs). reflexivity. }
      destruct (fst (candidates _ _ _ _ _ _ _ _ _)) as [d [r|] c|exc].
      * destruct Hout as (Hc & Hs & Hlast & Hw & m & Hin & Hd).
        repeat split; auto.
        -- rewrite last_app, Hlast. reflexivity.
        -- exists m. split; [right; exact Hin | exact Hd].
      * destruct Hout as (Hc & Hs & Hw & m & Hin & Hd).
        repeat split; auto.
        exists m. split; [right; exact Hin | exact Hd].
      * exact Hout.
    + subst w1. exists e1, []. split; [exact Hc1|].
      split; [exact Hw1|]. split.
      { destruct Hshape as [->| ->];
          [apply sublist_nil_l | apply sublist_skip, sublist_nil_l]. }
      split; [exact Hstream | reflexivity].
    + subst w1. exists e1, []. split; [exact Hc1|].
      split; [exact Hw1|]. split.
      { destruct Hshape as [->| ->];
          [apply sublist_nil_l | apply sublist_skip, sublist_nil_l]. }
      split; [exact Hstream | reflexivity].
Qed.

(** X5: a streaming request.  The router calls no adapter and writes nothing
    to the response cache, and it does not read the cache either: what it
    returns is a decision without a result and without a cached payload,
    for a candidate of the chain, under the model name the caller asked
    for. *)
Theorem router_streaming_only_decides :
  forall (R : Type) (REG : ModelRegistry R) (registry : R) (env : Env)
         (llm_request : LLMCompletionRequest) (cache : RouterCacheOptions)
         (fallback_ : RouterFallbackConfig) (st : State),
    upstream_calls
      (snd (chat_completion registry env llm_request cache fallback_ true
                            st))
    = upstream_calls st
    /\ cache_writes
         (snd (chat_completion registry env llm_request cache fallback_ true
                               st))
       = cache_writes st
    /\ forall d r c,
         fst (chat_completion registry env llm_request cache fallback_ true
                              st) = Return d r c ->
         r = None /\ c = None /\ from_cache d = false
         /\ logical_model d = model llm_request
         /\ exists cfg m,
              get_model registry (model llm_request) = Some cfg
              /\ In m (models_chain registry cfg fallback_)
              /\ decision_provider d = Models.provider m
              /\ provider_model d = model_name m.
Proof.
  intros R REG registry env llm_request cache fallback_ st.
  unfold chat_completion. rewrite andb_false_r.
  destruct (get_model registry _) as [cfg|].
  2:{ repeat split; discriminate. }
  set (chain := models_chain registry cfg fallback_).
  set (st0 := mkState _ _ _ None).
  destruct (candidates_effects env false cache llm_request true chain chain
                               0%nat st0)
    as (extra & w & Hc & Hw & _ & Hstream & Hout).
  rewrite (Hstream eq_refl), app_nil_r in Hc.
  split; [exact Hc|].
  destruct (fst (candidates _ _ _ _ _ _ _ _ _)) as [d [r|] c|exc].
  - destruct Hout as (_ & Hs & _). discriminate Hs.
  - destruct Hout as (-> & _ & -> & m & Hin & ->).
    split; [rewrite Hw; apply app_nil_r|].
    intros d' r' c' [= <- <- <-]. repeat split.
    exists cfg, m. repeat split. exact Hin.
  - subst w. split; [rewrite Hw; apply app_nil_r | discriminate].
Qed.

(** X6: the upstream calls of one request follow the chain of candidates:
    they are calls for candidates of the chain, in the order of the chain and
    at most one for each.  A decision that comes with a result names the
    provider and model called last; a decision without one (a cache hit or a
    streaming request) comes with no call at all; an unknown model is never
    called for. *)
Theorem router_calls_follow_chain :
  forall (R : Type) (REG : ModelRegistry R) (registry : R) (env : Env)
         (llm_request : LLMCompletionRequest) (cache : RouterCacheOptions)
         (fallback_ : RouterFallbackConfig) (streaming : bool) (st : State),
  exists extra,
    upstream_calls
      (snd (chat_completion registry env llm_request cache fallback_
                            streaming st))
    = (upstream_calls st ++ extra)%list
    /\ match get_model registry (model llm_request) with
       | Some cfg =>
           sublist extra (map call_of (models_chain registry cfg fallback_))
       | None => extra = []
       end
    /\ (forall d r c,
           fst (chat_completion registry env llm_request cache fallback_
                                streaming st) = Return d (Some r) c ->
           last extra = Some (decision_provider d, provider_model d))
    /\ (forall d c,
           fst (chat_completion registry env llm_request cache fallback_
                                streaming st) = Return d None c ->
           extra = []).
Proof.
  intros R REG registry env llm_request cache fallback_ streaming st.
  unfold chat_completion.
  destruct (if cache_enabled cache && negb streaming
            then cached env else None) as [payload|].
  { exists []. simpl. rewrite app_nil_r. split; [reflexivity|].
    split; [destruct (get_model registry _); [apply sublist_nil_l|]|];
      [reflexivity|]. split; [discriminate | reflexivity]. }
  destruct (get_model registry _) as [cfg|].
  2:{ exists []. simpl. rewrite app_nil_r.
      repeat split; solve [reflexivity | discriminate]. }
  set (chain := models_chain registry cfg fallback_).
  set (st0 := mkState _ _ _ None).
  destruct (candidates_effects env (cache_enabled cache && negb streaming)
                               cache llm_request streaming chain chain
                               0%nat st0)
    as (extra & w & Hc & _ & Hsub & Hstream & Hout).
  exists extra. split; [exact Hc|]. split; [exact Hsub|].
  destruct (fst (candidates _ _ _ _ _ _ _ _ _)) as [d [r|] c|exc].
  - destruct Hout as (_ & _ & Hlast & _). split.
    + intros d' r' c' [= <- <- <-]. exact Hlast.
    + discriminate.
  - destruct Hout as (_ & Hs & _). split; [discriminate|].
    intros _ _ _. apply Hstream, Hs.
  - split; discriminate.
Qed.

(** X7: the response cache is written only on full success.  One call of
    [chat_completion] writes the cache at most once: exactly when it returns
    a result and the request has a cache key (the cache is enabled and the
    request is not streaming), and then with that result's payload and the
    time-to-live of the request.  A cache hit, a streaming decision and every
    failure leave the cache unwritten. *)
Theorem router_writes_cache_on_success_only :
  forall (R : Type) (REG : ModelRegistry R) (registry : R) (env : Env)
         (llm_request : LLMCompletionRequest) (cache : RouterCacheOptions)
         (fallback_ : RouterFallbackConfig) (streaming : bool) (st : State),
    cache_writes
      (snd (chat_completion registry env llm_request cache fallback_
                            streaming st))
    = (cache_writes st
       ++ match fst (chat_completion registry env llm_request cache fallback_
                                     streaming st) with
          | Return _ (Some r) _ =>
              if cache_enabled cache && negb streaming
              then [(payload_of r, ttl_seconds cache)] else []
          | _ => []
          end)%list.
Proof.
  intros R REG registry env llm_request cache fallback_ streaming st.
  unfold chat_completion.
  destruct (if cache_enabled cache && negb streaming
            then cached env else None) as [payload|].
  { simpl. symmetry. apply app_nil_r. }
  destruct (get_model registry _) as [cfg|].
  2:{ simpl. symmetry. apply app_nil_r. }
  set (chain := models_chain registry cfg fallback_).
  set (st0 := mkState _ _ _ None).
  destruct (candidates_effects env (cache_enabled cache && negb streaming)
                               cache llm_request streaming chain chain
                               0%nat st0)
    as (extra & w & _ & Hw & _ & _ & Hout).
  rewrite Hw. simpl. f_equal.
  destruct (fst (candidates _ _ _ _ _ _ _ _ _)) as [d [r|] c|exc].
  - destruct Hout as (_ & _ & _ & -> & _). reflexivity.
  - destruct Hout as (_ & _ & -> & _). reflexivity.
  - exact Hout.
Qed.

(** What the loop does with a candidate whose adapter raises a
    [ProviderError]. *)
Lemma candidates_provider_error env cache_key cache llm_request chain i
    model_cfg rest st cb exc :
  get_adapter (Models.provider model_cfg) <> None ->
  allow_request (clock_allow env i)
    (fst (_get_circuit_breaker (Models.provider model_cfg)
                               (_circuit_breakers st)))
  = Some (true, cb) ->
  completion env i = RaisedProviderError exc ->
  let st' :=
    mkState
      (<[Models.provider model_cfg := on_failure (clock_failure env i) cb]>
         (snd (_get_circuit_breaker (Models.provider model_cfg)
                                    (_circuit_breakers st))))
      (upstream_calls st ++ [call_of model_cfg])%list
      (cache_writes st) (Some (EProvider exc)) in
  candidates env cache_key cache llm_request false chain i
             (model_cfg :: rest) st
  = if fallback exc
    then candidates env cache_key cache llm_request false chain (S i) rest
                    st'
    else (Raise (AllProvidersFailed (Some (EProvider exc))), st').
Proof.
  intros Hadapter Hallow Hdone st'. cbn [candidates].
  unfold attempt. destruct (get_adapter _); [|congruence].
  destruct (_get_circuit_breaker _ _) as [cb0 cbs]. simpl in Hallow.
  rewrite Hallow, Hdone. subst st'. simpl.
  destruct (fallback exc); reflexivity.
Qed.

(** X8: a [ProviderError] decides by its [fallback] flag alone whether the
    chain goes on.  When the adapter of an admitted candidate raises one, a
    failure is recorded on the provider's breaker; with [fallback=True] the
    router goes on with the next candidate, and with [fallback=False] the
    request fails at once with "All provider candidates failed": the
    candidates behind it are never tried. *)
Theorem router_fallback_flag_decides :
  forall (env : Env) (cache_key : bool) (cache : RouterCacheOptions)
         (llm_request : LLMCompletionRequest) (chain : list ModelConfig)
         (i : nat) (model_cfg : ModelConfig) (rest : list ModelConfig)
         (st : State) (cb : CircuitBreaker) (exc : ProviderError),
    get_adapter (Models.provider model_cfg) <> None ->
    allow_request (clock_allow env i)
      (fst (_get_circuit_breaker (Models.provider model_cfg)
                                 (_circuit_breakers st)))
    = Some (true, cb) ->
    completion env i = RaisedProviderError exc ->
    let st' :=
      mkState
        (<[Models.provider model_cfg := on_failure (clock_failure env i) cb]>
           (snd (_get_circuit_breaker (Models.provider model_cfg)
                                      (_circuit_breakers st))))
        (upstream_calls st ++ [call_of model_cfg])%list
        (cache_writes st) (Some (EProvider exc)) in
    (fallback exc = true ->
     candidates env cache_key cache llm_request false chain i
                (model_cfg :: rest) st
     = candidates env cache_key cache llm_request false chain (S i) rest st')
    /\ (fallback exc = false ->
        candidates env cache_key cache llm_request false chain i
                   (model_cfg :: rest) st
        = (Raise (AllProvidersFailed (Some (EProvider exc))), st')).
Proof.
  intros env cache_key cache llm_request chain i model_cfg rest st cb exc
         Hadapter Hallow Hdone st'.
  pose proof (candidates_provider_error env cache_key cache llm_request
                chain i model_cfg rest st cb exc Hadapter Hallow Hdone)
    as Hstep.
  cbv zeta in Hstep. fold st' in Hstep.
  split; intros Hfb; rewrite Hfb in Hstep; exact Hstep.
Qed.

Lemma router_fallback_flag_decides_witness :
  let env := Examples.env_at (1 # 1) Examples.unavailable false in
  let st' :=
    mkState
      (<["openai" := on_failure (1 # 1) (DomainRouter.new "openai")]>
         (snd (_get_circuit_breaker "openai" (_circuit_breakers init))))
      [("openai", "gpt-4o")] [] (Some (EProvider
                                        (mkError "openai" "gpt-4o" true false
                                                 (Some 503)))) in
  (false = true ->
   candidates env false Examples.no_cache Examples.request false
              [Examples.gpt_4o; Examples.gpt_4o_mini] 0
              [Examples.gpt_4o; Examples.gpt_4o_mini] init
   = candidates env false Examples.no_cache Examples.request false
                [Examples.gpt_4o; Examples.gpt_4o_mini] 1
                [Examples.gpt_4o_mini] st')
  /\ (false = false ->
      candidates env false Examples.no_cache Examples.request false
                 [Examples.gpt_4o; Examples.gpt_4o_mini] 0
                 [Examples.gpt_4o; Examples.gpt_4o_mini] init
      = (Raise (AllProvidersFailed
                  (Some (EProvider (mkError "openai" "gpt-4o" true false
                                            (Some 503))))),
         st')).
Proof.
  apply (router_fallback_flag_decides
           (Examples.env_at (1 # 1) Examples.unavailable false) false
           Examples.no_cache Examples.request
           [Examples.gpt_4o; Examples.gpt_4o_mini] 0 Examples.gpt_4o
           [Examples.gpt_4o_mini] init (DomainRouter.new "openai")
           (mkError "openai" "gpt-4o" true false (Some 503))).
  - discriminate.
  - reflexivity.
  - reflexivity.
Defined.
End RouterViewFacts.

(** ** More on the adapters *)

Section AdapterViewFacts.
Import Adapter AdapterView.

Local Ltac upstream_cases upstream :=
  destruct (upstream 0) as [? [[[? ?] ?]|]|],
           (upstream 1) as [? [[[? ?] ?]|]|],
           (upstream 2) as [? [[[? ?] ?]|]|]; simpl;
  repeat match goal with
         | |- context [if ?c then _ else _] => destruct c eqn:?; simpl
         end.

(** X9: how a call of the OpenAI adapter can end.  A result is for the
    model that was asked, under the provider name "openai".  A
    [ProviderError] is raised only after three posts with sleeps of 1 and 2
    seconds in between; it is the error of the third attempt, carries the
    asked model, and has exactly one of its two flags set: the "retries
    exhausted" error that follows the loop in the source, with both flags
    set, is never raised. *)
Theorem openai_acompletion_outcome :
  forall (request : LLMCompletionRequest) (upstream : Z -> Upstream),
    match snd (acompletion request upstream) with
    | Returned r =>
        result_provider r = "openai" /\ result_model r = model request
    | Raised e =>
        error_provider e = "openai" /\ error_model e = model request
        /\ fallback e = negb (retryable e)
        /\ posts (fst (acompletion request upstream)) = [0; 1; 2]
        /\ sleeps (fst (acompletion request upstream)) = [1; 2]
        /\ is_error (upstream 2) = true
        /\ retryable e = transient (upstream 2)
    | RaisedOther => True
    end.
Proof.
  intros request upstream. unfold acompletion, attempts, is_error, transient.
  upstream_cases upstream;
    repeat split; try reflexivity; try assumption;
    try (symmetry; assumption);
    apply Z.leb_le;
    repeat match goal with
           | H : (_ || _) = true |- _ =>
               apply orb_true_iff in H; destruct H
           | H : (_ <=? _) = true |- _ => apply Z.leb_le in H
           | H : (_ =? _) = true |- _ => apply Z.eqb_eq in H
           end; lia.
Qed.



(** An attempt of the Gemini adapter before the last one either returns
    or sleeps and hands over to the next attempt. *)
Lemma gemini_attempt_goes_on request upstream j rest :
  (j =? 2) = false ->
  (exists r,
      GeminiAdapter.attempts request upstream (j :: rest)
      = ([Post j], Returned r)
      /\ result_provider r = "gemini" /\ result_model r = model request)
  \/ GeminiAdapter.attempts request upstream (j :: rest)
     = (Post j :: Sleep (2 ^ j)
          :: fst (GeminiAdapter.attempts request upstream rest),
        snd (GeminiAdapter.attempts request upstream rest)).
Proof.
  intros Hj. cbn [GeminiAdapter.attempts]. rewrite Hj.
  destruct (upstream j) as [status [[[text use] finish]|]|];
    repeat match goal with
           | |- context [if ?c then _ else _] => destruct c
           end;
    first [ right; reflexivity | left; eexists; repeat split ].
Qed.

(** The last attempt returns or raises a [ProviderError]. *)
Lemma gemini_last_attempt request upstream rest :
  (exists r,
      GeminiAdapter.attempts request upstream (2 :: rest)
      = ([Post 2], Returned r)
      /\ result_provider r = "gemini" /\ result_model r = model request)
  \/ exists e,
       GeminiAdapter.attempts request upstream (2 :: rest)
       = ([Post 2], Raised e)
       /\ error_provider e = "gemini" /\ error_model e = model request
       /\ (fallback e = false <-> status_code e = Some 429).
Proof.
  cbn [GeminiAdapter.attempts]. simpl.
  destruct (upstream 2) as [status [[[text use] finish]|]|];
    repeat match goal with
           | |- context [if ?c then _ else _] => destruct c eqn:?
           end;
    first
      [ left; eexists; repeat split; fail
      | right; eexists; split; [reflexivity|]; repeat split;
        first [ discriminate
              | intros _; match goal with
                          | H : (_ =? 429) = true |- _ =>
                              apply Z.eqb_eq in H; subst; reflexivity
                          end
              | reflexivity
              | intros [= ->]; discriminate ] ].
Qed.

(** X11: how a call of the Gemini adapter can end.  It always ends in a
    result or in a [ProviderError], also when the body cannot be read: no
    other exception leaves it.  An error is raised only after three posts
    with sleeps of 1 and 2 seconds, and it has [fallback=True] unless the
    third answer was a 429. *)
Theorem gemini_acompletion_outcome :
  forall (request : LLMCompletionRequest) (upstream : Z -> Upstream),
    match snd (GeminiAdapter.acompletion request upstream) with
    | Returned r =>
        result_provider r = "gemini" /\ result_model r = model request
    | Raised e =>
        error_provider e = "gemini" /\ error_model e = model request
        /\ posts (fst (GeminiAdapter.acompletion request upstream))
           = [0; 1; 2]
        /\ sleeps (fst (GeminiAdapter.acompletion request upstream))
           = [1; 2]
        /\ (fallback e = false <-> status_code e = Some 429)
    | RaisedOther => False
    end.
Proof.
  intros request upstream. unfold GeminiAdapter.acompletion.
  destruct (gemini_attempt_goes_on request upstream 0 [1; 2] eq_refl)
    as [(r & -> & Hp & Hm) | ->]; [split; assumption|].
  destruct (gemini_attempt_goes_on request upstream 1 [2] eq_refl)
    as [(r & -> & Hp & Hm) | ->]; [split; assumption|].
  destruct (gemini_last_attempt request upstream [])
    as [(r & -> & Hp & Hm) | (e & -> & Hp & Hm & Hfb)]; simpl.
  - split; assumption.
  - repeat split; try assumption; apply Hfb.
Qed.
End AdapterViewFacts.

(** ** The OpenAI adapter under the router *)

Section CompositionFacts.
Import DomainRouter Models Adapter ModelRouter RouterView.



End CompositionFacts.

(** ** Refreshing the registries *)

Section RefreshFacts.
Import Models.

Lemma dict_get_set_eq {V} (d : Py.dict V) (k : string) (v : V) :
  Py.dict_get (Py.dict_set d k v) k = Some v.
Proof.
  induction d as [|[k0 v0] d IH]; simpl.
  - rewrite String.eqb_refl. reflexivity.
  - destruct (String.eqb_spec k0 k) as [->|Hne]; simpl.
    + rewrite String.eqb_refl. reflexivity.
    + apply String.eqb_neq in Hne. rewrite Hne. exact IH.
Qed.

Lemma dict_get_set_ne {V} (d : Py.dict V) (k k' : string) (v : V) :
  k <> k' -> Py.dict_get (Py.dict_set d k v) k' = Py.dict_get d k'.
Proof.
  intros Hne. induction d as [|[k0 v0] d IH]; simpl.
  - apply String.eqb_neq in Hne. rewrite Hne. reflexivity.
  - destruct (String.eqb_spec k0 k) as [->|Hne0]; simpl.
    + apply String.eqb_neq in Hne. rewrite Hne. reflexivity.
    + destruct (String.eqb k0 k'); [reflexivity | exact IH].
Qed.

(** A dict filled by assignments, one for each element of a list. *)
Section Build.
Context {A V : Type} (key : A -> string) (val : A -> V).

Let build (l : list A) (d : Py.dict V) : Py.dict V :=
  fold_left (fun h a => Py.dict_set h (key a) (val a)) l d.

Lemma build_sound (l : list A) (d : Py.dict V) (k : string) (v : V) :
  Py.dict_get (build l d) k = Some v ->
  Py.dict_get d k = Some v \/ exists a, In a l /\ key a = k /\ val a = v.
Proof.
  revert d. induction l as [|a l IH]; intros d Hget; simpl in *.
  - left. exact Hget.
  - destruct (IH _ Hget) as [Hd | (a' & Hin & Hk & Hv)].
    + destruct (String.eqb_spec (key a) k) as [Heq|Hne].
      * subst k. rewrite dict_get_set_eq in Hd. injection Hd as <-.
        right. exists a. auto.
      * rewrite dict_get_set_ne in Hd by exact Hne. left. exact Hd.
    + right. exists a'. auto.
Qed.

Lemma build_keeps (l : list A) (d : Py.dict V) (k : string) :
  Py.dict_get d k <> None -> Py.dict_get (build l d) k <> None.
Proof.
  revert d. induction l as [|a l IH]; intros d Hget; simpl; [exact Hget|].
  apply IH. destruct (String.eqb_spec (key a) k) as [<-|Hne].
  - rewrite dict_get_set_eq. discriminate.
  - rewrite dict_get_set_ne by exact Hne. exact Hget.
Qed.

Lemma build_complete (l : list A) (d : Py.dict V) (a : A) :
  In a l -> Py.dict_get (build l d) (key a) <> None.
Proof.
  revert d. induction l as [|a0 l IH]; intros d Hin; simpl; [contradiction|].
  destruct Hin as [->|Hin]; [|apply IH, Hin].
  apply build_keeps. rewrite dict_get_set_eq. discriminate.
Qed.
End Build.

Lemma two_names_fold (l : list ModelConfig) (d : Py.dict ModelConfig) :
  fold_left
    (fun new_models config =>
       Py.dict_set (Py.dict_set new_models (model_name config) config)
                   (display_name config) config)
    l d
  = fold_left (fun h kv => Py.dict_set h (fst kv) (snd kv))
      (flat_map (fun c => [(model_name c, c); (display_name c, c)]) l) d.
Proof.
  revert d. induction l as [|c l IH]; intros d; simpl; [reflexivity|].
  apply IH.
Qed.

(** The snapshot the in-memory [refresh] builds, as one assignment for each
    name of each active row. *)
Lemma InMemory_refresh_entries rows self :
  InMemoryModelRegistry._models (InMemoryModelRegistry.refresh rows self)
  = fold_left (fun h kv => Py.dict_set h (fst kv) (snd kv))
      (flat_map (fun c => [(model_name c, c); (display_name c, c)])
                (List.filter (fun m => is_active m) rows))
      [].
Proof. unfold InMemoryModelRegistry.refresh. simpl. apply two_names_fold. Qed.

(** A lookup after the in-memory [refresh] finds an active row, under one
    of its two names. *)
Lemma InMemory_refresh_sound rows self identifier m :
  InMemoryModelRegistry.get_model
    (InMemoryModelRegistry.refresh rows self) identifier = Some m ->
  In m rows /\ is_active m = true
  /\ (model_name m = identifier \/ display_name m = identifier).
Proof.
  intros Hget. unfold InMemoryModelRegistry.get_model in Hget.
  rewrite InMemory_refresh_entries in Hget.
  apply (build_sound fst snd) in Hget.
  destruct Hget as [Hnil | ([k c] & Hin & Hk & Hv)]; [discriminate|].
  simpl in Hk, Hv. subst k c.
  apply in_flat_map in Hin as (c & Hc & Hpair).
  apply List.filter_In in Hc as [Hrows Hact].
  destruct Hpair as [[= <- <-]|[[= <- <-]|[]]]; auto.
Qed.

(** Every active row is found under both of its names. *)
Lemma InMemory_refresh_complete rows self m :
  In m rows -> is_active m = true ->
  InMemoryModelRegistry.get_model
    (InMemoryModelRegistry.refresh rows self) (model_name m) <> None
  /\ InMemoryModelRegistry.get_model
       (InMemoryModelRegistry.refresh rows self) (display_name m) <> None.
Proof.
  intros Hin Hact. unfold InMemoryModelRegistry.get_model.
  rewrite InMemory_refresh_entries.
  assert (Hm : In m (List.filter (fun m => is_active m) rows))
    by (apply List.filter_In; auto).
  split.
  - apply (build_complete fst snd _ _ (model_name m, m)).
    apply in_flat_map. exists m. split; [exact Hm | left; reflexivity].
  - apply (build_complete fst snd _ _ (display_name m, m)).
    apply in_flat_map. exists m.
    split; [exact Hm | right; left; reflexivity].
Qed.

(** X13: what the in-memory registry holds after a refresh.  A lookup only
    ever finds an active row of the catalogue, under its model name or its
    display name; every active row is found under both of its names, and a
    row that is the only active one to carry its model name is found under
    it.  Nothing of the earlier snapshot is left. *)
Theorem InMemory_refresh_lookup :
  forall (rows : list ModelConfig) (self : InMemoryModelRegistry.t),
    (forall identifier m,
        InMemoryModelRegistry.get_model
          (InMemoryModelRegistry.refresh rows self) identifier = Some m ->
        In m rows /\ is_active m = true
        /\ (model_name m = identifier \/ display_name m = identifier))
    /\ (forall m,
           In m rows -> is_active m = true ->
           InMemoryModelRegistry.get_model
             (InMemoryModelRegistry.refresh rows self) (model_name m)
           <> None
           /\ InMemoryModelRegistry.get_model
                (InMemoryModelRegistry.refresh rows self) (display_name m)
              <> None)
    /\ (forall m,
           In m rows -> is_active m = true ->
           (forall m', In m' rows -> is_active m' = true ->
                       model_name m' = model_name m
                       \/ display_name m' = model_name m ->
                       m' = m) ->
           InMemoryModelRegistry.get_model
             (InMemoryModelRegistry.refresh rows self) (model_name m)
           = Some m)
    /\ InMemoryModelRegistry.refresh rows self
       = InMemoryModelRegistry.refresh rows (InMemoryModelRegistry.mk []).
Proof.
  intros rows self.
  split; [apply InMemory_refresh_sound|].
  split; [apply InMemory_refresh_complete|]. split; [|reflexivity].
  intros m Hin Hact Honly.
  destruct (InMemory_refresh_complete rows self m Hin Hact) as [Hfound _].
  destruct (InMemoryModelRegistry.get_model _ (model_name m)) as [m'|] eqn:Hget;
    [|congruence].
  destruct (InMemory_refresh_sound _ _ _ _ Hget) as (Hin' & Hact' & Hname).
  f_equal. apply Honly; assumption.
Qed.

Lemma list_ascii_of_string_app (a b : string) :
  list_ascii_of_string (a ++ b)
  = (list_ascii_of_string a ++ list_ascii_of_string b)%list.
Proof. induction a as [|c a IH]; simpl; [|rewrite IH]; reflexivity. Qed.

Lemma full_name_has_colon (m : ModelConfig) :
  Py.contains_char ":" (full_name m) = true.
Proof.
  unfold Py.contains_char, full_name.
  rewrite list_ascii_of_string_app, existsb_app. simpl.
  apply orb_true_r.
Qed.

Lemma full_name_truthy (m : ModelConfig) : Py.truthy (full_name m) = true.
Proof.
  unfold Py.truthy, full_name. destruct (provider m); reflexivity.
Qed.

(** The two hashes the shared-store [refresh] writes. *)
Lemma Redis_refresh_hashes rows self :
  List.filter (fun m => is_active m) rows <> [] ->
  RedisModelRegistry.active (RedisModelRegistry.refresh rows self)
  = fold_left (fun h m => Py.dict_set h (full_name m) (Some m))
              (List.filter (fun m => is_active m) rows) []
  /\ RedisModelRegistry.aliases (RedisModelRegistry.refresh rows self)
     = fold_left (fun h m => Py.dict_set h (model_name m) (full_name m))
                 (List.filter (fun m => is_active m) rows) [].
Proof.
  intros Hne. unfold RedisModelRegistry.refresh.
  destruct (List.filter (fun m => is_active m) rows); [congruence|].
  split; reflexivity.
Qed.

(** A field of the active hash after a refresh holds an active row of that
    canonical name, and every active row has its field. *)
Lemma Redis_active_field rows self key :
  List.filter (fun m => is_active m) rows <> [] ->
  match RedisModelRegistry.hget
          (RedisModelRegistry.active (RedisModelRegistry.refresh rows self))
          key with
  | Some raw =>
      exists m, raw = Some m /\ In m rows /\ is_active m = true
                /\ full_name m = key
  | None =>
      forall m, In m rows -> is_active m = true -> full_name m <> key
  end.
Proof.
  intros Hne. destruct (Redis_refresh_hashes rows self Hne) as [-> _].
  unfold RedisModelRegistry.hget.
  destruct (Py.dict_get _ key) as [raw|] eqn:Hget.
  - apply (build_sound full_name Some) in Hget.
    destruct Hget as [Hnil | (m & Hin & Hk & Hv)]; [discriminate|].
    apply List.filter_In in Hin as [Hin Hact]. exists m. auto.
  - intros m Hin Hact Hk. subst key.
    apply (build_complete full_name Some
             (List.filter (fun m => is_active m) rows) [] m);
      [apply List.filter_In; auto | exact Hget].
Qed.

(** X14: what the shared-store registry resolves after a refresh that found
    at least one active row.  A lookup only ever finds an active row of the
    catalogue: the row of that canonical name, or, for a bare name, a row
    with the canonical name of a row of that model name.  Every active row
    is found under its canonical name ["provider:model_name"], up to rows
    sharing that name, and under its model name when that contains no
    colon; a row whose canonical name no other active row shares is found
    under it exactly. *)
Theorem Redis_refresh_lookup :
  forall (rows : list ModelConfig) (self : RedisModelRegistry.t),
    (exists m, In m rows /\ is_active m = true) ->
    (forall identifier m,
        RedisModelRegistry.get_model
          (RedisModelRegistry.refresh rows self) identifier = Some m ->
        In m rows /\ is_active m = true
        /\ (full_name m = identifier
            \/ exists m2, In m2 rows /\ is_active m2 = true
                          /\ model_name m2 = identifier
                          /\ full_name m = full_name m2))
    /\ (forall m,
           In m rows -> is_active m = true ->
           exists m',
             RedisModelRegistry.get_model
               (RedisModelRegistry.refresh rows self) (full_name m)
             = Some m'
             /\ full_name m' = full_name m)
    /\ (forall m,
           In m rows -> is_active m = true ->
           Py.contains_char ":" (model_name m) = false ->
           exists m' m2,
             RedisModelRegistry.get_model
               (RedisModelRegistry.refresh rows self) (model_name m)
             = Some m'
             /\ In m2 rows /\ is_active m2 = true
             /\ model_name m2 = model_name m
             /\ full_name m' = full_name m2)
    /\ (forall m,
           In m rows -> is_active m = true ->
           (forall m', In m' rows -> is_active m' = true ->
                       full_name m' = full_name m -> m' = m) ->
           RedisModelRegistry.get_model
             (RedisModelRegistry.refresh rows self) (full_name m)
           = Some m).
Proof.
  intros rows self (m0 & Hin0 & Hact0).
  assert (Hne : List.filter (fun m => is_active m) rows <> []).
  { intros Hnil.
    assert (Hm : In m0 (List.filter (fun m => is_active m) rows))
      by (apply List.filter_In; auto).
    rewrite Hnil in Hm. exact Hm. }
  pose proof (Redis_active_field rows self) as Hfield.
  assert (Hcanon : forall m,
             In m rows -> is_active m = true ->
             exists m',
               RedisModelRegistry.get_model
                 (RedisModelRegistry.refresh rows self) (full_name m)
               = Some m'
               /\ full_name m' = full_name m
               /\ In m' rows /\ is_active m' = true).
  { intros m Hin Hact. unfold RedisModelRegistry.get_model.
    rewrite full_name_has_colon. simpl.
    specialize (Hfield (full_name m) Hne).
    destruct (RedisModelRegistry.hget _ (full_name m)) as [raw|].
    - destruct Hfield as (m' & -> & Hin' & Hact' & Hk). exists m'. auto.
    - exfalso. exact (Hfield m Hin Hact eq_refl). }
  assert (Halias : forall identifier,
             match RedisModelRegistry.hget
                     (RedisModelRegistry.aliases
                        (RedisModelRegistry.refresh rows self))
                     identifier with
             | Some actual =>
                 exists m2, In m2 rows /\ is_active m2 = true
                            /\ model_name m2 = identifier
                            /\ actual = full_name m2
             | None =>
                 forall m, In m rows -> is_active m = true ->
                           model_name m <> identifier
             end).
  { intros identifier.
    destruct (Redis_refresh_hashes rows self Hne) as [_ ->].
    unfold RedisModelRegistry.hget.
    destruct (Py.dict_get _ identifier) as [actual|] eqn:Hget.
    - apply (build_sound model_name full_name) in Hget.
      destruct Hget as [Hnil | (m & Hin & Hk & Hv)]; [discriminate|].
      apply List.filter_In in Hin as [Hin Hact]. exists m. auto.
    - intros m Hin Hact Hk. subst identifier.
      apply (build_complete model_name full_name
               (List.filter (fun m => is_active m) rows) [] m);
        [apply List.filter_In; auto | exact Hget]. }
  split; [|split; [|split]].
  - intros identifier m Hget. unfold RedisModelRegistry.get_model in Hget.
    destruct (negb (Py.contains_char ":" identifier)).
    + specialize (Halias identifier).
      destruct (RedisModelRegistry.hget
                  (RedisModelRegistry.aliases _) identifier) as [actual|].
      * destruct Halias as (m2 & Hin2 & Hact2 & Hname2 & ->).
        rewrite full_name_truthy in Hget.
        specialize (Hfield (full_name m2) Hne).
        destruct (RedisModelRegistry.hget _ (full_name m2)) as [[m'|]|];
          [|discriminate|discriminate].
        injection Hget as <-.
        destruct Hfield as (m & [= <-] & Hin & Hact & Hk).
        split; [assumption|]. split; [assumption|].
        right. exists m2. auto.
      * specialize (Hfield identifier Hne).
        destruct (RedisModelRegistry.hget _ identifier) as [[m'|]|];
          [|discriminate|discriminate].
        injection Hget as <-.
        destruct Hfield as (m & [= <-] & Hin & Hact & Hk). auto.
    + specialize (Hfield identifier Hne).
      destruct (RedisModelRegistry.hget _ identifier) as [[m'|]|];
        [|discriminate|discriminate].
      injection Hget as <-.
      destruct Hfield as (m & [= <-] & Hin & Hact & Hk). auto.
  - intros m Hin Hact.
    destruct (Hcanon m Hin Hact) as (m' & Hget & Hk & _). eauto.
  - intros m Hin Hact Hbare. unfold RedisModelRegistry.get_model.
    rewrite Hbare. simpl. specialize (Halias (model_name m)).
    destruct (RedisModelRegistry.hget
                (RedisModelRegistry.aliases _) (model_name m)) as [actual|].
    + destruct Halias as (m2 & Hin2 & Hact2 & Hname2 & ->).
      rewrite full_name_truthy.
      specialize (Hfield (full_name m2) Hne).
      destruct (RedisModelRegistry.hget _ (full_name m2)) as [raw|].
      * destruct Hfield as (m' & -> & Hin' & Hact' & Hk).
        exists m', m2. auto.
      * exfalso. exact (Hfield m2 Hin2 Hact2 eq_refl).
    + exfalso. exact (Halias m Hin Hact eq_refl).
  - intros m Hin Hact Honly.
    destruct (Hcanon m Hin Hact) as (m' & Hget & Hk & Hin' & Hact').
    rewrite Hget. f_equal. apply Honly; assumption.
Qed.

Lemma Redis_refresh_lookup_witness :
  RedisModelRegistry.get_model Examples.redis_registry
                               (full_name Examples.claude)
  = Some Examples.claude.
Proof.
  destruct (Redis_refresh_lookup
              Examples.catalogue (RedisModelRegistry.mk [] [] []))
    as (_ & _ & _ & Hexact).
  - exists Examples.gpt_4o. split; [left|]; reflexivity.
  - apply Hexact.
    + right. left. reflexivity.
    + reflexivity.
    + intros m' Hin _ Hname.
      destruct Hin as [<-|[<-|[<-|[<-|[]]]]];
        first [reflexivity | discriminate Hname].
Defined.

Lemma no_active_rows (rows : list ModelConfig) :
  (forall m, In m rows -> is_active m = false) ->
  List.filter (fun m => is_active m) rows = [].
Proof.
  intros Hnone. induction rows as [|m rows IH]; simpl; [reflexivity|].
  rewrite (Hnone m (or_introl eq_refl)). apply IH.
  intros m' Hin. apply Hnone. right. exact Hin.
Qed.

(** X15: a refresh that finds no active row.  The shared-store registry
    writes nothing and keeps its earlier snapshot as it is; the in-memory
    registry swaps in an empty snapshot, after which it resolves no model
    and lists none. *)
Theorem refresh_without_active_rows :
  forall (rows : list ModelConfig) (shared : RedisModelRegistry.t)
         (memory : InMemoryModelRegistry.t),
    (forall m, In m rows -> is_active m = false) ->
    RedisModelRegistry.refresh rows shared = shared
    /\ (forall identifier,
           InMemoryModelRegistry.get_model
             (InMemoryModelRegistry.refresh rows memory) identifier = None)
    /\ (forall provider_ capability active_only,
           InMemoryModelRegistry.list_models
             (InMemoryModelRegistry.refresh rows memory) provider_ capability
             active_only = []).
Proof.
  intros rows shared memory Hnone.
  pose proof (no_active_rows rows Hnone) as Hnil.
  split; [|split].
  - unfold RedisModelRegistry.refresh. rewrite Hnil. reflexivity.
  - intros identifier. unfold InMemoryModelRegistry.get_model.
    rewrite InMemory_refresh_entries, Hnil. reflexivity.
  - intros provider_ capability active_only.
    rewrite InMemory_list_models_matching, InMemory_refresh_entries, Hnil.
    reflexivity.
Qed.

Lemma refresh_without_active_rows_witness :
  let retired :=
    mkModel "m-9" "openai" "gpt-3" "GPT-3" 4000 1000 [] (2 # 100) (2 # 100)
            false 0 in
  RedisModelRegistry.refresh [retired] Examples.redis_registry
  = Examples.redis_registry
  /\ (forall identifier,
         InMemoryModelRegistry.get_model
           (InMemoryModelRegistry.refresh [retired] Examples.memory_registry)
           identifier = None)
  /\ (forall provider_ capability active_only,
         InMemoryModelRegistry.list_models
           (InMemoryModelRegistry.refresh [retired] Examples.memory_registry)
           provider_ capability active_only = []).
Proof.
  apply (refresh_without_active_rows
           [mkModel "m-9" "openai" "gpt-3" "GPT-3" 4000 1000 [] (2 # 100)
                    (2 # 100) false 0]
           Examples.redis_registry Examples.memory_registry).
  intros m [<-|[]]. reflexivity.
Defined.

(** X16: with the in-memory registry the router has no fallbacks.  The
    router asks for the fallback chain of ["provider:model_name"], and the
    in-memory registry indexes its snapshot by model name and display name
    only.  So when no active row has a colon in one of its names, that
    lookup fails, the fallback chain is empty, and the chain of candidates
    is the primary alone, whatever the fallback options say. *)
Theorem in_memory_registry_has_no_fallbacks :
  forall (rows : list ModelConfig) (self : InMemoryModelRegistry.t)
         (cfg : ModelConfig) (fallback_ : DomainRouter.RouterFallbackConfig),
    (forall m, In m rows -> is_active m = true ->
               Py.contains_char ":" (model_name m) = false
               /\ Py.contains_char ":" (display_name m) = false) ->
    InMemoryModelRegistry.get_fallback_chain
      (InMemoryModelRegistry.refresh rows self) (full_name cfg) = []
    /\ ModelRouter.models_chain (InMemoryModelRegistry.refresh rows self)
                                cfg fallback_
       = [cfg].
Proof.
  intros rows self cfg fallback_ Hbare.
  assert (Hnone : InMemoryModelRegistry.get_model
                    (InMemoryModelRegistry.refresh rows self) (full_name cfg)
                  = None).
  { destruct (InMemoryModelRegistry.get_model _ (full_name cfg))
      as [m|] eqn:Hget; [|reflexivity].
    destruct (InMemory_refresh_sound _ _ _ _ Hget) as (Hin & Hact & Hname).
    destruct (Hbare m Hin Hact) as [Hn Hd].
    pose proof (full_name_has_colon cfg) as Hcolon.
    destruct Hname as [Heq|Heq]; rewrite <- Heq in Hcolon; congruence. }
  assert (Hchain : InMemoryModelRegistry.get_fallback_chain
                     (InMemoryModelRegistry.refresh rows self) (full_name cfg)
                   = []).
  { unfold InMemoryModelRegistry.get_fallback_chain. rewrite Hnone.
    reflexivity. }
  split; [exact Hchain|].
  unfold ModelRouter.models_chain. simpl. rewrite Hchain.
  destruct (DomainRouter.fallback_enabled fallback_); [|reflexivity].
  destruct (DomainRouter.fallback_models fallback_); reflexivity.
Qed.

Lemma in_memory_registry_has_no_fallbacks_witness :
  InMemoryModelRegistry.get_fallback_chain
    Examples.memory_registry (full_name Examples.gpt_4o) = []
  /\ ModelRouter.models_chain Examples.memory_registry Examples.gpt_4o
                              (DomainRouter.mkFallback true ["gpt-4o-mini"])
     = [Examples.gpt_4o].
Proof.
  apply (in_memory_registry_has_no_fallbacks
           Examples.catalogue (InMemoryModelRegistry.mk []) Examples.gpt_4o
           (DomainRouter.mkFallback true ["gpt-4o-mini"])).
  intros m Hin _.
  destruct Hin as [<-|[<-|[<-|[<-|[]]]]]; split; reflexivity.
Defined.
End RefreshFacts.

(** ** More on the in-process store *)

Section StoreFacts.
Import InMemoryRedis.

(** X17: [set] and [get] on the in-process store.  A [set] that answers
    [True] is read back by [get]; it answers [False] exactly when [nx] is
    given and the key is there, and then leaves the store as it is; other
    keys are never touched. *)
Theorem in_memory_set_then_get :
  forall (key : string) (v : value) (ex px : option Z) (nx : bool)
         (data : gmap string value),
    (fst (set key v ex px nx data) = true ->
     fst (get key (snd (set key v ex px nx data))) = Some v)
    /\ (fst (set key v ex px nx data) = false <->
        nx = true /\ data !! key <> None)
    /\ (fst (set key v ex px nx data) = false ->
        snd (set key v ex px nx data) = data)
    /\ forall other,
         other <> key ->
         fst (get other (snd (set key v ex px nx data)))
         = fst (get other data).
Proof.
  intros key v ex px nx data. unfold set, get.
  destruct nx; simpl.
  - case_bool_decide as Hin; simpl.
    + split; [discriminate|]. split; [|split; [reflexivity|]].
      * split; [intros _; split; [reflexivity|] | reflexivity].
        destruct Hin as [x Hx]. congruence.
      * intros other Hne. reflexivity.
    + split; [intros _; apply lookup_insert_eq|].
      split; [|split; [discriminate|]].
      * split; [discriminate|]. intros [_ Hthere]. exfalso. apply Hin.
        destruct (data !! key); [eauto | congruence].
      * intros other Hne. apply lookup_insert_ne. congruence.
  - split; [intros _; apply lookup_insert_eq|].
    split; [|split; [discriminate|]].
    + split; [discriminate | intros [Habs _]; discriminate].
    + intros other Hne. apply lookup_insert_ne. congruence.
Qed.

Lemma delete_fold (keys : list string) (n : Z) (data : gmap string value) :
  let out :=
    fold_left
      (fun acc k =>
         if bool_decide (is_Some (snd acc !! k))
         then (fst acc + 1, base.delete k (snd acc))
         else acc)
      keys (n, data) in
  fst out = n + Z.of_nat (size (dom data ∩ list_to_set keys))
  /\ forall k,
       snd out !! k = if bool_decide (k ∈ keys) then None else data !! k.
Proof.
  revert n data. induction keys as [|k0 keys IH]; intros n data out;
    subst out; cbn [fold_left fst snd].
  - split.
    + assert (Hempty : dom data ∩ list_to_set [] = (∅ : gset string))
        by set_solver.
      rewrite Hempty, size_empty. lia.
    + intros k. case_bool_decide as Hin; [inversion Hin | reflexivity].
  - assert (Hset : list_to_set (k0 :: keys)
                   = ({[k0]} ∪ list_to_set keys : gset string))
      by reflexivity.
    rewrite Hset. clear Hset.
    case_bool_decide as Hthere.
    + destruct (IH (n + 1) (base.delete k0 data)) as [Hcount Hlook].
      split.
      * rewrite Hcount.
        assert (Hsplit : dom data ∩ ({[k0]} ∪ list_to_set keys)
                         = ({[k0]} ∪ (dom (base.delete k0 data)
                                      ∩ list_to_set keys) : gset string)).
        { apply elem_of_dom in Hthere. rewrite dom_delete_L.
          apply set_eq. intros x.
          destruct (decide (x = k0)) as [->|Hne]; set_solver. }
        rewrite Hsplit.
        rewrite (size_union
                   ({[k0]} : gset string)
                   (dom (base.delete k0 data) ∩ list_to_set keys))
          by (rewrite dom_delete_L; set_solver).
        rewrite size_singleton. lia.
      * intros k. rewrite Hlook.
        destruct (decide (k = k0)) as [->|Hne].
        -- rewrite lookup_delete_eq.
           repeat case_bool_decide; try reflexivity; exfalso; set_solver.
        -- rewrite lookup_delete_ne by congruence.
           repeat case_bool_decide; try reflexivity; exfalso; set_solver.
    + destruct (IH n data) as [Hcount Hlook].
      split.
      * rewrite Hcount.
        assert (Hsame : dom data ∩ ({[k0]} ∪ list_to_set keys)
                        = (dom data ∩ list_to_set keys : gset string)).
        { assert (Hout : k0 ∉ dom data)
            by (intros Hin; apply Hthere, elem_of_dom; exact Hin).
          set_solver. }
        rewrite Hsame. reflexivity.
      * intros k. rewrite Hlook.
        destruct (decide (k = k0)) as [->|Hne].
        -- assert (Hnone : data !! k0 = None).
           { destruct (data !! k0) eqn:Hk; [|reflexivity].
             exfalso. apply Hthere. eauto. }
           repeat case_bool_decide; try reflexivity;
             first [exact Hnone | symmetry; exact Hnone | exfalso; set_solver].
        -- repeat case_bool_decide; try reflexivity; exfalso; set_solver.
Qed.

(** X18: [delete] on the in-process store.  It answers the number of
    distinct keys among the given ones that were in the store (a key given
    twice counts once), and afterwards none of the given keys is in the
    store while every other key holds what it held. *)
Theorem in_memory_delete_counts :
  forall (keys : list string) (data : gmap string value),
    fst (delete keys data)
    = Z.of_nat (size (dom data ∩ list_to_set keys))
    /\ forall k,
         snd (delete keys data) !! k
         = if bool_decide (k ∈ keys) then None else data !! k.
Proof.
  intros keys data. unfold delete.
  destruct (delete_fold keys 0 data) as [Hcount Hlook].
  split; [rewrite Hcount; lia | exact Hlook].
Qed.
End StoreFacts.

(** ** More on the auth middleware *)

Section AuthFacts.
Import Auth.

(** [int] of a clock difference: it is at most 0 exactly below one second,
    and from 1 on it does not exceed the difference. *)
Lemma py_int_floor (x : Q) :
  (py_int x <= 0 <-> (x < 1)%Q)
  /\ (1 <= py_int x -> (inject_Z (py_int x) <= x)%Q).
Proof.
  destruct x as [n d]. unfold py_int, Qlt, Qle. simpl.
  rewrite !Z.mul_1_r, Z.mul_1_l.
  assert (Hd : 0 < Z.pos d) by lia.
  destruct (Z.neg_nonneg_cases n) as [Hneg|Hpos].
  - assert (Hq : n ÷ Z.pos d <= 0).
    { replace n with (- (- n)) by lia. rewrite Z.quot_opp_l by lia.
      pose proof (Z.quot_pos (- n) (Z.pos d)). lia. }
    split; [split; lia | lia].
  - rewrite Z.quot_div_nonneg by lia.
    pose proof (Z.mul_div_le n (Z.pos d) Hd) as Hle.
    split; [split|].
    + intros Hq. destruct (Z.lt_ge_cases n (Z.pos d)) as [Hlt|Hge]; [lia|].
      pose proof (Z.div_le_lower_bound n (Z.pos d) 1 Hd). lia.
    + intros Hlt. rewrite Z.div_small by lia. lia.
    + intros _. lia.
Qed.

(** X19: the time-to-live [_cache_key] gives a cached key record.  It is a
    whole number of seconds between 1 and 300, and for a key that expires it
    is never longer than the time the key has left, so in a store that
    honours it the cached record is gone by the time the key expires.  The
    record is left unwritten exactly when the key has less than one second
    left. *)
Theorem cache_key_ttl_bounds :
  forall (now : Q) (cached_ : CachedApiKey),
    match _cache_key_ttl now cached_ with
    | Some ttl_seconds =>
        1 <= ttl_seconds <= 300
        /\ forall e, expires_at_ts cached_ = Some e ->
                     (inject_Z ttl_seconds <= e - now)%Q
    | None =>
        exists e, expires_at_ts cached_ = Some e /\ (e - now < 1)%Q
    end.
Proof.
  intros now cached_. unfold _cache_key_ttl.
  destruct (expires_at_ts cached_) as [e|].
  - destruct (py_int_floor (e - now)) as [Hzero Hfloor].
    destruct (Z.leb_spec (py_int (e - now)) 0) as [Hle|Hgt].
    + exists e. split; [reflexivity | apply Hzero, Hle].
    + split; [lia|]. intros e' [= <-].
      eapply Qle_trans; [|apply Hfloor; lia].
      rewrite <- Zle_Qle. lia.
  - split; [lia | discriminate].
Qed.

(** Whom [ApiKeyService.authenticate] accepts.  It returns a record
    exactly when the credential store holds that record under the key's hash,
    the record is active, it has no expiry or an expiry that is not before
    the current time, and the bcrypt check succeeds. *)
Theorem authenticate_accepts_exactly_valid_keys :
  forall (now : Q) (stored_ : option CachedApiKey) (bcrypt_valid_ : bool)
         (s : CachedApiKey),
    authenticate now stored_ bcrypt_valid_ = Some s
    <-> stored_ = Some s /\ is_active s = true /\ bcrypt_valid_ = true
        /\ match expires_at_ts s with
           | Some e => (now <= e)%Q
           | None => True
           end.
Proof.
  intros now stored_ bcrypt_valid_ s. unfold authenticate. split.
  - destruct stored_ as [c|]; [|discriminate].
    destruct (is_active c) eqn:Hact; simpl; [|discriminate].
    destruct (expires_at_ts c) as [e|] eqn:He.
    + destruct (Qltb e now) eqn:Hexp; [discriminate|].
      destruct bcrypt_valid_; simpl; [|discriminate].
      intros [= <-]. rewrite He. repeat split; try assumption.
      apply Qltb_ge. exact Hexp.
    + destruct bcrypt_valid_; simpl; [|discriminate].
      intros [= <-]. rewrite He. repeat split; assumption.
  - intros (-> & Hact & -> & Hexp). rewrite Hact. simpl.
    destruct (expires_at_ts s) as [e|]; [|reflexivity].
    apply Qltb_ge in Hexp. rewrite Hexp. reflexivity.
Qed.
End AuthFacts.

(** ** The middleware as a whole *)

Section MiddlewareFacts.
Import Auth ApiKeyAuthMiddleware.
Variable int_of_bytes : list Byte.byte -> option Z.
Variable sha256_hex : string -> string.
Variable strip : string -> string.
Variable packb : CachedApiKey -> list Byte.byte.
Variable unpackb : list Byte.byte -> option CachedApiKey.

Local Abbreviation dispatch_ :=
  (dispatch int_of_bytes sha256_hex strip packb unpackb).
Local Abbreviation counter_ := (InMemoryRedis.counter int_of_bytes).

Lemma auth_key_is_no_ratelimit_key (h h' ip : string) :
  auth_key h <> ratelimit_key h' ip.
Proof. unfold auth_key, ratelimit_key. simpl. discriminate. Qed.

(** The end of [dispatch]: the rate limit, on the in-process store. *)
Lemma rate_limit_verdict principal ip hit h t
    (data : gmap string InMemoryRedis.value) :
  let limit := rate_limit_per_minute (principal_permissions principal) in
  let N := counter_ (ratelimit_key h ip) data + 1 in
  (let (answer, data') :=
     @_check_rate_limit _ (InMemoryRedis.client int_of_bytes) t h ip limit
                        data in
   let '(allowed, remaining, reset_ts) := answer in
   if negb allowed then (TooManyRequests, data')
   else (Forwarded principal ip hit limit (Z.max 0 remaining) reset_ts,
         data'))
  = (if N <=? limit
     then Forwarded principal ip hit limit (limit - N) (py_int t + 60)
     else TooManyRequests,
     <[ratelimit_key h ip := InMemoryRedis.VInt N]> data).
Proof.
  intros limit N. rewrite check_rate_limit_in_memory. fold N. simpl.
  destruct (Z.leb_spec N limit) as [Hle|Hgt]; simpl; [|reflexivity].
  f_equal. f_equal. lia.
Qed.

(** Who the request is taken to come from, with the store the lookup leaves
    and the cache-hit flag: the cached record if it has not expired,
    otherwise the database. *)
Lemma dispatch_closed request env
    (data : gmap string InMemoryRedis.value) :
  dispatch_ request env data
  = if existsb (String.eqb (path request)) unauthenticated_paths
    then (CallNext, data)
    else
      match _extract_api_key strip request with
      | None => (Unauthorized "Missing API key", data)
      | Some api_key =>
          let h := sha256_hex (strip api_key) in
          let ip := match client_host request with
                    | Some host => host
                    | None => "unknown"
                    end in
          match unpack_raw unpackb (data !! auth_key h) with
          | None => (UnpackError, data)
          | Some record =>
              let resolved :=
                match fst (_get_cached_key (now_cached env) record) with
                | Some c => Some (_principal_from_cached c, data, true)
                | None =>
                    match authenticate (now_db env) (stored env)
                                       (bcrypt_valid env) with
                    | Some s =>
                        Some (_principal_from_cached s,
                              _cache_key packb (now_cache_key env) s data,
                              false)
                    | None => None
                    end
                end in
              match resolved with
              | None => (Unauthorized "Invalid API key", data)
              | Some (principal, data1, hit) =>
                  let limit :=
                    rate_limit_per_minute
                      (principal_permissions principal) in
                  let N := counter_ (ratelimit_key h ip) data1 + 1 in
                  (if N <=? limit
                   then Forwarded principal ip hit limit (limit - N)
                                  (py_int (now_rate_limit env) + 60)
                   else TooManyRequests,
                   <[ratelimit_key h ip := InMemoryRedis.VInt N]> data1)
              end
          end
      end.
Proof.
  unfold dispatch.
  destruct (existsb _ unauthenticated_paths); [reflexivity|].
  destruct (_extract_api_key strip request) as [api_key|]; [|reflexivity].
  unfold InMemoryRedis.get. cbv zeta.
  destruct (unpack_raw unpackb _) as [record|]; [|reflexivity].
  assert (Hdb :
    forall hit,
      match _authenticate_via_db packb env data with
      | None => (Unauthorized "Invalid API key", data)
      | Some (principal, data1) =>
          let (answer, data') :=
            @_check_rate_limit _ (InMemoryRedis.client int_of_bytes)
              (now_rate_limit env) (sha256_hex (strip api_key))
              match client_host request with
              | Some host => host
              | None => "unknown"
              end
              (rate_limit_per_minute (principal_permissions principal))
              data1 in
          let '(allowed, remaining, reset_ts) := answer in
          if negb allowed then (TooManyRequests, data')
          else
            (Forwarded principal
               match client_host request with
               | Some host => host
               | None => "unknown"
               end hit
               (rate_limit_per_minute (principal_permissions principal))
               (Z.max 0 remaining) reset_ts, data')
      end
      = match
          match authenticate (now_db env) (stored env) (bcrypt_valid env) with
          | Some s =>
              Some (_principal_from_cached s,
                    _cache_key packb (now_cache_key env) s data, hit)
          | None => None
          end
        with
        | None => (Unauthorized "Invalid API key", data)
        | Some (principal, data1, hit') =>
            (if counter_ (ratelimit_key (sha256_hex (strip api_key))
                            match client_host request with
                            | Some host => host
                            | None => "unknown"
                            end) data1 + 1
                <=? rate_limit_per_minute (principal_permissions principal)
             then Forwarded principal
                    match client_host request with
                    | Some host => host
                    | None => "unknown"
                    end hit'
                    (rate_limit_per_minute (principal_permissions principal))
                    (rate_limit_per_minute (principal_permissions principal)
                     - (counter_ (ratelimit_key (sha256_hex (strip api_key))
                                    match client_host request with
                                    | Some host => host
                                    | None => "unknown"
                                    end) data1 + 1))
                    (py_int (now_rate_limit env) + 60)
             else TooManyRequests,
             <[ratelimit_key (sha256_hex (strip api_key))
                 match client_host request with
                 | Some host => host
                 | None => "unknown"
                 end
               := InMemoryRedis.VInt
                    (counter_ (ratelimit_key (sha256_hex (strip api_key))
                                 match client_host request with
                                 | Some host => host
                                 | None => "unknown"
                                 end) data1 + 1)]> data1)
        end).
  { intros hit. unfold _authenticate_via_db.
    destruct (authenticate (now_db env) (stored env) (bcrypt_valid env));
      [|reflexivity].
    apply rate_limit_verdict. }
  unfold _get_cached_key.
  destruct record as [c|].
  - destruct (expires_at_ts c) as [e|];
      [destruct (Qltb e (now_cached env))|]; cbn [fst];
      first [apply Hdb | apply rate_limit_verdict].
  - cbn [fst]. apply Hdb.
Qed.

Lemma cache_key_keeps_counter now s h ip
    (data : gmap string InMemoryRedis.value) :
  counter_ (ratelimit_key h ip) (_cache_key packb now s data)
  = counter_ (ratelimit_key h ip) data.
Proof.
  unfold _cache_key. destruct (_cache_key_ttl now s); [|reflexivity].
  apply counter_lookup. unfold InMemoryRedis.set. simpl.
  apply lookup_insert_ne. apply auth_key_is_no_ratelimit_key.
Qed.

(** X20: a request the middleware turns away costs nothing.  When
    [dispatch] lets a request through unauthenticated (the open paths), or
    answers 401 for a
    missing or an invalid key, or fails on unreadable cached bytes, the store
    is left exactly as it was: a rejected key is not cached and does not
    count against any rate limit.  The open paths are always let through,
    and a request without a key always gets "Missing API key". *)
Theorem middleware_rejection_leaves_store :
  forall (request : Request) (env : Env)
         (data : gmap string InMemoryRedis.value),
    match fst (dispatch_ request env data) with
    | CallNext | Unauthorized _ | UnpackError =>
        snd (dispatch_ request env data) = data
    | TooManyRequests | Forwarded _ _ _ _ _ _ => True
    end
    /\ (existsb (String.eqb (path request)) unauthenticated_paths = true ->
        fst (dispatch_ request env data) = CallNext)
    /\ (existsb (String.eqb (path request)) unauthenticated_paths = false ->
        _extract_api_key strip request = None ->
        fst (dispatch_ request env data) = Unauthorized "Missing API key").
Proof.
  intros request env data. rewrite dispatch_closed.
  destruct (existsb _ unauthenticated_paths).
  { repeat split; discriminate. }
  destruct (_extract_api_key strip request) as [api_key|].
  2:{ repeat split; discriminate. }
  split; [|split; discriminate]. cbv zeta.
  destruct (unpack_raw unpackb _) as [record|]; [|reflexivity].
  destruct (fst (_get_cached_key _ record)); simpl.
  - destruct (_ <=? _); exact I.
  - destruct (authenticate _ _ _); simpl; [|reflexivity].
    destruct (_ <=? _); exact I.
Qed.

(** X21: what the rate limit of the middleware means for a request.  A request
    that is handed on has raised the counter of its key and client address by
    one, to a value within the limit of its principal, and its rate-limit
    info says how much is left: [remaining = limit - counter], never
    negative, with the reset time 60 seconds after the clock reading.  A
    request answered 429 has raised the counter by one as well. *)
Theorem middleware_rate_limit_accounting :
  forall (request : Request) (env : Env)
         (data : gmap string InMemoryRedis.value),
    let ip := match client_host request with
              | Some host => host
              | None => "unknown"
              end in
    match fst (dispatch_ request env data) with
    | Forwarded principal client_ip _ limit remaining reset_ts =>
        exists h,
          lookup_hash_of sha256_hex strip request = Some h
          /\ client_ip = ip
          /\ limit = rate_limit_per_minute (principal_permissions principal)
          /\ counter_ (ratelimit_key h ip) (snd (dispatch_ request env data))
             = counter_ (ratelimit_key h ip) data + 1
          /\ counter_ (ratelimit_key h ip) (snd (dispatch_ request env data))
             <= limit
          /\ remaining
             = limit
               - counter_ (ratelimit_key h ip)
                          (snd (dispatch_ request env data))
          /\ 0 <= remaining
          /\ reset_ts = py_int (now_rate_limit env) + 60
    | TooManyRequests =>
        exists h,
          lookup_hash_of sha256_hex strip request = Some h
          /\ counter_ (ratelimit_key h ip) (snd (dispatch_ request env data))
             = counter_ (ratelimit_key h ip) data + 1
    | CallNext | Unauthorized _ | UnpackError => True
    end.
Proof.
  intros request env data ip. rewrite dispatch_closed.
  destruct (existsb _ unauthenticated_paths); [exact I|].
  unfold lookup_hash_of.
  destruct (_extract_api_key strip request) as [api_key|]; [|exact I].
  cbv zeta. fold ip.
  destruct (unpack_raw unpackb _) as [record|]; [|exact I].
  set (h := sha256_hex (strip api_key)).
  assert (Hafter : forall n (d : gmap string InMemoryRedis.value),
             counter_ (ratelimit_key h ip)
                      (<[ratelimit_key h ip := InMemoryRedis.VInt n]> d)
             = n).
  { intros n d. unfold InMemoryRedis.counter.
    rewrite lookup_insert_eq. reflexivity. }
  destruct (fst (_get_cached_key _ record)) as [c|]; simpl.
  - destruct (Z.leb_spec (counter_ (ratelimit_key h ip) data + 1)
                         (rate_limit_per_minute (permissions c)));
      simpl; exists h; rewrite Hafter; repeat split; lia.
  - destruct (authenticate _ _ _) as [s|]; simpl; [|exact I].
    rewrite cache_key_keeps_counter.
    destruct (Z.leb_spec (counter_ (ratelimit_key h ip) data + 1)
                         (rate_limit_per_minute (permissions s)));
      simpl; exists h; rewrite Hafter; repeat split; lia.
Qed.

Lemma get_cached_key_unexpired t c :
  unexpired t c = true -> _get_cached_key t (Some c) = (Some c, true).
Proof.
  unfold unexpired, _get_cached_key.
  destruct (expires_at_ts c) as [e|]; [|reflexivity].
  destruct (Qltb e t); [discriminate | reflexivity].
Qed.

Lemma get_cached_key_expired t c :
  unexpired t c = false -> _get_cached_key t (Some c) = (None, false).
Proof.
  unfold unexpired, _get_cached_key.
  destruct (expires_at_ts c) as [e|]; [|discriminate].
  destruct (Qltb e t); [reflexivity | discriminate].
Qed.

Lemma lookup_hash_of_extract request h :
  lookup_hash_of sha256_hex strip request = Some h ->
  exists api_key,
    _extract_api_key strip request = Some api_key
    /\ h = sha256_hex (strip api_key).
Proof.
  unfold lookup_hash_of.
  destruct (_extract_api_key strip request) as [api_key|]; [|discriminate].
  intros [= <-]. exists api_key. split; reflexivity.
Qed.

(** [dispatch] on a request whose key has an unexpired record in the store. *)
Lemma dispatch_cache_hit request env
    (data : gmap string InMemoryRedis.value) h b c :
  existsb (String.eqb (path request)) unauthenticated_paths = false ->
  lookup_hash_of sha256_hex strip request = Some h ->
  data !! auth_key h = Some (InMemoryRedis.VBytes b) ->
  unpackb b = Some c ->
  unexpired (now_cached env) c = true ->
  let ip := match client_host request with
            | Some host => host
            | None => "unknown"
            end in
  let limit := rate_limit_per_minute (permissions c) in
  let N := counter_ (ratelimit_key h ip) data + 1 in
  dispatch_ request env data
  = (if N <=? limit
     then Forwarded (_principal_from_cached c) ip true limit (limit - N)
                    (py_int (now_rate_limit env) + 60)
     else TooManyRequests,
     <[ratelimit_key h ip := InMemoryRedis.VInt N]> data).
Proof.
  intros Hpath Hhash Hraw Hunpack Hlive ip limit N.
  destruct (lookup_hash_of_extract _ _ Hhash) as (api_key & Hkey & ->).
  rewrite dispatch_closed, Hpath, Hkey. cbv zeta.
  rewrite Hraw. cbn [unpack_raw]. rewrite Hunpack.
  rewrite (get_cached_key_unexpired _ _ Hlive). reflexivity.
Qed.

(** [dispatch] on a request whose key has no record in the store, or an
    expired one, and which the database accepts. *)
Lemma dispatch_cache_miss request env
    (data : gmap string InMemoryRedis.value) h record s :
  existsb (String.eqb (path request)) unauthenticated_paths = false ->
  lookup_hash_of sha256_hex strip request = Some h ->
  unpack_raw unpackb (data !! auth_key h) = Some record ->
  match record with
  | Some c => unexpired (now_cached env) c = false
  | None => True
  end ->
  authenticate (now_db env) (stored env) (bcrypt_valid env) = Some s ->
  let ip := match client_host request with
            | Some host => host
            | None => "unknown"
            end in
  let limit := rate_limit_per_minute (permissions s) in
  let N := counter_ (ratelimit_key h ip) data + 1 in
  dispatch_ request env data
  = (if N <=? limit
     then Forwarded (_principal_from_cached s) ip false limit (limit - N)
                    (py_int (now_rate_limit env) + 60)
     else TooManyRequests,
     <[ratelimit_key h ip := InMemoryRedis.VInt N]>
       (_cache_key packb (now_cache_key env) s data)).
Proof.
  intros Hpath Hhash Hraw Hrecord Hdb ip limit N.
  destruct (lookup_hash_of_extract _ _ Hhash) as (api_key & Hkey & ->).
  rewrite dispatch_closed, Hpath, Hkey. cbv zeta.
  rewrite Hraw.
  assert (Hnone : fst (_get_cached_key (now_cached env) record) = None).
  { destruct record as [c|]; [|reflexivity].
    rewrite (get_cached_key_expired _ _ Hrecord). reflexivity. }
  rewrite Hnone, Hdb. cbv iota beta.
  fold ip. rewrite cache_key_keeps_counter. reflexivity.
Qed.

(** X22: a live cached record is all the middleware asks for.  When the store
    holds, under the lookup hash of the presented key, bytes that unpack to a
    record which has not expired at the clock reading of [_get_cached_key],
    the request is never refused as unauthenticated: it is handed on with the
    principal of that record and the cache-hit flag set, or answered 429.
    The database is not consulted: the answer and the store afterwards are
    the same whatever the database holds, whatever [bcrypt.checkpw] would
    say and whatever the database clocks read.  Nor is the record's own
    [is_active] flag looked at, and the cached bytes stay in place. *)
Theorem middleware_trusts_live_cached_record :
  forall (request : Request) (env env' : Env)
         (data : gmap string InMemoryRedis.value)
         (h : string) (b : list Byte.byte) (c : CachedApiKey),
    existsb (String.eqb (path request)) unauthenticated_paths = false ->
    lookup_hash_of sha256_hex strip request = Some h ->
    data !! auth_key h = Some (InMemoryRedis.VBytes b) ->
    unpackb b = Some c ->
    unexpired (now_cached env) c = true ->
    now_cached env' = now_cached env ->
    now_rate_limit env' = now_rate_limit env ->
    dispatch_ request env' data = dispatch_ request env data
    /\ snd (dispatch_ request env data) !! auth_key h
       = Some (InMemoryRedis.VBytes b)
    /\ match fst (dispatch_ request env data) with
       | Forwarded principal _ auth_cache_hit _ _ _ =>
           principal = _principal_from_cached c /\ auth_cache_hit = true
       | TooManyRequests => True
       | CallNext | Unauthorized _ | UnpackError => False
       end.
Proof.
  intros request env env' data h b c Hpath Hhash Hraw Hunpack Hlive Hc Hr.
  assert (Hlive' : unexpired (now_cached env') c = true)
    by (rewrite Hc; exact Hlive).
  rewrite (dispatch_cache_hit request env data h b c) by assumption.
  rewrite (dispatch_cache_hit request env' data h b c) by assumption.
  rewrite Hr. split; [reflexivity|]. split.
  - cbn [snd]. rewrite lookup_insert_ne; [exact Hraw|].
    intros E. exact (auth_key_is_no_ratelimit_key _ _ _ (eq_sym E)).
  - cbn [fst]. destruct (_ <=? _); [split; reflexivity | exact I].
Qed.

(** X23: without a live cached record the database decides.  When the store
    holds nothing under the lookup hash of the presented key, or a record
    that has expired at the clock reading of [_get_cached_key], the request
    is answered 401 "Invalid API key" exactly when
    [ApiKeyService.authenticate] refuses the key; otherwise it is handed on
    with the principal of the database record and the cache-hit flag unset,
    or answered 429. *)
Theorem middleware_without_cached_record_asks_database :
  forall (request : Request) (env : Env)
         (data : gmap string InMemoryRedis.value)
         (h : string) (record : option CachedApiKey),
    existsb (String.eqb (path request)) unauthenticated_paths = false ->
    lookup_hash_of sha256_hex strip request = Some h ->
    unpack_raw unpackb (data !! auth_key h) = Some record ->
    match record with
    | Some c => unexpired (now_cached env) c = false
    | None => True
    end ->
    match authenticate (now_db env) (stored env) (bcrypt_valid env) with
    | None =>
        fst (dispatch_ request env data) = Unauthorized "Invalid API key"
    | Some s =>
        match fst (dispatch_ request env data) with
        | Forwarded principal _ auth_cache_hit _ _ _ =>
            principal = _principal_from_cached s /\ auth_cache_hit = false
        | TooManyRequests => True
        | CallNext | Unauthorized _ | UnpackError => False
        end
    end.
Proof.
  intros request env data h record Hpath Hhash Hraw Hrecord.
  destruct (authenticate (now_db env) (stored env) (bcrypt_valid env))
    as [s|] eqn:Hdb.
  - rewrite (dispatch_cache_miss request env data h record s) by assumption.
    cbn [fst]. destruct (_ <=? _); [split; reflexivity | exact I].
  - destruct (lookup_hash_of_extract _ _ Hhash) as (api_key & Hkey & ->).
    rewrite dispatch_closed, Hpath, Hkey. cbv zeta. rewrite Hraw.
    assert (Hnone : fst (_get_cached_key (now_cached env) record) = None).
    { destruct record as [c|]; [|reflexivity].
      rewrite (get_cached_key_expired _ _ Hrecord). reflexivity. }
    rewrite Hnone, Hdb. reflexivity.
Qed.

(** X24: the database is asked once per key and cache lifetime.  A request
    whose key is not in the store and which the database accepts leaves the
    record in the store, under the hash the database found it by, provided
    the record has at least a second to live and [msgpack] reads back what it
    wrote.  Any later request with the same key, made while the record has
    not expired, is then served from the cache, with the same principal,
    even if the key has meanwhile been revoked or removed in the database:
    it is never answered 401. *)
Theorem middleware_caches_database_answer :
  forall (request : Request) (env later : Env)
         (data : gmap string InMemoryRedis.value)
         (h : string) (s : CachedApiKey),
    existsb (String.eqb (path request)) unauthenticated_paths = false ->
    lookup_hash_of sha256_hex strip request = Some h ->
    data !! auth_key h = None ->
    authenticate (now_db env) (stored env) (bcrypt_valid env) = Some s ->
    key_hash s = h ->
    _cache_key_ttl (now_cache_key env) s <> None ->
    unpackb (packb s) = Some s ->
    unexpired (now_cached later) s = true ->
    let data1 := snd (dispatch_ request env data) in
    data1 !! auth_key h = Some (InMemoryRedis.VBytes (packb s))
    /\ match fst (dispatch_ request later data1) with
       | Forwarded principal _ auth_cache_hit _ _ _ =>
           principal = _principal_from_cached s /\ auth_cache_hit = true
       | TooManyRequests => True
       | CallNext | Unauthorized _ | UnpackError => False
       end.
Proof.
  intros request env later data h s Hpath Hhash Hraw Hdb Hkey Httl Hpack
         Hlive data1.
  assert (Hstored :
            data1 !! auth_key h = Some (InMemoryRedis.VBytes (packb s))).
  { unfold data1.
    rewrite (dispatch_cache_miss request env data h None s);
      [|assumption|assumption|rewrite Hraw; reflexivity|exact I|assumption].
    cbn [snd]. rewrite lookup_insert_ne.
    2:{ intros E. exact (auth_key_is_no_ratelimit_key _ _ _ (eq_sym E)). }
    unfold _cache_key.
    destruct (_cache_key_ttl (now_cache_key env) s); [|congruence].
    unfold InMemoryRedis.set. cbn [andb snd]. rewrite Hkey.
    apply lookup_insert_eq. }
  split; [exact Hstored|].
  rewrite (dispatch_cache_hit request later data1 h (packb s) s)
    by assumption.
  cbn [fst]. destruct (_ <=? _); [split; reflexivity | exact I].
Qed.
End MiddlewareFacts.

Section MiddlewareWitnesses.
Import Auth ApiKeyAuthMiddleware MiddlewareExamples.

Lemma middleware_trusts_live_cached_record_witness :
  dispatch no_int the_hash the_strip the_packb the_unpackb a_request
           (mkEnv None false 10 0 0 10) warm
  = dispatch no_int the_hash the_strip the_packb the_unpackb a_request
             an_env warm
  /\ snd (dispatch no_int the_hash the_strip the_packb the_unpackb a_request
                   an_env warm) !! auth_key "9f86d081"
     = Some (InMemoryRedis.VBytes [])
  /\ match fst (dispatch no_int the_hash the_strip the_packb the_unpackb
                         a_request an_env warm) with
     | Forwarded principal _ auth_cache_hit _ _ _ =>
         principal = _principal_from_cached Examples.cached_key
         /\ auth_cache_hit = true
     | TooManyRequests => True
     | CallNext | Unauthorized _ | UnpackError => False
     end.
Proof.
  apply (middleware_trusts_live_cached_record
           no_int the_hash the_strip the_packb the_unpackb
           a_request an_env (mkEnv None false 10 0 0 10) warm
           "9f86d081" [] Examples.cached_key); reflexivity.
Defined.

Lemma middleware_without_cached_record_asks_database_witness :
  match authenticate (now_db an_env) (stored an_env) (bcrypt_valid an_env)
  with
  | None =>
      fst (dispatch no_int the_hash the_strip the_packb the_unpackb
                    a_request an_env InMemoryRedis.empty)
      = Unauthorized "Invalid API key"
  | Some s =>
      match fst (dispatch no_int the_hash the_strip the_packb the_unpackb
                          a_request an_env InMemoryRedis.empty) with
      | Forwarded principal _ auth_cache_hit _ _ _ =>
          principal = _principal_from_cached s /\ auth_cache_hit = false
      | TooManyRequests => True
      | CallNext | Unauthorized _ | UnpackError => False
      end
  end.
Proof.
  apply (middleware_without_cached_record_asks_database
           no_int the_hash the_strip the_packb the_unpackb
           a_request an_env InMemoryRedis.empty "9f86d081" None);
    [reflexivity | reflexivity | reflexivity | exact I].
Defined.

Lemma middleware_caches_database_answer_witness :
  let data1 :=
    snd (dispatch no_int the_hash the_strip the_packb the_unpackb a_request
                  an_env InMemoryRedis.empty) in
  data1 !! auth_key "9f86d081"
  = Some (InMemoryRedis.VBytes (the_packb Examples.cached_key))
  /\ match fst (dispatch no_int the_hash the_strip the_packb the_unpackb
                         a_request revoked data1) with
     | Forwarded principal _ auth_cache_hit _ _ _ =>
         principal = _principal_from_cached Examples.cached_key
         /\ auth_cache_hit = true
     | TooManyRequests => True
     | CallNext | Unauthorized _ | UnpackError => False
     end.
Proof.
  apply (middleware_caches_database_answer
           no_int the_hash the_strip the_packb the_unpackb
           a_request an_env revoked InMemoryRedis.empty
           "9f86d081" Examples.cached_key);
    first [reflexivity | discriminate].
Defined.
End MiddlewareWitnesses.
